(** * ARGO NetCDF pipeline: a shallow embedding of [argo_data_pipeline.py]

    The development follows the Python module top to bottom: the IEEE
    doubles the readings are made of, the exceptions the code catches, the
    region classifier, the NetCDF decoder with its per-profile summary, the
    relational upsert, the TF-IDF embedding index with its similarity search,
    the pickle persistence, the directory orchestration and the filtered
    query.  Definitions come first, theorems after. *)

From Stdlib Require Import ZArith Bool List Ascii String Floats.SpecFloat
  Sorting.Sorted Sorting.Permutation.
From stdpp Require Import base option list gmap strings pretty.

Set Warnings "-clear-no-such-hyp".

Local Open Scope Z_scope.
Local Open Scope string_scope.

(* ===================================================================== *)
(** ** Python floats: IEEE binary64 *)
(* ===================================================================== *)

(** A Python [float] (and a numpy [float64]) is an IEEE binary64 value; the
    standard library's [spec_float] is that datatype, with NaN, the two
    infinities and the two zeros. *)
Abbreviation float := spec_float.

Definition prec : Z := 53.
Definition emax : Z := 1024.

(** An integer literal of the source, as the double Python compares with. *)
Definition float_of_int (z : Z) : float := binary_normalize prec emax z 0 false.

(** [np.isnan]. *)
Definition isnan (x : float) : bool :=
  match x with S754_nan => true | _ => false end.

Definition isfinite (x : float) : bool :=
  match x with S754_nan | S754_infinity _ => false | _ => true end.

Definition fle (x y : float) : bool := SFleb x y.
Definition flt (x y : float) : bool := SFltb x y.
Definition feq (x y : float) : bool := SFeqb x y.
Definition fmul (x y : float) : float := SFmul prec emax x y.
Definition fdiv (x y : float) : float := SFdiv prec emax x y.
Definition fadd (x y : float) : float := SFadd prec emax x y.
Definition fsqrt (x : float) : float := SFsqrt prec emax x.

Declare Scope float_scope.
Infix "<=?" := fle : float_scope.
Infix "<?" := flt : float_scope.
Delimit Scope float_scope with flt.
Bind Scope float_scope with spec_float.

(** [np.zeros(n)]. *)
Definition np_zeros (n : nat) : list float := replicate n (S754_zero false).

(* ===================================================================== *)
(** ** Exceptions *)
(* ===================================================================== *)

Inductive exn : Type :=
  | IndexError
  | ValueError
  | ZeroDivisionError
  | RuntimeError
  | OSError
  | DatabaseError.

(** A Python call either returns or raises. *)
Inductive outcome (A : Type) : Type :=
  | Return (a : A)
  | Raise (e : exn).
Arguments Return {A} a.
Arguments Raise {A} e.

Definition bind {A B} (c : outcome A) (k : A -> outcome B) : outcome B :=
  match c with
  | Return a => k a
  | Raise e => Raise e
  end.

Notation "x <- c ;; k" := (bind c (fun x => k))
  (at level 100, c at next level, right associativity, only parsing).

(** [try: body except Exception: handler]. *)
Definition try_except {A} (body : outcome A) (handler : exn -> A) : A :=
  match body with
  | Return a => a
  | Raise e => handler e
  end.

(** [l[i]] on a Python list or a numpy row. *)
Definition getitem {A} (l : list A) (i : nat) : outcome A :=
  match l !! i with
  | Some a => Return a
  | None => Raise IndexError
  end.

(* ===================================================================== *)
(** ** Region classifier *)
(* ===================================================================== *)

(** [determine_ocean_region]: the chained comparisons of the source, in its
    order.  A comparison with NaN is false, so NaN coordinates fall through
    to the last branch. *)
Definition determine_ocean_region (lat lon : float) : string :=
  if (float_of_int (-180) <=? lon)%flt && (lon <=? float_of_int (-60))%flt
     && (float_of_int 10 <=? lat)%flt && (lat <=? float_of_int 70)%flt
  then "North Atlantic"
  else if (float_of_int 60 <=? lon)%flt && (lon <=? float_of_int 180)%flt
     && (float_of_int 10 <=? lat)%flt && (lat <=? float_of_int 70)%flt
  then "North Pacific"
  else if (float_of_int (-60) <=? lon)%flt && (lon <=? float_of_int 20)%flt
     && (float_of_int (-60) <=? lat)%flt && (lat <=? float_of_int 10)%flt
  then "South Atlantic"
  else if (float_of_int 20 <=? lon)%flt && (lon <=? float_of_int 180)%flt
     && (float_of_int (-60) <=? lat)%flt && (lat <=? float_of_int 10)%flt
  then "South Pacific"
  else if (float_of_int 20 <=? lon)%flt && (lon <=? float_of_int 120)%flt
     && (float_of_int (-40) <=? lat)%flt && (lat <=? float_of_int 30)%flt
  then "Indian Ocean"
  else if (float_of_int 70 <? lat)%flt
  then "Arctic Ocean"
  else if (lat <? float_of_int (-60))%flt
  then "Southern Ocean"
  else "Unknown".

(** The rule table of the specification (section 4.2), kept apart from the
    code above so that the two can be compared: five closed boxes, two open
    half-planes and the catch-all, tried in order. *)
Inductive region_rule : Type :=
  | Box (lon_lo lon_hi lat_lo lat_hi : Z)
  | LatAbove (bound : Z)
  | LatBelow (bound : Z)
  | Otherwise.

Definition region_rules : list (region_rule * string) :=
  [ (Box (-180) (-60) 10 70, "North Atlantic");
    (Box 60 180 10 70, "North Pacific");
    (Box (-60) 20 (-60) 10, "South Atlantic");
    (Box 20 180 (-60) 10, "South Pacific");
    (Box 20 120 (-40) 30, "Indian Ocean");
    (LatAbove 70, "Arctic Ocean");
    (LatBelow (-60), "Southern Ocean");
    (Otherwise, "Unknown") ].

(** [x] lies in the closed interval [[lo, hi]]. *)
Definition in_closed (lo hi : Z) (x : float) : bool :=
  (float_of_int lo <=? x)%flt && (x <=? float_of_int hi)%flt.

Definition rule_matches (r : region_rule) (lat lon : float) : bool :=
  match r with
  | Box lon_lo lon_hi lat_lo lat_hi =>
      in_closed lon_lo lon_hi lon && in_closed lat_lo lat_hi lat
  | LatAbove b => (float_of_int b <? lat)%flt
  | LatBelow b => (lat <? float_of_int b)%flt
  | Otherwise => true
  end.

(** First matching rule wins. *)
Fixpoint first_match (rules : list (region_rule * string)) (lat lon : float)
  : option string :=
  match rules with
  | [] => None
  | (r, name) :: rest =>
      if rule_matches r lat lon then Some name else first_match rest lat lon
  end.

Definition region_names : list string := map snd region_rules.

(* ===================================================================== *)
(** ** Formatting and the builtins the decoder uses *)
(* ===================================================================== *)

(** Nearest integer to [n / d] for [0 < d], ties to the even neighbour: the
    rounding of Python's fixed-point formatting, which works on the exact
    value of the double. *)
Definition round_half_even (n d : Z) : Z :=
  let q := n / d in
  let r := n mod d in
  if (2 * r <? d)%Z then q
  else if (d <? 2 * r)%Z then q + 1
  else if Z.even q then q else q + 1.

Definition pad_zeros (width : nat) (s : string) : string :=
  String.concat EmptyString (replicate (width - String.length s) "0") +:+ s.

(** The digits of [q / 10^digits] with [digits] decimals. *)
Definition fixed_digits (digits : nat) (q : Z) : string :=
  let scale := 10 ^ Z.of_nat digits in
  match digits with
  | O => pretty q
  | _ => pretty (q / scale) +:+ "." +:+ pad_zeros digits (pretty (q mod scale))
  end.

(** [f"{x:.<digits>f}"]. *)
Definition format_fixed (digits : nat) (x : float) : string :=
  let sign (s : bool) := if s then "-" else EmptyString in
  match x with
  | S754_nan => "nan"
  | S754_infinity s => sign s +:+ "inf"
  | S754_zero s => sign s +:+ fixed_digits digits 0
  | S754_finite s m e =>
      let scaled := Z.pos m * 10 ^ Z.of_nat digits in
      let q := if (0 <=? e)%Z then scaled * 2 ^ e
               else round_half_even scaled (2 ^ (- e)) in
      sign s +:+ fixed_digits digits q
  end.

(** [min(l)] and [max(l)]: the first smallest and the first largest element;
    [ValueError] on an empty list. *)
Definition py_min (l : list float) : outcome float :=
  match l with
  | [] => Raise ValueError
  | x :: rest =>
      Return (fold_left (fun cur item => if (item <? cur)%flt then item else cur)
                rest x)
  end.

Definition py_max (l : list float) : outcome float :=
  match l with
  | [] => Raise ValueError
  | x :: rest =>
      Return (fold_left (fun cur item => if (cur <? item)%flt then item else cur)
                rest x)
  end.

(** [a / b] on two lengths: the double nearest to the quotient. *)
Definition py_truediv (a b : nat) : outcome float :=
  match b with
  | O => Raise ZeroDivisionError
  | _ => Return (fdiv (float_of_int (Z.of_nat a)) (float_of_int (Z.of_nat b)))
  end.

(* ===================================================================== *)
(** ** Records of the two tables and of the input file *)
(* ===================================================================== *)

(** Instants (profile dates, clock readings) as integers on one time axis. *)
Definition timestamp : Type := Z.

Module ARGOFloat.
Record metadata_t : Type := {
  level_index : nat;
  file_source : string
}.
Record t : Type := {
  id : string;
  platform_number : string;
  cycle_number : Z;
  latitude : float;
  longitude : float;
  measurement_time : timestamp;
  temperature : float;
  salinity : float;
  pressure : float;
  depth : float;
  quality_flag : string;
  ocean_region : string;
  data_source : string;
  metadata : metadata_t
}.
End ARGOFloat.

Module ARGOProfile.
Record range : Type := {
  min : float;
  max : float;
  mean : float
}.
Record processing : Type := {
  processed_at : timestamp;
  total_levels : nat;
  valid_levels : nat
}.
Record t : Type := {
  id : string;
  platform_number : string;
  cycle_number : Z;
  profile_date : timestamp;
  latitude : float;
  longitude : float;
  max_depth : float;
  num_measurements : nat;
  temperature_range : range;
  salinity_range : range;
  pressure_range : range;
  ocean_region : string;
  data_quality_score : float;
  summary_text : string;
  (** absent until [store_to_vector_database] sets the key *)
  vector_embedding : option (list float);
  file_source : string;
  processing_metadata : processing
}.
End ARGOProfile.

(** One index of the [N_PROF] dimension of an opened dataset, the readings
    taken as doubles.  [JULD] is the outcome of the timestamp conversion in
    the inner [try]: [None] when it raises or yields NaT. *)
Record profile_slot : Type := {
  CYCLE_NUMBER : Z;
  LATITUDE : float;
  LONGITUDE : float;
  JULD : option timestamp;
  TEMP : list float;
  PSAL : list float;
  PRES : list float
}.

(** What [xr.open_dataset] hands back: the [platform_number] attribute
    (already defaulted to ["unknown"] and turned into a string) and the
    profiles. *)
Record dataset : Type := {
  attr_platform_number : string;
  N_PROF : list profile_slot
}.

(** The two places where the decoder reads the wall clock. *)
Inductive clock_site : Type := AtProfileTime | AtProcessedAt.

(** Reading of the clock at a site of iteration [cycle_idx]. *)
Definition clock : Type := nat -> clock_site -> timestamp.

(** One constructor per [logger] call of the module. *)
Inductive message : Type :=
  | ProcessingFile (file_path : string)
  | Extracted (measurements profiles : nat)
  | ErrorProcessingFile (file_path : string) (e : exn)
  | DatabaseInitialized
  | DatabaseInitFailed (e : exn)
  | Stored (measurements profiles : nat)
  | ErrorStoring (e : exn)
  | EmbeddingFallback (e : exn)
  | CreatedEmbedding (profile_id : string)
  | ErrorEmbedding (e : exn)
  | ErrorSearching (e : exn)
  | DirectoryMissing (directory_path : string)
  | FoundFiles (n : nat)
  | ProcessedFile (file : string)
  | FailedFile (file : string) (e : exn)
  | VectorStoreSaved (file_path : string)
  | ErrorSaving (e : exn)
  | VectorStoreLoaded (file_path : string)
  | ErrorLoading (e : exn)
  | ErrorQuerying (e : exn).

Inductive log_record : Type :=
  | INFO (m : message)
  | WARNING (m : message)
  | ERROR (m : message).

(** The fitted state of the [TfidfVectorizer]: its [vocabulary_], the terms
    in sorted order, a term's feature index being its position.  The
    vectorizer is only ever fitted on one document, so every [idf_] weight
    is [ln((1+1)/(1+1)) + 1 = 1]. *)
Definition vocabulary : Type := list string.

Module Entry.
Record metadata_t : Type := {
  platform_number : string;
  ocean_region : string;
  latitude : float;
  longitude : float;
  profile_date : timestamp;
  temperature_range : ARGOProfile.range;
  salinity_range : ARGOProfile.range
}.
(** A value of [self.vector_store]. *)
Record t : Type := {
  vector : list float;
  metadata : metadata_t;
  text : string
}.
End Entry.

(** A Python [dict] with string keys: insertion-ordered, one binding per
    key. *)
Definition dict (V : Type) : Type := list (string * V).

(** [d[k] = v]: a present key keeps its place, a new one goes last. *)
Fixpoint dict_set {V} (k : string) (v : V) (d : dict V) : dict V :=
  match d with
  | [] => [(k, v)]
  | (k', v') :: rest =>
      if decide (k = k') then (k, v) :: rest else (k', v') :: dict_set k v rest
  end.

(** The object [save_vector_store] pickles: the dictionary with the keys
    ['vector_store'] and ['vectorizer']. *)
Record pickled : Type := {
  saved_vector_store : dict Entry.t;
  saved_vectorizer : option vocabulary
}.

(** The numerical kernels and codecs of the libraries the module calls
    (numpy, scikit-learn, pickle, the SQL engine), of which the code only
    uses the interface. *)
Class Library : Type := {
  (** [np.mean] of a non-empty list *)
  np_mean : list float -> float;
  (** scikit-learn's analyzer: lower-casing, tokenising, stop-word removal *)
  analyze : string -> list string;
  (** the terms [max_features] keeps when a document has more distinct terms
      than that, given the terms with their counts *)
  top_features : nat -> list (string * nat) -> list string;
  (** the value of [cosine_similarity] on two checked rows of equal length *)
  cosine_kernel : list float -> list float -> float;
  (** the bytes of a pickle file *)
  blob : Type;
  pickle_dumps : pickled -> blob;
  pickle_loads : blob -> outcome pickled;
  (** for a file whose loading fails: the table under the key
      ['vector_store'] when it is the later reading of the key
      ['vectorizer'] that raises, [None] when the failure comes before *)
  unpickled_vector_store : blob -> option (dict Entry.t);
  (** the store's reading of a date literal; [None] when it rejects it *)
  parse_timestamp : string -> option timestamp
}.

(* ===================================================================== *)
(** ** Decoder *)
(* ===================================================================== *)

(** The double nearest to the literal [1.019716]. *)
Definition depth_factor : float := S754_finite false 4592392597623733 (-52).

Definition pressure_to_depth (pressure : float) : float :=
  fmul pressure depth_factor.

(** The lists the level loop appends to. *)
Record level_acc : Type := {
  valid_measurements : list ARGOFloat.t;
  temp_list : list float;
  sal_list : list float;
  pres_list : list float
}.

Definition empty_levels : level_acc :=
  {| valid_measurements := []; temp_list := []; sal_list := [];
     pres_list := [] |}.

Section Decoder.
Context `{Library}.

(** The per-profile locals of [process_netcdf_file]. *)
Variables (file_path platform_number : string) (cycle_number : Z)
          (profile_lat profile_lon : float) (profile_time : timestamp)
          (ocean_region : string).

Definition make_measurement (level_idx : nat) (temp sal pressure : float)
  : ARGOFloat.t :=
  {| ARGOFloat.id :=
       platform_number +:+ "_" +:+ pretty cycle_number +:+ "_"
         +:+ pretty level_idx;
     ARGOFloat.platform_number := platform_number;
     ARGOFloat.cycle_number := cycle_number;
     ARGOFloat.latitude := profile_lat;
     ARGOFloat.longitude := profile_lon;
     ARGOFloat.measurement_time := profile_time;
     ARGOFloat.temperature := temp;
     ARGOFloat.salinity := sal;
     ARGOFloat.pressure := pressure;
     ARGOFloat.depth := pressure_to_depth pressure;
     ARGOFloat.quality_flag := "good";
     ARGOFloat.ocean_region := ocean_region;
     ARGOFloat.data_source := file_path;
     ARGOFloat.metadata :=
       {| ARGOFloat.level_index := level_idx;
          ARGOFloat.file_source := file_path |} |}.

(** [for level_idx in range(len(temps))]: [temps_rest] is what remains of
    [temps] from [level_idx] on; [sals] and [pres] are indexed, and a
    short row raises. *)
Fixpoint level_loop (sals pres temps_rest : list float) (level_idx : nat)
  (acc : level_acc) : outcome level_acc :=
  match temps_rest with
  | [] => Return acc
  | temp :: rest =>
      sal <- getitem sals level_idx ;;
      pressure <- getitem pres level_idx ;;
      let acc' :=
        if negb (isnan temp || isnan sal || isnan pressure) then
          {| valid_measurements :=
               valid_measurements acc
                 ++ [make_measurement level_idx temp sal pressure];
             temp_list := temp_list acc ++ [temp];
             sal_list := sal_list acc ++ [sal];
             pres_list := pres_list acc ++ [pressure] |}
        else acc in
      level_loop sals pres rest (S level_idx) acc'
  end.

Definition make_range (l : list float) : outcome ARGOProfile.range :=
  lo <- py_min l ;;
  hi <- py_max l ;;
  Return {| ARGOProfile.min := lo; ARGOProfile.max := hi;
            ARGOProfile.mean := np_mean l |}.

(** The body of [if valid_measurements:]. *)
Definition make_profile (total_levels : nat) (processed_at : timestamp)
  (acc : level_acc) : outcome ARGOProfile.t :=
  let valid := valid_measurements acc in
  temp_min <- py_min (temp_list acc) ;;
  temp_max <- py_max (temp_list acc) ;;
  sal_min <- py_min (sal_list acc) ;;
  sal_max <- py_max (sal_list acc) ;;
  deepest <- py_max (map ARGOFloat.depth valid) ;;
  let summary_text :=
    "ARGO float " +:+ platform_number +:+ " profile " +:+ pretty cycle_number
    +:+ " at " +:+ format_fixed 2 profile_lat +:+ "°N "
    +:+ format_fixed 2 profile_lon +:+ "°E in " +:+ ocean_region
    +:+ " with " +:+ pretty (length valid) +:+ " measurements. "
    +:+ "Temperature range: " +:+ format_fixed 2 temp_min +:+ "-"
    +:+ format_fixed 2 temp_max +:+ "°C, "
    +:+ "Salinity range: " +:+ format_fixed 2 sal_min +:+ "-"
    +:+ format_fixed 2 sal_max +:+ " PSU, "
    +:+ "Depth range: 0-" +:+ format_fixed 0 deepest +:+ "m" in
  max_depth <- py_max (map ARGOFloat.depth valid) ;;
  temperature_range <- make_range (temp_list acc) ;;
  salinity_range <- make_range (sal_list acc) ;;
  pressure_range <- make_range (pres_list acc) ;;
  score <- py_truediv (length valid) total_levels ;;
  Return
    {| ARGOProfile.id := platform_number +:+ "_" +:+ pretty cycle_number;
       ARGOProfile.platform_number := platform_number;
       ARGOProfile.cycle_number := cycle_number;
       ARGOProfile.profile_date := profile_time;
       ARGOProfile.latitude := profile_lat;
       ARGOProfile.longitude := profile_lon;
       ARGOProfile.max_depth := max_depth;
       ARGOProfile.num_measurements := length valid;
       ARGOProfile.temperature_range := temperature_range;
       ARGOProfile.salinity_range := salinity_range;
       ARGOProfile.pressure_range := pressure_range;
       ARGOProfile.ocean_region := ocean_region;
       ARGOProfile.data_quality_score := score;
       ARGOProfile.summary_text := summary_text;
       ARGOProfile.vector_embedding := None;
       ARGOProfile.file_source := file_path;
       ARGOProfile.processing_metadata :=
         {| ARGOProfile.processed_at := processed_at;
            ARGOProfile.total_levels := total_levels;
            ARGOProfile.valid_levels := length valid |} |}.
End Decoder.

(** The two results the file loop carries: [float_data] and [profile_data]
    ([None] is the empty dictionary). *)
Definition decoded : Type := list ARGOFloat.t * option ARGOProfile.t.

Section ProcessFile.
Context `{Library}.
Variables (now : clock) (file_path platform_number : string).

(** One iteration of [for cycle_idx in range(len(ds.N_PROF.values))]. *)
Definition process_profile (st : decoded) (cycle_idx : nat)
  (slot : profile_slot) : outcome decoded :=
  let cycle_number := CYCLE_NUMBER slot in
  let profile_lat := LATITUDE slot in
  let profile_lon := LONGITUDE slot in
  let profile_time :=
    match JULD slot with
    | Some t => t
    | None => now cycle_idx AtProfileTime
    end in
  let ocean_region := determine_ocean_region profile_lat profile_lon in
  let temps := TEMP slot in
  acc <- level_loop file_path platform_number cycle_number profile_lat
           profile_lon profile_time ocean_region (PSAL slot) (PRES slot)
           temps 0 empty_levels ;;
  let float_data := (st.1 ++ valid_measurements acc)%list in
  match valid_measurements acc with
  | [] => Return (float_data, st.2)
  | _ :: _ =>
      profile_data <- make_profile file_path platform_number cycle_number
                        profile_lat profile_lon profile_time ocean_region
                        (length temps) (now cycle_idx AtProcessedAt) acc ;;
      Return (float_data, Some profile_data)
  end.

Fixpoint profile_loop (slots : list profile_slot) (cycle_idx : nat)
  (st : decoded) : outcome decoded :=
  match slots with
  | [] => Return st
  | slot :: rest =>
      st' <- process_profile st cycle_idx slot ;;
      profile_loop rest (S cycle_idx) st'
  end.
End ProcessFile.

Definition count_profiles (profile_data : option ARGOProfile.t) : nat :=
  match profile_data with Some _ => 1 | None => 0 end.

(** [process_netcdf_file]: the decoded pair and the lines it logs.  Whatever
    is raised inside is caught and the result is [([], {})]. *)
Definition process_netcdf_file `{Library}
  (open_dataset : string -> outcome dataset) (now : clock)
  (file_path : string) : decoded * list log_record :=
  try_except
    (ds <- open_dataset file_path ;;
     st <- profile_loop now file_path (attr_platform_number ds) (N_PROF ds)
             0%nat ([], None) ;;
     Return (st, [INFO (ProcessingFile file_path);
                  INFO (Extracted (length st.1) (count_profiles st.2))]))
    (fun e => (([], None), [INFO (ProcessingFile file_path);
                            ERROR (ErrorProcessingFile file_path e)])).

(* ===================================================================== *)
(** ** The processor object and the relational store *)
(* ===================================================================== *)

(** The fields of [ARGODataProcessor].  [engine] and [Session] record
    whether the attribute is set; [vectorizer] is [None] while the object
    has no [vocabulary_]. *)
Record processor : Type := {
  engine : bool;
  Session : bool;
  vectorizer : option vocabulary;
  vector_store : dict Entry.t
}.

(** [ARGODataProcessor()]. *)
Definition new_processor : processor :=
  {| engine := false; Session := false; vectorizer := None;
     vector_store := [] |}.

(** The two tables, rows by primary key. *)
Record database : Type := {
  argo_floats : gmap string ARGOFloat.t;
  argo_profiles : gmap string ARGOProfile.t
}.

Definition row_count (db : database) : nat * nat :=
  (size (argo_floats db), size (argo_profiles db)).

(** What [initialize_database] meets: success, [create_engine] raising
    (nothing gets assigned), or a later statement raising (both attributes
    are already assigned). *)
Inductive init_outcome : Type :=
  | InitOk
  | InitEngineFails (e : exn)
  | InitConnectFails (e : exn).

Definition initialize_database (io : init_outcome) (self : processor)
  : bool * processor * list log_record :=
  match io with
  | InitOk =>
      (true,
       {| engine := true; Session := true; vectorizer := vectorizer self;
          vector_store := vector_store self |},
       [INFO DatabaseInitialized])
  | InitEngineFails e => (false, self, [ERROR (DatabaseInitFailed e)])
  | InitConnectFails e =>
      (false,
       {| engine := true; Session := true; vectorizer := vectorizer self;
          vector_store := vector_store self |},
       [ERROR (DatabaseInitFailed e)])
  end.

(** [session.merge] of every measurement, in order. *)
Definition merge_floats (float_data : list ARGOFloat.t)
  (table : gmap string ARGOFloat.t) : gmap string ARGOFloat.t :=
  fold_left (fun t m => <[ARGOFloat.id m := m]> t) float_data table.

Definition merge_profile (profile_data : option ARGOProfile.t)
  (table : gmap string ARGOProfile.t) : gmap string ARGOProfile.t :=
  match profile_data with
  | Some p => <[ARGOProfile.id p := p]> table
  | None => table
  end.

(** [store_to_postgresql].  [session_fault] is the exception, if any, that
    the session raises between the first merge and the commit; the handler
    rolls back, so the tables are then as before, and re-raises. *)
Definition store_to_postgresql (io : init_outcome) (session_fault : option exn)
  (self : processor) (db : database) (float_data : list ARGOFloat.t)
  (profile_data : option ARGOProfile.t)
  : outcome unit * processor * database * list log_record :=
  let '(self, log_init) :=
    if engine self then (self, [])
    else let '(_, self', l) := initialize_database io self in (self', l) in
  if negb (Session self) then (Raise RuntimeError, self, db, log_init)
  else
    match session_fault with
    | None =>
        (Return (),
         self,
         {| argo_floats := merge_floats float_data (argo_floats db);
            argo_profiles := merge_profile profile_data (argo_profiles db) |},
         log_init ++ [INFO (Stored (length float_data)
                              (count_profiles profile_data))])%list
    | Some e => (Raise e, self, db, (log_init ++ [ERROR (ErrorStoring e)])%list)
    end.

(* ===================================================================== *)
(** ** The embedding index *)
(* ===================================================================== *)

(** Sorted insertion without repetition, for [sorted(set(tokens))]. *)
Fixpoint insert_term (t : string) (l : list string) : list string :=
  match l with
  | [] => [t]
  | u :: rest =>
      if decide (t = u) then l
      else if String.ltb t u then t :: l
      else u :: insert_term t rest
  end.

Definition sorted_terms (tokens : list string) : list string :=
  foldr insert_term [] tokens.

Definition count_term (tokens : list string) (term : string) : nat :=
  length (filter (fun t => t = term) tokens).

Definition max_features : nat := 1000.

Section Embedding.
Context `{Library}.

(** [self.vectorizer.fit([text])]: the vocabulary of the one document,
    [ValueError] when the analyzer leaves no term. *)
Definition fit (text : string) : outcome vocabulary :=
  let tokens := analyze text in
  let terms := sorted_terms tokens in
  match terms with
  | [] => Raise ValueError
  | _ :: _ =>
      if decide (length terms <= max_features)%nat then Return terms
      else Return (top_features max_features
                     (map (fun t => (t, count_term tokens t)) terms))
  end.

(** Row normalisation to unit Euclidean length; a zero row stays. *)
Definition l2_normalize (row : list float) : list float :=
  let sumsq :=
    fold_left (fun acc x => fadd acc (fmul x x)) row (S754_zero false) in
  if feq sumsq (S754_zero false) then row
  else map (fun x => fdiv x (fsqrt sumsq)) row.

(** [self.vectorizer.transform([text]).toarray()[0]]: one count per
    vocabulary term, weighted by idf 1, normalised. *)
Definition transform (vocab : vocabulary) (text : string) : list float :=
  let tokens := analyze text in
  l2_normalize
    (map (fun term =>
            fmul (float_of_int (Z.of_nat (count_term tokens term)))
              (float_of_int 1))
       vocab).

(** [create_vector_embedding]: the vector, the vectorizer afterwards and
    the log lines. *)
Definition create_vector_embedding (vz : option vocabulary) (text : string)
  : list float * option vocabulary * list log_record :=
  let fitted :=
    match vz with
    | None => fit text
    | Some vocab => Return vocab
    end in
  match fitted with
  | Return vocab => (transform vocab text, Some vocab, [])
  | Raise e => (np_zeros 1000, vz, [WARNING (EmbeddingFallback e)])
  end.

Definition set_vector_embedding (p : ARGOProfile.t) (v : list float)
  : ARGOProfile.t :=
  {| ARGOProfile.id := ARGOProfile.id p;
     ARGOProfile.platform_number := ARGOProfile.platform_number p;
     ARGOProfile.cycle_number := ARGOProfile.cycle_number p;
     ARGOProfile.profile_date := ARGOProfile.profile_date p;
     ARGOProfile.latitude := ARGOProfile.latitude p;
     ARGOProfile.longitude := ARGOProfile.longitude p;
     ARGOProfile.max_depth := ARGOProfile.max_depth p;
     ARGOProfile.num_measurements := ARGOProfile.num_measurements p;
     ARGOProfile.temperature_range := ARGOProfile.temperature_range p;
     ARGOProfile.salinity_range := ARGOProfile.salinity_range p;
     ARGOProfile.pressure_range := ARGOProfile.pressure_range p;
     ARGOProfile.ocean_region := ARGOProfile.ocean_region p;
     ARGOProfile.data_quality_score := ARGOProfile.data_quality_score p;
     ARGOProfile.summary_text := ARGOProfile.summary_text p;
     ARGOProfile.vector_embedding := Some v;
     ARGOProfile.file_source := ARGOProfile.file_source p;
     ARGOProfile.processing_metadata := ARGOProfile.processing_metadata p |}.

Definition make_entry (p : ARGOProfile.t) (v : list float) : Entry.t :=
  {| Entry.vector := v;
     Entry.metadata :=
       {| Entry.platform_number := ARGOProfile.platform_number p;
          Entry.ocean_region := ARGOProfile.ocean_region p;
          Entry.latitude := ARGOProfile.latitude p;
          Entry.longitude := ARGOProfile.longitude p;
          Entry.profile_date := ARGOProfile.profile_date p;
          Entry.temperature_range := ARGOProfile.temperature_range p;
          Entry.salinity_range := ARGOProfile.salinity_range p |};
     Entry.text := ARGOProfile.summary_text p |}.

(** [store_to_vector_database].  [entry_fault] is the exception, if any,
    raised inside the [try] while the entry is being built, after the
    embedding and before the assignment to the store; the handler logs it
    and the method returns normally.  The result carries the profile
    dictionary as the method leaves it. *)
Definition store_to_vector_database (entry_fault : option exn)
  (self : processor) (profile_data : option ARGOProfile.t)
  : option ARGOProfile.t * processor * list log_record :=
  match profile_data with
  | None => (None, self, [])
  | Some p =>
      let '(vector, vz, log_embed) :=
        create_vector_embedding (vectorizer self) (ARGOProfile.summary_text p) in
      match entry_fault with
      | Some e =>
          (Some p,
           {| engine := engine self; Session := Session self;
              vectorizer := vz; vector_store := vector_store self |},
           (log_embed ++ [ERROR (ErrorEmbedding e)])%list)
      | None =>
          (Some (set_vector_embedding p vector),
           {| engine := engine self; Session := Session self;
              vectorizer := vz;
              vector_store :=
                dict_set (ARGOProfile.id p) (make_entry p vector)
                  (vector_store self) |},
           (log_embed ++ [INFO (CreatedEmbedding (ARGOProfile.id p))])%list)
      end
  end.

(** One element of the list [search_similar_profiles] returns. *)
Record hit : Type := {
  profile_id : string;
  similarity : float;
  hit_metadata : Entry.metadata_t;
  hit_text : string
}.

(** [cosine_similarity([x], [y])[0][0]]: scikit-learn validates both rows
    (finite values, at least one feature, equal numbers of features) and
    raises [ValueError] otherwise. *)
Definition cosine_similarity (x y : list float) : outcome float :=
  if negb (forallb isfinite x && forallb isfinite y) then Raise ValueError
  else if decide (length x = 0 \/ length y = 0)%nat then Raise ValueError
  else if decide (length x = length y) then Return (cosine_kernel x y)
  else Raise ValueError.

(** The loop over [self.vector_store.items()]. *)
Fixpoint score_all (query_vector : list float) (items : dict Entry.t)
  (similarities : list hit) : outcome (list hit) :=
  match items with
  | [] => Return similarities
  | (id, data) :: rest =>
      s <- cosine_similarity query_vector (Entry.vector data) ;;
      score_all query_vector rest
        (similarities ++ [{| profile_id := id; similarity := s;
                             hit_metadata := Entry.metadata data;
                             hit_text := Entry.text data |}])%list
  end.

(** [list.sort(key=similarity, reverse=True)] is stable; on keys without
    NaN every stable sort yields this list: an element goes in front of
    the first one that is not strictly greater. *)
Fixpoint insert_desc (x : hit) (l : list hit) : list hit :=
  match l with
  | [] => [x]
  | y :: rest =>
      if (similarity x <? similarity y)%flt then y :: insert_desc x rest
      else x :: l
  end.

Definition sort_desc (l : list hit) : list hit := foldr insert_desc [] l.

(** [l[:k]] for an integer [k] of either sign. *)
Definition slice_to {A} (l : list A) (k : Z) : list A :=
  if (0 <=? k)%Z then take (Z.to_nat k) l
  else take (length l - Z.to_nat (- k)) l.

Definition search_similar_profiles (self : processor) (query_text : string)
  (top_k : Z) : list hit * processor * list log_record :=
  match vector_store self with
  | [] => ([], self, [])
  | _ :: _ =>
      let '(query_vector, vz, log_embed) :=
        create_vector_embedding (vectorizer self) query_text in
      let self' :=
        {| engine := engine self; Session := Session self;
           vectorizer := vz; vector_store := vector_store self |} in
      match score_all query_vector (vector_store self) [] with
      | Return similarities =>
          (slice_to (sort_desc similarities) top_k, self', log_embed)
      | Raise e => ([], self', (log_embed ++ [ERROR (ErrorSearching e)])%list)
      end
  end.
End Embedding.

(* ===================================================================== *)
(** ** Persistence of the index *)
(* ===================================================================== *)

Section Persistence.
Context `{Library}.

(** What writing the file meets: success, [open] raising (the file is
    untouched), or [pickle.dump] raising after the file was truncated. *)
Inductive write_outcome : Type :=
  | WriteOk
  | OpenFails (e : exn)
  | DumpFails (e : exn) (partial : blob).

Definition save_vector_store (wo : write_outcome) (self : processor)
  (file_path : string) (files : gmap string blob)
  : gmap string blob * list log_record :=
  match wo with
  | WriteOk =>
      (<[file_path :=
           pickle_dumps {| saved_vector_store := vector_store self;
                           saved_vectorizer := vectorizer self |}]> files,
       [INFO (VectorStoreSaved file_path)])
  | OpenFails e => (files, [ERROR (ErrorSaving e)])
  | DumpFails e partial =>
      (<[file_path := partial]> files, [ERROR (ErrorSaving e)])
  end.

Definition load_vector_store (self : processor) (file_path : string)
  (files : gmap string blob) : bool * processor * list log_record :=
  match files !! file_path with
  | Some b =>
      match pickle_loads b with
      | Return data =>
          (true,
           {| engine := engine self; Session := Session self;
              vectorizer := saved_vectorizer data;
              vector_store := saved_vector_store data |},
           [INFO (VectorStoreLoaded file_path)])
      | Raise e =>
          (false,
           match unpickled_vector_store b with
           | Some table =>
               {| engine := engine self; Session := Session self;
                  vectorizer := vectorizer self; vector_store := table |}
           | None => self
           end,
           [ERROR (ErrorLoading e)])
      end
  | None => (false, self, [])
  end.
End Persistence.

(* ===================================================================== *)
(** ** Directory orchestration *)
(* ===================================================================== *)

(** What the run meets outside the program: the file system, the clock and
    the faults of the store and of the index, per file. *)
Record environment : Type := {
  path_exists : string -> bool;
  glob_nc : string -> list string;
  open_dataset : string -> outcome dataset;
  wall_clock : string -> clock;
  db_init : string -> init_outcome;
  session_fault : string -> option exn;
  entry_fault : string -> option exn
}.

(** The processor, the store behind it and the log. *)
Record state : Type := {
  self : processor;
  db : database;
  logs : list log_record
}.

Definition log (l : list log_record) (st : state) : state :=
  {| self := self st; db := db st; logs := (logs st ++ l)%list |}.

(** [Path(p).name] for a path as [glob] yields it: what follows the last
    ["/"], the whole string when there is none. *)
Fixpoint name_after (s cur : string) : string :=
  match s with
  | EmptyString => cur
  | String c rest =>
      if Ascii.eqb c "/" then name_after rest EmptyString
      else name_after rest (cur +:+ String c EmptyString)
  end.

Definition path_name (path : string) : string := name_after path EmptyString.

Section Pipeline.
Context `{Library}.
Variable env : environment.

(** The statements inside the [try] of the file loop. *)
Definition process_file_body (st : state) (nc_file : string)
  : outcome unit * state :=
  let '((float_data, profile_data), log_decode) :=
    process_netcdf_file (open_dataset env) (wall_clock env nc_file) nc_file in
  let st := log log_decode st in
  match float_data with
  | [] => (Return (), log [INFO (ProcessedFile (path_name nc_file))] st)
  | _ :: _ =>
      let '(r, self1, db1, log_store) :=
        store_to_postgresql (db_init env nc_file) (session_fault env nc_file)
          (self st) (db st) float_data profile_data in
      let st1 := {| self := self1; db := db1;
                    logs := (logs st ++ log_store)%list |} in
      match r with
      | Raise e => (Raise e, st1)
      | Return _ =>
          match profile_data with
          | None =>
              (Return (), log [INFO (ProcessedFile (path_name nc_file))] st1)
          | Some _ =>
              let '(_, self2, log_index) :=
                store_to_vector_database (entry_fault env nc_file) self1
                  profile_data in
              (Return (),
               log [INFO (ProcessedFile (path_name nc_file))]
                 {| self := self2; db := db1;
                    logs := (logs st1 ++ log_index)%list |})
          end
      end
  end.

(** One iteration of the file loop: the [try] with its handler. *)
Definition process_file (st : state) (nc_file : string)
  : outcome unit * state :=
  match process_file_body st nc_file with
  | (Return _, st') => (Return (), st')
  | (Raise e, st') =>
      (Return (), log [ERROR (FailedFile (path_name nc_file) e)] st')
  end.

(** A [for] loop whose body may raise: the first exception ends it. *)
Fixpoint for_each (body : state -> string -> outcome unit * state)
  (items : list string) (st : state) : outcome unit * state :=
  match items with
  | [] => (Return (), st)
  | item :: rest =>
      match body st item with
      | (Return _, st') => for_each body rest st'
      | (Raise e, st') => (Raise e, st')
      end
  end.

Definition process_directory (directory_path : string) (st : state)
  : outcome unit * state :=
  if negb (path_exists env directory_path)
  then (Return (), log [ERROR (DirectoryMissing directory_path)] st)
  else
    let nc_files := glob_nc env directory_path in
    for_each process_file nc_files
      (log [INFO (FoundFiles (length nc_files))] st).
End Pipeline.

(* ===================================================================== *)
(** ** Filtered query *)
(* ===================================================================== *)

Module Row.
(** One dictionary of the ['data'] list. *)
Record t : Type := {
  time : timestamp;
  latitude : float;
  longitude : float;
  temperature : float;
  salinity : float;
  depth : float;
  platform_number : string;
  ocean_region : string
}.
End Row.

Inductive query_response : Type :=
  | Success (count : nat) (data : list Row.t)
  | Failure (error : exn).

(** The conditions [query.filter] accumulates. *)
Inductive criterion : Type :=
  | RegionIs (region : string)
  | TimeGe (literal : string)
  | TimeLe (literal : string)
  | TemperatureGe (bound : float)
  | TemperatureLe (bound : float)
  | SalinityGe (bound : float)
  | SalinityLe (bound : float).

(** The store's order on double precision columns: NaN equals NaN and is
    above every other value. *)
Definition pg_le (x y : float) : bool :=
  if isnan y then true else if isnan x then false else (x <=? y)%flt.

(** Python truth of an optional string and of an optional sequence. *)
Definition nonempty_string (s : option string) : option string :=
  match s with
  | Some EmptyString | None => None
  | Some v => Some v
  end.

Definition nonempty_list {A} (l : option (list A)) : option (list A) :=
  match l with
  | Some [] | None => None
  | Some v => Some v
  end.

Definition to_row (r : ARGOFloat.t) : Row.t :=
  {| Row.time := ARGOFloat.measurement_time r;
     Row.latitude := ARGOFloat.latitude r;
     Row.longitude := ARGOFloat.longitude r;
     Row.temperature := ARGOFloat.temperature r;
     Row.salinity := ARGOFloat.salinity r;
     Row.depth := ARGOFloat.depth r;
     Row.platform_number := ARGOFloat.platform_number r;
     Row.ocean_region := ARGOFloat.ocean_region r |}.

Section Query.
Context `{Library}.

(** The five [if ...: query = query.filter(...)] statements. *)
Definition build_query (region start_date end_date : option string)
  (temperature_range salinity_range : option (list float))
  : outcome (list criterion) :=
  let q0 :=
    match nonempty_string region with
    | Some r => if decide (r = "Unknown") then [] else [RegionIs r]
    | None => []
    end in
  let q1 :=
    match nonempty_string start_date with
    | Some d => (q0 ++ [TimeGe d])%list
    | None => q0
    end in
  let q2 :=
    match nonempty_string end_date with
    | Some d => (q1 ++ [TimeLe d])%list
    | None => q1
    end in
  q3 <- match nonempty_list temperature_range with
        | Some l =>
            lo <- getitem l 0 ;;
            hi <- getitem l 1 ;;
            Return (q2 ++ [TemperatureGe lo; TemperatureLe hi])%list
        | None => Return q2
        end ;;
  match nonempty_list salinity_range with
  | Some l =>
      lo <- getitem l 0 ;;
      hi <- getitem l 1 ;;
      Return (q3 ++ [SalinityGe lo; SalinityLe hi])%list
  | None => Return q3
  end.

(** The store's evaluation of one condition; a date literal it cannot
    read fails the statement. *)
Definition compile (c : criterion) : outcome (ARGOFloat.t -> bool) :=
  match c with
  | RegionIs region =>
      Return (fun r => bool_decide (ARGOFloat.ocean_region r = region))
  | TimeGe literal =>
      match parse_timestamp literal with
      | Some t => Return (fun r => (t <=? ARGOFloat.measurement_time r)%Z)
      | None => Raise DatabaseError
      end
  | TimeLe literal =>
      match parse_timestamp literal with
      | Some t => Return (fun r => (ARGOFloat.measurement_time r <=? t)%Z)
      | None => Raise DatabaseError
      end
  | TemperatureGe bound => Return (fun r => pg_le bound (ARGOFloat.temperature r))
  | TemperatureLe bound => Return (fun r => pg_le (ARGOFloat.temperature r) bound)
  | SalinityGe bound => Return (fun r => pg_le bound (ARGOFloat.salinity r))
  | SalinityLe bound => Return (fun r => pg_le (ARGOFloat.salinity r) bound)
  end.

Fixpoint compile_all (q : list criterion)
  : outcome (list (ARGOFloat.t -> bool)) :=
  match q with
  | [] => Return []
  | c :: rest =>
      f <- compile c ;;
      fs <- compile_all rest ;;
      Return (f :: fs)
  end.

(** [query.limit(1000).all()] over the rows of [argo_floats] in the order
    the store scans them. *)
Definition limit_all (fault : option exn) (table : list ARGOFloat.t)
  (q : list criterion) : outcome (list ARGOFloat.t) :=
  match fault with
  | Some e => Raise e
  | None =>
      conditions <- compile_all q ;;
      Return (take 1000
                (List.filter (fun r => forallb (fun f => f r) conditions)
                   table))
  end.

(** [query_argo_data]: a fresh processor, then the query inside the
    [try]; only the missing session escapes as an exception. *)
Definition query_argo_data (io : init_outcome) (fault : option exn)
  (table : list ARGOFloat.t) (region start_date end_date : option string)
  (temperature_range salinity_range : option (list float))
  : outcome query_response * list log_record :=
  let '(_, processor, log_init) := initialize_database io new_processor in
  if negb (Session processor) then (Raise RuntimeError, log_init)
  else
    match (q <- build_query region start_date end_date temperature_range
                  salinity_range ;;
           limit_all fault table q) with
    | Return results =>
        let data := map to_row results in
        (Return (Success (length data) data), log_init)
    | Raise e =>
        (Return (Failure e), (log_init ++ [ERROR (ErrorQuerying e)])%list)
    end.
End Query.

(* ===================================================================== *)
(** ** Notions the statements use *)
(* ===================================================================== *)

(** A depth level counts when none of its three readings is NaN. *)
Definition readings_valid (temp sal pressure : float) : bool :=
  negb (isnan temp) && negb (isnan sal) && negb (isnan pressure).

(** The number K of levels of a profile with three valid readings. *)
Fixpoint valid_level_count (temps sals pres : list float) : nat :=
  match temps, sals, pres with
  | t :: temps', s :: sals', p :: pres' =>
      (if readings_valid t s p then 1 else 0) + valid_level_count temps' sals' pres'
  | _, _, _ => 0
  end.

Definition valid_levels_of (slot : profile_slot) : nat :=
  valid_level_count (TEMP slot) (PSAL slot) (PRES slot).

(** The three rows of a profile have the same number N of levels. *)
Definition well_shaped (slot : profile_slot) : Prop :=
  length (PSAL slot) = length (TEMP slot)
  /\ length (PRES slot) = length (TEMP slot).

(** The four lists of the level loop grow together. *)
Definition balanced (acc : level_acc) : Prop :=
  length (temp_list acc) = length (valid_measurements acc)
  /\ length (sal_list acc) = length (valid_measurements acc)
  /\ length (pres_list acc) = length (valid_measurements acc).

(** The quality score the claim names: K / N. *)
Definition quality (k n : nat) : float :=
  fdiv (float_of_int (Z.of_nat k)) (float_of_int (Z.of_nat n)).

(** What one profile index yields on its own: the loop body run on empty
    results. *)
Definition slot_contribution `{Library} (now : clock)
  (file_path platform_number : string) (cycle_idx : nat) (slot : profile_slot)
  : outcome decoded :=
  process_profile now file_path platform_number ([], None) cycle_idx slot.

(** The contributions of the profile indices of a file, from [cycle_idx]
    on. *)
Fixpoint contributions `{Library} (now : clock)
  (file_path platform_number : string) (slots : list profile_slot)
  (cycle_idx : nat) : list (outcome decoded) :=
  match slots with
  | [] => []
  | slot :: rest =>
      slot_contribution now file_path platform_number cycle_idx slot
      :: contributions now file_path platform_number rest (S cycle_idx)
  end.

(** A later summary replaces the one held so far. *)
Definition overwrite (held new : option ARGOProfile.t) : option ARGOProfile.t :=
  match new with Some p => Some p | None => held end.

(** Two runs end the same way, with results related by [R]. *)
Definition same_outcome {A} (R : A -> A -> Prop) (x y : outcome A) : Prop :=
  match x, y with
  | Return a, Return b => R a b
  | Raise _, Raise _ => True
  | _, _ => False
  end.

Definition same_keys_acc (a b : level_acc) : Prop :=
  map ARGOFloat.id (valid_measurements a) = map ARGOFloat.id (valid_measurements b)
  /\ temp_list a = temp_list b
  /\ sal_list a = sal_list b
  /\ pres_list a = pres_list b.

(** The primary keys of a decoded pair. *)
Definition decoded_keys (r : decoded) : list string * option string :=
  (map ARGOFloat.id r.1, ARGOProfile.id <$> r.2).

(** Successive calls of [create_vector_embedding] on one processor: the
    vectors in call order and the vectorizer at the end. *)
Fixpoint embed_each `{Library} (vz : option vocabulary) (texts : list string)
  : list (list float) * option vocabulary :=
  match texts with
  | [] => ([], vz)
  | text :: rest =>
      let '(vector, vz', _) := create_vector_embedding vz text in
      let '(vectors, vz'') := embed_each vz' rest in
      (vector :: vectors, vz'')
  end.

(** The two zeros compare equal; apart from that, doubles that compare
    equal are the same. *)
Definition same_value_class (x : float) : float :=
  match x with S754_zero _ => S754_zero false | _ => x end.

(** [a] may stand before [b] in a ranking by non-increasing similarity. *)
Definition non_increasing (a b : hit) : Prop :=
  fle (similarity b) (similarity a) = true.

(** The stored vectors can be compared with the query vector: all rows are
    finite, of the query's non-zero dimension, and the similarity is a
    number. *)
Definition comparable `{Library} (query_vector : list float)
  (store : dict Entry.t) : Prop :=
  query_vector <> []
  /\ forallb isfinite query_vector = true
  /\ Forall (fun item : string * Entry.t =>
               length (Entry.vector item.2) = length query_vector
               /\ forallb isfinite (Entry.vector item.2) = true
               /\ isnan (cosine_kernel query_vector (Entry.vector item.2))
                  = false)
       store.

(** The hit of a stored item. *)
Definition hit_for `{Library} (query_vector : list float)
  (item : string * Entry.t) (h : hit) : Prop :=
  profile_id h = item.1
  /\ cosine_similarity query_vector (Entry.vector item.2)
     = Return (similarity h)
  /\ hit_metadata h = Entry.metadata item.2
  /\ hit_text h = Entry.text item.2.

(** The hits whose similarity equals [c]. *)
Definition ties (c : float) (l : list hit) : list hit :=
  List.filter (fun h => feq (similarity h) c) l.

(** A returned row meets a region, a time bound, a value range. *)
Definition in_range (lo hi x : float) : Prop :=
  pg_le lo x = true /\ pg_le x hi = true.

(* ===================================================================== *)
(** ** A concrete library, to run the model on examples *)
(* ===================================================================== *)

(** The default token pattern on ASCII text: lower-cased maximal runs of
    letters, digits and underscores, at least two characters long; every
    other byte separates. *)
Definition is_word_char (c : ascii) : bool :=
  let n := nat_of_ascii c in
  ((48 <=? n) && (n <=? 57) || (65 <=? n) && (n <=? 90) || (n =? 95)
   || (97 <=? n) && (n <=? 122))%nat.

Definition lower (c : ascii) : ascii :=
  let n := nat_of_ascii c in
  if ((65 <=? n) && (n <=? 90))%nat then ascii_of_nat (n + 32) else c.

Definition flush_token (cur : string) : list string :=
  if (2 <=? String.length cur)%nat then [cur] else [].

Fixpoint split_tokens (s cur : string) : list string :=
  match s with
  | EmptyString => flush_token cur
  | String c rest =>
      if is_word_char c then split_tokens rest (cur +:+ String (lower c) EmptyString)
      else (flush_token cur ++ split_tokens rest EmptyString)%list
  end.

(** A few members of the English stop list. *)
Definition some_stop_words : list string :=
  ["the"; "and"; "of"; "in"; "at"; "with"; "to"; "is"; "an"].

Definition ascii_analyze (text : string) : list string :=
  List.filter (fun t => negb (bool_decide (t ∈ some_stop_words)))
    (split_tokens text EmptyString).

(** Mean by a left-to-right sum. *)
Definition mean_left_to_right (l : list float) : float :=
  fdiv (fold_left fadd l (S754_zero false))
    (float_of_int (Z.of_nat (length l))).

(** Dot product of the two normalised rows, summed left to right. *)
Definition dot_kernel (x y : list float) : float :=
  fold_left fadd (zip_with fmul (l2_normalize x) (l2_normalize y))
    (S754_zero false).

(** The most frequent terms first, earlier terms first among equals. *)
Fixpoint insert_by_count (x : string * nat) (l : list (string * nat))
  : list (string * nat) :=
  match l with
  | [] => [x]
  | y :: rest =>
      if (x.2 <? y.2)%nat then y :: insert_by_count x rest else x :: l
  end.

Definition most_frequent (n : nat) (counts : list (string * nat)) : list string :=
  sorted_terms (map fst (take n (foldr insert_by_count [] counts))).

(** A date literal made of digits ([YYYYMMDD]), read as that number. *)
Fixpoint digits_value (s : string) (acc : Z) : option Z :=
  match s with
  | EmptyString => Some acc
  | String c rest =>
      let n := nat_of_ascii c in
      if ((48 <=? n) && (n <=? 57))%nat
      then digits_value rest (10 * acc + Z.of_nat (n - 48))
      else None
  end.

Definition digits_timestamp (s : string) : option timestamp :=
  match s with
  | EmptyString => None
  | _ => digits_value s 0
  end.

Definition example_library : Library :=
  {| np_mean := mean_left_to_right;
     analyze := ascii_analyze;
     top_features := most_frequent;
     cosine_kernel := dot_kernel;
     blob := pickled;
     pickle_dumps := fun x => x;
     pickle_loads := fun b => Return b;
     unpickled_vector_store := fun _ => None;
     parse_timestamp := digits_timestamp |}.

(* ===================================================================== *)
(** ** Example data *)
(* ===================================================================== *)

(** A profile at 45 N, 100 W with three levels, the second without a
    temperature. *)
Definition example_slot : profile_slot :=
  {| CYCLE_NUMBER := 7;
     LATITUDE := float_of_int 45;
     LONGITUDE := float_of_int (-100);
     JULD := None;
     TEMP := [float_of_int 10; S754_nan; float_of_int 12];
     PSAL := [float_of_int 35; float_of_int 35; float_of_int 36];
     PRES := [float_of_int 5; float_of_int 10; float_of_int 20] |}.

(** A later cycle with two valid levels, and one without any. *)
Definition example_slot_late : profile_slot :=
  {| CYCLE_NUMBER := 8;
     LATITUDE := float_of_int 46;
     LONGITUDE := float_of_int (-101);
     JULD := Some 27000;
     TEMP := [float_of_int 9; float_of_int 8];
     PSAL := [float_of_int 35; float_of_int 35];
     PRES := [float_of_int 5; float_of_int 10] |}.

Definition example_slot_blank : profile_slot :=
  {| CYCLE_NUMBER := 9;
     LATITUDE := float_of_int 46;
     LONGITUDE := float_of_int (-102);
     JULD := Some 27010;
     TEMP := [S754_nan; S754_nan];
     PSAL := [float_of_int 35; float_of_int 35];
     PRES := [float_of_int 5; float_of_int 10] |}.

Definition example_dataset : dataset :=
  {| attr_platform_number := "test_1000"; N_PROF := [example_slot] |}.

Definition example_dataset_cycles : dataset :=
  {| attr_platform_number := "test_1001";
     N_PROF := [example_slot; example_slot_late; example_slot_blank] |}.

(** A directory with one single-profile file, one file of three cycles and
    one file that cannot be opened. *)
Definition example_open (file_path : string) : outcome dataset :=
  if decide (file_path = "data/a.nc") then Return example_dataset
  else if decide (file_path = "data/b.nc") then Return example_dataset_cycles
  else Raise OSError.

Definition example_clock : clock := fun cycle_idx _ => 27375 + Z.of_nat cycle_idx.
Definition later_clock : clock := fun cycle_idx _ => 27400 + Z.of_nat cycle_idx.

Definition empty_database : database :=
  {| argo_floats := ∅; argo_profiles := ∅ |}.

Definition initial_state : state :=
  {| self := new_processor; db := empty_database; logs := [] |}.

(** A run in which nothing outside the program fails but the file
    ["data/c.nc"], and a run in which, besides, building the index entry of
    ["data/a.nc"] raises. *)
Definition example_env : environment :=
  {| path_exists := fun path => bool_decide (path = "data");
     glob_nc := fun _ => ["data/a.nc"; "data/c.nc"; "data/b.nc"];
     open_dataset := example_open;
     wall_clock := fun _ => example_clock;
     db_init := fun _ => InitOk;
     session_fault := fun _ => None;
     entry_fault := fun _ => None |}.

Definition entry_fault_env : environment :=
  {| path_exists := fun path => bool_decide (path = "data");
     glob_nc := fun _ => ["data/a.nc"];
     open_dataset := example_open;
     wall_clock := fun _ => example_clock;
     db_init := fun _ => InitOk;
     session_fault := fun _ => None;
     entry_fault := fun _ => Some ValueError |}.

(** A profile dictionary with a given key and summary text. *)
Definition profile_with (id summary_text : string) : ARGOProfile.t :=
  let zero := S754_zero false in
  let range := {| ARGOProfile.min := zero; ARGOProfile.max := zero;
                  ARGOProfile.mean := zero |} in
  {| ARGOProfile.id := id;
     ARGOProfile.platform_number := "test_1000";
     ARGOProfile.cycle_number := 1;
     ARGOProfile.profile_date := 27375;
     ARGOProfile.latitude := float_of_int 45;
     ARGOProfile.longitude := float_of_int (-100);
     ARGOProfile.max_depth := zero;
     ARGOProfile.num_measurements := 1;
     ARGOProfile.temperature_range := range;
     ARGOProfile.salinity_range := range;
     ARGOProfile.pressure_range := range;
     ARGOProfile.ocean_region := "North Atlantic";
     ARGOProfile.data_quality_score := float_of_int 1;
     ARGOProfile.summary_text := summary_text;
     ARGOProfile.vector_embedding := None;
     ARGOProfile.file_source := "data/a.nc";
     ARGOProfile.processing_metadata :=
       {| ARGOProfile.processed_at := 27375; ARGOProfile.total_levels := 1;
          ARGOProfile.valid_levels := 1 |} |}.

(** [store_to_vector_database] on each profile in turn. *)
Definition index_all `{Library} (self : processor)
  (profiles : list ARGOProfile.t) : processor :=
  fold_left (fun s p => (store_to_vector_database None s (Some p)).1.2)
    profiles self.

(** An index of three summaries, the third repeating the first. *)
Definition example_index : processor :=
  @index_all example_library new_processor
    [profile_with "p1" "ocean temperature";
     profile_with "p2" "temperature";
     profile_with "p3" "Ocean temperature"].

(** An index whose only summary holds nothing but a stop word. *)
Definition stop_word_index : processor :=
  @index_all example_library new_processor [profile_with "p1" "the"].

(** Two rows of [argo_floats]. *)
Definition example_row (id region : string) (temperature : Z) : ARGOFloat.t :=
  {| ARGOFloat.id := id;
     ARGOFloat.platform_number := "test_1000";
     ARGOFloat.cycle_number := 1;
     ARGOFloat.latitude := float_of_int 45;
     ARGOFloat.longitude := float_of_int (-100);
     ARGOFloat.measurement_time := 20240115;
     ARGOFloat.temperature := float_of_int temperature;
     ARGOFloat.salinity := float_of_int 35;
     ARGOFloat.pressure := float_of_int 5;
     ARGOFloat.depth := pressure_to_depth (float_of_int 5);
     ARGOFloat.quality_flag := "good";
     ARGOFloat.ocean_region := region;
     ARGOFloat.data_source := "data/a.nc";
     ARGOFloat.metadata :=
       {| ARGOFloat.level_index := 0; ARGOFloat.file_source := "data/a.nc" |} |}.

Definition example_table : list ARGOFloat.t :=
  [example_row "test_1000_1_0" "North Atlantic" 10;
   example_row "test_1000_1_1" "Unknown" 4;
   example_row "test_1000_1_2" "North Atlantic" 25].

(** The file ["data/a.nc"] decoded and stored once, then decoded again
    later and stored on top. *)
Definition stored_once
  : outcome unit * processor * database * list log_record :=
  let r := (@process_netcdf_file example_library example_open example_clock
              "data/a.nc").1 in
  store_to_postgresql InitOk None new_processor empty_database r.1 r.2.

Definition stored_twice
  : outcome unit * processor * database * list log_record :=
  let r := (@process_netcdf_file example_library example_open later_clock
              "data/a.nc").1 in
  store_to_postgresql InitOk None stored_once.1.1.2 stored_once.1.2 r.1 r.2.

(* ===================================================================== *)
(** ** The two entry points that use the index file *)
(* ===================================================================== *)

(** The default of [save_vector_store] and [load_vector_store]. *)
Definition default_vector_store_path : string := "argo_vector_store.pkl".

Inductive search_response : Type :=
  | SearchSuccess (query : string) (results : list hit)
  | SearchFailure (error : exn).

Section EntryPoints.
Context `{Library}.

(** [semantic_search_profiles]: a fresh processor, the index file loaded if
    there is one, the search.  The search catches what it raises, so the
    handler of this function has nothing to catch. *)
Definition semantic_search_profiles (files : gmap string blob)
  (query : string) (top_k : Z) : search_response * list log_record :=
  let '(_, processor, log_load) :=
    load_vector_store new_processor default_vector_store_path files in
  let '(results, _, log_search) :=
    search_similar_profiles processor query top_k in
  (SearchSuccess query results, (log_load ++ log_search)%list).

(** The lines the script logs itself, besides those of the methods. *)
Inductive main_record : Type :=
  | Logged (r : log_record)
  | FailedToInitialize
  | UsageHint.

(** What the script leaves behind: the processor, the tables, the files
    and the log. *)
Record world : Type := {
  final_processor : processor;
  final_db : database;
  final_files : gmap string blob;
  final_log : list main_record
}.

(** The [__main__] block: initialise the database and stop when that fails;
    otherwise process the directory named by the first argument, if any,
    and save the index under the default path. *)
Definition main (io : init_outcome) (env : environment)
  (wo : write_outcome) (argv : list string) (db0 : database)
  (files : gmap string blob) : outcome unit * world :=
  let '(ok, processor, log_init) := initialize_database io new_processor in
  if negb ok then
    (Return (),
     {| final_processor := processor; final_db := db0; final_files := files;
        final_log := (map Logged log_init ++ [FailedToInitialize])%list |})
  else
    let '(r, st) :=
      match argv !! 1%nat with
      | Some directory_path =>
          process_directory env directory_path
            {| self := processor; db := db0; logs := log_init |}
      | None => (Return (), {| self := processor; db := db0; logs := log_init |})
      end in
    let log_run :=
      match argv !! 1%nat with
      | Some _ => map Logged (logs st)
      | None => (map Logged (logs st) ++ [UsageHint])%list
      end in
    match r with
    | Raise e =>
        (Raise e,
         {| final_processor := self st; final_db := db st;
            final_files := files; final_log := log_run |})
    | Return _ =>
        let '(files', log_save) :=
          save_vector_store wo (self st) default_vector_store_path files in
        (Return (),
         {| final_processor := self st; final_db := db st;
            final_files := files';
            final_log := (log_run ++ map Logged log_save)%list |})
    end.
End EntryPoints.

(* ===================================================================== *)
(** ** Further notions the statements use *)
(* ===================================================================== *)

(** A double that is not NaN, placed on a lexicographically ordered
    triple: class, then exponent, then mantissa, the last two mirrored for
    negative values. *)
Definition rank (x : float) : Z * Z * Z :=
  match x with
  | S754_nan => (0, 0, 0)
  | S754_infinity true => (-2, 0, 0)
  | S754_infinity false => (2, 0, 0)
  | S754_zero _ => (0, 0, 0)
  | S754_finite true m e => (-1, - e, - Z.pos m)
  | S754_finite false m e => (1, e, Z.pos m)
  end.

Definition lex_le (a b : Z * Z * Z) : Prop :=
  a.1.1 < b.1.1
  \/ (a.1.1 = b.1.1 /\ (a.1.2 < b.1.2 \/ (a.1.2 = b.1.2 /\ a.2 <= b.2))).

Definition lex_lt (a b : Z * Z * Z) : Prop :=
  a.1.1 < b.1.1
  \/ (a.1.1 = b.1.1 /\ (a.1.2 < b.1.2 \/ (a.1.2 = b.1.2 /\ a.2 < b.2))).

(** The keys of a dictionary, in insertion order. *)
Definition keys {V} (d : dict V) : list string := map fst d.

(** [d.get(k)]. *)
Fixpoint dict_get {V} (k : string) (d : dict V) : option V :=
  match d with
  | [] => None
  | (k', v) :: rest => if decide (k = k') then Some v else dict_get k rest
  end.

(** The last measurement of a list with a given key. *)
Definition last_with_id (id : string) (float_data : list ARGOFloat.t)
  : option ARGOFloat.t :=
  last (filter (fun m => ARGOFloat.id m = id) float_data).

(** The closing line of the file loop for one file. *)
Definition closing_line (r : log_record) : option string :=
  match r with
  | INFO (ProcessedFile f) => Some f
  | ERROR (FailedFile f _) => Some f
  | _ => None
  end.

(** A table row meets the filters that [query_argo_data] applies. *)
Definition meets_filters `{Library} (region start_date end_date : option string)
  (temperature_range salinity_range : option (list float))
  (r : ARGOFloat.t) : Prop :=
  (forall v, nonempty_string region = Some v -> v <> "Unknown" ->
             ARGOFloat.ocean_region r = v)
  /\ (forall d, nonempty_string start_date = Some d ->
        exists t, parse_timestamp d = Some t
                  /\ (t <= ARGOFloat.measurement_time r)%Z)
  /\ (forall d, nonempty_string end_date = Some d ->
        exists t, parse_timestamp d = Some t
                  /\ (ARGOFloat.measurement_time r <= t)%Z)
  /\ (forall l, nonempty_list temperature_range = Some l ->
        exists lo hi, l !! 0%nat = Some lo /\ l !! 1%nat = Some hi
                      /\ in_range lo hi (ARGOFloat.temperature r))
  /\ (forall l, nonempty_list salinity_range = Some l ->
        exists lo hi, l !! 0%nat = Some lo /\ l !! 1%nat = Some hi
                      /\ in_range lo hi (ARGOFloat.salinity r)).

(** A measurement as the level loop builds it for a file. *)
Definition sound_measurement (file_path : string) (m : ARGOFloat.t) : Prop :=
  isnan (ARGOFloat.temperature m) = false
  /\ isnan (ARGOFloat.salinity m) = false
  /\ isnan (ARGOFloat.pressure m) = false
  /\ isnan (ARGOFloat.depth m) = false
  /\ ARGOFloat.quality_flag m = "good"
  /\ ARGOFloat.ocean_region m
     = determine_ocean_region (ARGOFloat.latitude m) (ARGOFloat.longitude m)
  /\ ARGOFloat.data_source m = file_path
  /\ ARGOFloat.file_source (ARGOFloat.metadata m) = file_path.

(** The three reading lists of the level loop are the columns of its
    measurements. *)
Definition aligned (acc : level_acc) : Prop :=
  temp_list acc = map ARGOFloat.temperature (valid_measurements acc)
  /\ sal_list acc = map ARGOFloat.salinity (valid_measurements acc)
  /\ pres_list acc = map ARGOFloat.pressure (valid_measurements acc).

(** [rg] holds the least and the greatest value of [l]. *)
Definition bounds_of (rg : ARGOProfile.range) (l : list float) : Prop :=
  In (ARGOProfile.min rg) l /\ In (ARGOProfile.max rg) l
  /\ Forall (fun x => fle (ARGOProfile.min rg) x = true
                      /\ fle x (ARGOProfile.max rg) = true) l.

(** The key of a measurement. *)
Definition measurement_id (platform_number : string) (cycle_number : Z)
  (level_idx : nat) : string :=
  platform_number +:+ "_" +:+ pretty cycle_number +:+ "_" +:+ pretty level_idx.

(** A string without the separator of the keys. *)
Fixpoint no_underscore (s : string) : bool :=
  match s with
  | EmptyString => true
  | String c rest => negb (Ascii.eqb c "_") && no_underscore rest
  end.

(** Every stored vector has the fallback length or one entry per term of
    the fitted vocabulary. *)
Definition dimensions_known (self : processor) : Prop :=
  Forall (fun item : string * Entry.t =>
            length (Entry.vector item.2) = 1000%nat
            \/ exists vocab, vectorizer self = Some vocab
                             /\ length (Entry.vector item.2) = length vocab)
    (vector_store self).

(** A hit repeats an entry of the store. *)
Definition hit_of_store (store : dict Entry.t) (h : hit) : Prop :=
  exists data, dict_get (profile_id h) store = Some data
               /\ hit_metadata h = Entry.metadata data
               /\ hit_text h = Entry.text data.

(** What a run keeps of the state it starts from: the keys of both tables
    and of the index, and the log as a prefix. *)
Definition extends (st0 st : state) : Prop :=
  dom (argo_floats (db st0)) ⊆ dom (argo_floats (db st))
  /\ dom (argo_profiles (db st0)) ⊆ dom (argo_profiles (db st))
  /\ keys (vector_store (self st0)) ⊆ keys (vector_store (self st))
  /\ exists new, logs st = (logs st0 ++ new)%list.

(** No row of [argo_profiles] carries an embedding, and every key of the
    index is the key of a row of [argo_profiles]. *)
Definition summaries_consistent (st : state) : Prop :=
  map_Forall (fun _ p => ARGOProfile.vector_embedding p = None)
    (argo_profiles (db st))
  /\ forall k, k ∈ keys (vector_store (self st)) ->
               k ∈ dom (argo_profiles (db st)).

(** Two decodings agree on the measurements and on the text of the
    summary. *)
Definition same_rows (a b : decoded) : Prop :=
  a.1 = b.1
  /\ (ARGOProfile.summary_text <$> a.2) = (ARGOProfile.summary_text <$> b.2).

(** A profile whose salinity or pressure row is shorter than its
    temperature row. *)
Definition short_row (slot : profile_slot) : Prop :=
  (length (PSAL slot) < length (TEMP slot))%nat
  \/ (length (PRES slot) < length (TEMP slot))%nat.

(** A file whose second profile has one salinity for two temperatures, and
    a file whose profiles all carry their date. *)
Definition example_slot_ragged : profile_slot :=
  {| CYCLE_NUMBER := 10;
     LATITUDE := float_of_int 46;
     LONGITUDE := float_of_int (-103);
     JULD := Some 27020;
     TEMP := [float_of_int 9; float_of_int 8];
     PSAL := [float_of_int 35];
     PRES := [float_of_int 5; float_of_int 10] |}.

Definition example_dataset_ragged : dataset :=
  {| attr_platform_number := "test_1002";
     N_PROF := [example_slot_late; example_slot_ragged] |}.

Definition example_dataset_dated : dataset :=
  {| attr_platform_number := "test_1003";
     N_PROF := [example_slot_late; example_slot_blank] |}.

(** A file whose profiles all carry their date, decoded and stored once,
    then decoded again later and stored on top. *)
Definition dated_open (file_path : string) : outcome dataset :=
  Return example_dataset_dated.

Definition dated_once
  : outcome unit * processor * database * list log_record :=
  let r := (@process_netcdf_file example_library dated_open example_clock
              "data/e.nc").1 in
  store_to_postgresql InitOk None new_processor empty_database r.1 r.2.

Definition dated_twice
  : outcome unit * processor * database * list log_record :=
  let r := (@process_netcdf_file example_library dated_open later_clock
              "data/e.nc").1 in
  store_to_postgresql InitOk None dated_once.1.1.2 dated_once.1.2 r.1 r.2.

(* ===================================================================== *)
(** * Theorems *)
(* ===================================================================== *)

(** ** Region classifier *)

(** C2. For every pair of coordinates (NaN and the infinities included) the
    classifier returns a value, that value is the name of the first rule of
    the specification's table that matches, tried in the order 1 to 8 with
    the boxes of rules 1 to 5 closed on all four sides, and it is one of the
    eight distinct region names. *)
Theorem determine_ocean_region_first_match (lat lon : float) :
  first_match region_rules lat lon = Some (determine_ocean_region lat lon)
  /\ In (determine_ocean_region lat lon) region_names
  /\ NoDup region_names
  /\ length region_names = 8%nat.
Proof.
  assert (Hfirst : first_match region_rules lat lon
                   = Some (determine_ocean_region lat lon)).
  { cbv [first_match region_rules rule_matches in_closed
           determine_ocean_region].
    rewrite !andb_assoc.
    repeat match goal with
           | |- context [if ?c then _ else _] => destruct c; [reflexivity|]
           end.
    reflexivity. }
  split; [exact Hfirst|].
  split.
  - clear Hfirst. cbv [determine_ocean_region].
    cbv [region_names region_rules map snd In].
    repeat match goal with
           | |- context [if ?c then _ else _] => destruct c; [auto 10|]
           end.
    auto 10.
  - split; [|reflexivity].
    apply (bool_decide_unpack _). vm_compute. reflexivity.
Qed.

(** ** Decoder *)

Lemma bind_Return {A B} (c : outcome A) (k : A -> outcome B) (a : A) :
  c = Return a -> bind c k = k a.
Proof. intros ->. reflexivity. Qed.

Lemma getitem_lookup {A} (l : list A) (i : nat) (a : A) :
  l !! i = Some a -> getitem l i = Return a.
Proof. unfold getitem. intros ->. reflexivity. Qed.

Lemma readings_valid_isnan (t s p : float) :
  negb (isnan t || isnan s || isnan p) = readings_valid t s p.
Proof. unfold readings_valid. destruct (isnan t), (isnan s), (isnan p); reflexivity. Qed.

Lemma valid_level_count_le (temps sals pres : list float) :
  (valid_level_count temps sals pres <= length temps)%nat.
Proof.
  revert sals pres. induction temps as [|t temps IH]; intros sals pres.
  - simpl. lia.
  - destruct sals as [|s sals]; [simpl; lia|].
    destruct pres as [|p pres]; [simpl; lia|].
    simpl. specialize (IH sals pres). destruct (readings_valid t s p); lia.
Qed.

Section DecoderFacts.
Context `{Library}.
Variables (file_path platform_number : string) (cycle_number : Z)
          (profile_lat profile_lon : float) (profile_time : timestamp)
          (ocean_region : string).

(** The level loop returns whenever the salinity and pressure rows are long
    enough, appends one measurement per valid level and keeps the four
    lists in step. *)
Lemma level_loop_returns (sals pres temps_rest : list float) :
  forall (level_idx : nat) (acc : level_acc),
    (level_idx + length temps_rest <= length sals)%nat ->
    (level_idx + length temps_rest <= length pres)%nat ->
    exists acc' ms,
      level_loop file_path platform_number cycle_number profile_lat
        profile_lon profile_time ocean_region sals pres temps_rest level_idx
        acc = Return acc'
      /\ valid_measurements acc' = (valid_measurements acc ++ ms)%list
      /\ length ms
         = valid_level_count temps_rest (drop level_idx sals)
             (drop level_idx pres)
      /\ (balanced acc -> balanced acc').
Proof.
  induction temps_rest as [|temp rest IH]; intros level_idx acc Hs Hp.
  - exists acc, []. simpl. rewrite app_nil_r. auto.
  - simpl in Hs, Hp.
    destruct (lookup_lt_is_Some_2 sals level_idx) as [sal Hsal]; [lia|].
    destruct (lookup_lt_is_Some_2 pres level_idx) as [pressure Hpres]; [lia|].
    cbn [level_loop].
    rewrite (bind_Return _ _ _ (getitem_lookup _ _ _ Hsal)).
    rewrite (bind_Return _ _ _ (getitem_lookup _ _ _ Hpres)).
    rewrite (drop_S _ _ _ Hsal), (drop_S _ _ _ Hpres).
    cbn [valid_level_count].
    rewrite readings_valid_isnan.
    destruct (readings_valid temp sal pressure).
    + match goal with
      | |- context [level_loop _ _ _ _ _ _ _ _ _ _ _ ?a] =>
          destruct (IH (S level_idx) a) as (acc' & ms & Hrun & Hms & Hlen & Hbal);
            [lia | lia |]
      end.
      exists acc'. eexists. split; [exact Hrun|].
      cbn [valid_measurements] in Hms. rewrite <- app_assoc in Hms.
      split; [exact Hms|]. split.
      * rewrite length_app, Hlen. simpl. lia.
      * intros (Ht & Hsl & Hpr). apply Hbal. unfold balanced. simpl.
        rewrite !length_app. simpl. lia.
    + destruct (IH (S level_idx) acc) as (acc' & ms & Hrun & Hms & Hlen & Hbal);
        [lia | lia |].
      exists acc', ms. auto.
Qed.

(** The summary is built whenever there is a valid level. *)
Lemma make_profile_returns (total_levels : nat) (processed_at : timestamp)
  (acc : level_acc) :
  balanced acc -> valid_measurements acc <> [] -> total_levels <> 0%nat ->
  exists p,
    make_profile file_path platform_number cycle_number profile_lat
      profile_lon profile_time ocean_region total_levels processed_at acc
    = Return p
    /\ ARGOProfile.id p = platform_number +:+ "_" +:+ pretty cycle_number
    /\ ARGOProfile.cycle_number p = cycle_number
    /\ ARGOProfile.num_measurements p = length (valid_measurements acc)
    /\ ARGOProfile.data_quality_score p
       = quality (length (valid_measurements acc)) total_levels
    /\ ARGOProfile.total_levels (ARGOProfile.processing_metadata p)
       = total_levels
    /\ ARGOProfile.valid_levels (ARGOProfile.processing_metadata p)
       = length (valid_measurements acc).
Proof.
  intros (Ht & Hs & Hp) Hne Htot.
  destruct acc as [valid temps sals pres]. simpl in *.
  destruct valid as [|m valid]; [congruence|].
  destruct temps as [|t temps]; [discriminate|].
  destruct sals as [|s sals]; [discriminate|].
  destruct pres as [|p pres]; [discriminate|].
  destruct total_levels as [|n]; [congruence|].
  eexists. split; [reflexivity|]. simpl. auto 10.
Qed.
End DecoderFacts.

(** One iteration of the profile loop, for every incoming pair of results:
    the measurements [ms] and the optional summary [profile] depend on the
    slot only. *)
Lemma process_profile_spec `{Library} (now : clock)
  (file_path platform_number : string) (cycle_idx : nat) (slot : profile_slot) :
  well_shaped slot ->
  exists ms profile,
    (forall st : decoded,
        process_profile now file_path platform_number st cycle_idx slot
        = Return ((st.1 ++ ms)%list,
                  match profile with Some p => Some p | None => st.2 end))
    /\ length ms = valid_levels_of slot
    /\ (profile = None <-> valid_levels_of slot = 0%nat)
    /\ (forall p, profile = Some p ->
          ARGOProfile.data_quality_score p
          = quality (valid_levels_of slot) (length (TEMP slot))
          /\ ARGOProfile.num_measurements p = valid_levels_of slot
          /\ ARGOProfile.cycle_number p = CYCLE_NUMBER slot
          /\ ARGOProfile.id p
             = platform_number +:+ "_" +:+ pretty (CYCLE_NUMBER slot)).
Proof.
  intros [Hs Hp].
  set (profile_time := match JULD slot with
                       | Some t => t
                       | None => now cycle_idx AtProfileTime
                       end).
  set (region := determine_ocean_region (LATITUDE slot) (LONGITUDE slot)).
  destruct (level_loop_returns file_path platform_number (CYCLE_NUMBER slot)
              (LATITUDE slot) (LONGITUDE slot) profile_time region
              (PSAL slot) (PRES slot) (TEMP slot) 0%nat empty_levels)
    as (acc & ms & Hrun & Hms & Hlen & Hbal); [simpl; lia | simpl; lia |].
  simpl in Hms. rewrite !drop_0 in Hlen. fold (valid_levels_of slot) in Hlen.
  specialize (Hbal (conj eq_refl (conj eq_refl eq_refl))).
  destruct ms as [|m ms'] eqn:Ems.
  - exists [], None. split; [|split; [exact Hlen|split]].
    + intros st. unfold process_profile. fold profile_time region.
      rewrite Hrun. cbn [bind]. rewrite Hms. reflexivity.
    + split; [intros _; symmetry; exact Hlen|reflexivity].
    + intros p Hp'. discriminate.
  - assert (Hne : valid_measurements acc <> []) by (rewrite Hms; discriminate).
    assert (Htot : length (TEMP slot) <> 0%nat).
    { pose proof (valid_level_count_le (TEMP slot) (PSAL slot) (PRES slot)) as Hle.
      unfold valid_levels_of in Hlen. simpl in Hlen. lia. }
    destruct (make_profile_returns file_path platform_number
                (CYCLE_NUMBER slot) (LATITUDE slot) (LONGITUDE slot)
                profile_time region (length (TEMP slot))
                (now cycle_idx AtProcessedAt) acc Hbal Hne Htot)
      as (p & Hmk & Hid & Hcyc & Hnum & Hscore & _).
    exists (m :: ms'), (Some p). split; [|split; [exact Hlen|split]].
    + intros st. unfold process_profile. fold profile_time region.
      rewrite Hrun. cbn [bind]. rewrite Hms. rewrite Hmk. reflexivity.
    + split; [discriminate|]. intros H0. rewrite <- Hlen in H0. discriminate.
    + intros p' [= <-]. rewrite Hms in Hnum, Hscore. rewrite Hlen in Hnum, Hscore.
      auto.
Qed.


Lemma fold_overwrite_None (held : option ARGOProfile.t)
  (news : list (option ARGOProfile.t)) :
  Forall (fun new => new = None) news -> fold_left overwrite news held = held.
Proof.
  revert held. induction news as [|new news IH]; intros held Hall; [reflexivity|].
  inversion Hall as [|? ? Hnew Hrest]; subst. simpl. apply IH. exact Hrest.
Qed.

(** The profile loop on well-shaped slots: it returns, the measurements of
    all slots are appended in order and the summary slot holds the last
    summary built. *)
Lemma profile_loop_spec `{Library} (now : clock)
  (file_path platform_number : string) (slots : list profile_slot) :
  Forall well_shaped slots ->
  forall (cycle_idx : nat),
  exists cs : list decoded,
    contributions now file_path platform_number slots cycle_idx = map Return cs
    /\ Forall2 (fun slot c =>
                  length c.1 = valid_levels_of slot
                  /\ (c.2 = None <-> valid_levels_of slot = 0%nat)
                  /\ (forall p, c.2 = Some p ->
                        ARGOProfile.cycle_number p = CYCLE_NUMBER slot
                        /\ ARGOProfile.num_measurements p = valid_levels_of slot))
         slots cs
    /\ forall st : decoded,
        profile_loop now file_path platform_number slots cycle_idx st
        = Return ((st.1 ++ concat (map fst cs))%list,
                  fold_left overwrite (map snd cs) st.2).
Proof.
  induction slots as [|slot rest IH]; intros Hall cycle_idx.
  - exists []. split; [reflexivity|]. split; [constructor|].
    intros [ms p]. simpl. rewrite app_nil_r. reflexivity.
  - inversion Hall as [|? ? Hslot Hrest]; subst.
    destruct (process_profile_spec now file_path platform_number cycle_idx slot
                Hslot) as (ms & profile & Hrun & Hlen & Hnone & Hsome).
    destruct (IH Hrest (S cycle_idx)) as (cs & Hcs & Hall2 & Hloop).
    exists ((ms, profile) :: cs). split; [|split].
    + cbn [contributions map]. rewrite Hcs. unfold slot_contribution.
      rewrite (Hrun ([], None)). simpl. destruct profile; reflexivity.
    + constructor; [|exact Hall2]. simpl. split; [exact Hlen|].
      split; [exact Hnone|]. intros p Hp. destruct (Hsome p Hp) as (_ & Hn & Hc & _).
      auto.
    + intros st. cbn [profile_loop]. rewrite (Hrun st). cbn [bind].
      rewrite Hloop. simpl. rewrite <- app_assoc. reflexivity.
Qed.

(** C10. A file whose profiles are well shaped decodes to the Measurements
    of all its profiles, in order, and to a single Profile: the summary of
    the last profile index that has a valid level.  The summaries built for
    earlier such indices are replaced in the one slot and are not part of
    the result. *)
Theorem only_last_profile_summary_returned `{Library}
  (open_dataset : string -> outcome dataset) (now : clock) (file_path : string)
  (ds : dataset) (before after : list profile_slot) (slot : profile_slot) :
  open_dataset file_path = Return ds ->
  N_PROF ds = (before ++ slot :: after)%list ->
  Forall well_shaped (N_PROF ds) ->
  valid_levels_of slot <> 0%nat ->
  Forall (fun s => valid_levels_of s = 0%nat) after ->
  exists (cs : list decoded) (ms_last : list ARGOFloat.t) (p : ARGOProfile.t),
    contributions now file_path (attr_platform_number ds) (N_PROF ds) 0
    = map Return cs
    /\ Forall2 (fun s c => length c.1 = valid_levels_of s) (N_PROF ds) cs
    /\ cs !! length before = Some (ms_last, Some p)
    /\ ARGOProfile.cycle_number p = CYCLE_NUMBER slot
    /\ ARGOProfile.num_measurements p = valid_levels_of slot
    /\ (process_netcdf_file open_dataset now file_path).1
       = (concat (map fst cs), Some p).
Proof.
  intros Hopen Hslots Hshape Hvalid Hafter.
  destruct (profile_loop_spec now file_path (attr_platform_number ds)
              (N_PROF ds) Hshape 0%nat) as (cs & Hcs & Hall2 & Hloop).
  rewrite Hslots in Hall2.
  apply Forall2_app_inv_l in Hall2 as (cs1 & cs' & H1 & H2 & ->).
  apply Forall2_cons_inv_l in H2 as (c & cs2 & (Hlen & Hnone & Hsome) & H2 & ->).
  destruct c as [ms_last [p|]]; simpl in *;
    [|destruct Hnone as [Hnone _]; specialize (Hnone eq_refl); congruence].
  destruct (Hsome p eq_refl) as [Hcyc Hnum].
  exists (cs1 ++ (ms_last, Some p) :: cs2)%list, ms_last, p.
  split; [exact Hcs|]. split.
  - rewrite Hslots. apply Forall2_app.
    + eapply Forall2_impl; [exact H1|]. intros s c' (Hl & _). exact Hl.
    + constructor; [exact Hlen|].
      eapply Forall2_impl; [exact H2|]. intros s c' (Hl & _). exact Hl.
  - split.
    { rewrite (Forall2_length _ _ _ H1).
      rewrite lookup_app_r by lia. rewrite Nat.sub_diag. reflexivity. }
    split; [exact Hcyc|]. split; [exact Hnum|].
    unfold process_netcdf_file. rewrite Hopen. cbn [bind].
    rewrite Hloop. cbn [bind try_except fst snd]. simpl.
    f_equal. rewrite map_app, fold_left_app. simpl.
    apply fold_overwrite_None.
    clear - H2 Hafter. revert cs2 H2.
    induction Hafter as [|s after' Hs Hafter IH]; intros cs2 H2.
    + apply Forall2_nil_inv_l in H2 as ->. constructor.
    + apply Forall2_cons_inv_l in H2 as (c & cs2' & (_ & Hnone & _) & H2 & ->).
      simpl. constructor; [apply Hnone; exact Hs|apply IH; exact H2].
Qed.

(** ** Decoding the same file at two moments *)

Section SameKeys.
Context `{Library}.
Variables (now1 now2 : clock) (file_path platform_number : string).

(** The clock only reaches the time fields: with the readings of another
    moment the level loop ends the same way and builds the same keys. *)
Lemma level_loop_same_keys (cycle_number : Z) (lat lon : float)
  (t1 t2 : timestamp) (region : string) (sals pres temps_rest : list float) :
  forall (level_idx : nat) (a b : level_acc),
    same_keys_acc a b ->
    same_outcome same_keys_acc
      (level_loop file_path platform_number cycle_number lat lon t1 region
         sals pres temps_rest level_idx a)
      (level_loop file_path platform_number cycle_number lat lon t2 region
         sals pres temps_rest level_idx b).
Proof.
  induction temps_rest as [|temp rest IH]; intros level_idx a b Hab.
  - exact Hab.
  - cbn [level_loop]. unfold getitem.
    destruct (sals !! level_idx) as [sal|]; [|exact I].
    destruct (pres !! level_idx) as [pressure|]; [|exact I].
    cbn [bind].
    destruct (negb (isnan temp || isnan sal || isnan pressure)).
    + apply IH. destruct Hab as (Hv & Ht & Hs & Hp).
      unfold same_keys_acc. cbn [valid_measurements temp_list sal_list pres_list].
      rewrite !map_app, Hv, Ht, Hs, Hp. auto.
    + apply IH. exact Hab.
Qed.

Lemma make_profile_same_keys (cycle_number : Z) (lat lon : float)
  (t1 t2 : timestamp) (region : string) (total : nat) (at1 at2 : timestamp)
  (a b : level_acc) :
  same_keys_acc a b ->
  same_outcome (fun p q => ARGOProfile.id p = ARGOProfile.id q)
    (make_profile file_path platform_number cycle_number lat lon t1 region
       total at1 a)
    (make_profile file_path platform_number cycle_number lat lon t2 region
       total at2 b).
Proof.
  destruct a as [va ta sa pa], b as [vb tb sb pb].
  intros (Hv & Ht & Hs & Hp). simpl in Hv, Ht, Hs, Hp. subst tb sb pb.
  unfold make_profile, make_range.
  cbn [valid_measurements temp_list sal_list pres_list].
  destruct ta as [|t ta]; [exact I|].
  destruct sa as [|s sa]; [exact I|].
  destruct va as [|m va], vb as [|m' vb]; try discriminate; [exact I|].
  destruct pa as [|p pa]; [exact I|].
  destruct total as [|n]; [exact I|].
  reflexivity.
Qed.

Lemma process_profile_same_keys (st1 st2 : decoded) (cycle_idx : nat)
  (slot : profile_slot) :
  decoded_keys st1 = decoded_keys st2 ->
  same_outcome (fun r1 r2 => decoded_keys r1 = decoded_keys r2)
    (process_profile now1 file_path platform_number st1 cycle_idx slot)
    (process_profile now2 file_path platform_number st2 cycle_idx slot).
Proof.
  intros Hst. unfold decoded_keys in Hst. injection Hst as Hms Hp.
  unfold process_profile.
  match goal with
  | |- same_outcome _ (bind ?l1 _) (bind ?l2 _) =>
      assert (Hloop : same_outcome same_keys_acc l1 l2)
        by (apply level_loop_same_keys; repeat split);
      destruct l1 as [acc1|e1], l2 as [acc2|e2]; try contradiction;
        [|exact I]
  end.
  cbn [bind]. pose proof Hloop as (Hv & _).
  destruct (valid_measurements acc1) as [|m1 v1] eqn:E1,
           (valid_measurements acc2) as [|m2 v2] eqn:E2; try discriminate.
  - simpl. unfold decoded_keys. simpl. rewrite !app_nil_r, Hms, Hp. reflexivity.
  - match goal with
    | |- same_outcome _ (bind ?m1 _) (bind ?m2 _) =>
        assert (Hmk : same_outcome
                        (fun p q => ARGOProfile.id p = ARGOProfile.id q) m1 m2)
          by (apply make_profile_same_keys; exact Hloop);
        destruct m1 as [p1|], m2 as [p2|]; try contradiction; [|exact I]
    end.
    simpl. unfold decoded_keys. simpl. rewrite !map_app, Hms, Hv, Hmk.
    reflexivity.
Qed.

Lemma profile_loop_same_keys (slots : list profile_slot) :
  forall (cycle_idx : nat) (st1 st2 : decoded),
    decoded_keys st1 = decoded_keys st2 ->
    same_outcome (fun r1 r2 => decoded_keys r1 = decoded_keys r2)
      (profile_loop now1 file_path platform_number slots cycle_idx st1)
      (profile_loop now2 file_path platform_number slots cycle_idx st2).
Proof.
  induction slots as [|slot rest IH]; intros cycle_idx st1 st2 Hst.
  - exact Hst.
  - cbn [profile_loop].
    pose proof (process_profile_same_keys st1 st2 cycle_idx slot Hst) as Hstep.
    destruct (process_profile now1 file_path platform_number st1 cycle_idx slot),
             (process_profile now2 file_path platform_number st2 cycle_idx slot);
      try contradiction; [|exact I].
    cbn [bind]. apply IH. exact Hstep.
Qed.
End SameKeys.

(** Two decodings of one file have the same primary keys, whatever the
    clock read. *)
Lemma process_netcdf_file_same_keys `{Library}
  (open_dataset : string -> outcome dataset) (now1 now2 : clock)
  (file_path : string) :
  decoded_keys (process_netcdf_file open_dataset now1 file_path).1
  = decoded_keys (process_netcdf_file open_dataset now2 file_path).1.
Proof.
  unfold process_netcdf_file.
  destruct (open_dataset file_path) as [ds|e]; [|reflexivity].
  cbn [bind].
  pose proof (profile_loop_same_keys now1 now2 file_path
                (attr_platform_number ds) (N_PROF ds) 0%nat ([], None)
                ([], None) eq_refl) as Hloop.
  destruct (profile_loop now1 file_path (attr_platform_number ds) (N_PROF ds)
              0%nat ([], None)),
           (profile_loop now2 file_path (attr_platform_number ds) (N_PROF ds)
              0%nat ([], None)); try contradiction; [|reflexivity].
  exact Hloop.
Qed.

(** ** Relational store *)

Lemma dom_merge_floats (float_data : list ARGOFloat.t)
  (table : gmap string ARGOFloat.t) :
  dom (merge_floats float_data table)
  = list_to_set (map ARGOFloat.id float_data) ∪ dom table.
Proof.
  unfold merge_floats. revert table.
  induction float_data as [|m ms IH]; intros table; simpl.
  - set_solver.
  - rewrite IH, dom_insert_L. set_solver.
Qed.

Lemma dom_merge_profile (profile_data : option ARGOProfile.t)
  (table : gmap string ARGOProfile.t) :
  dom (merge_profile profile_data table)
  = match ARGOProfile.id <$> profile_data with
    | Some k => {[k]} ∪ dom table
    | None => dom table
    end.
Proof. destruct profile_data; simpl; [apply dom_insert_L|reflexivity]. Qed.

(** ** Order of doubles *)

Lemma SFcompare_antisym (x y : float) :
  SFcompare y x = CompOpp <$> SFcompare x y.
Proof.
  destruct x as [sx|sx| |sx mx ex], y as [sy|sy| |sy my ey]; simpl;
    try reflexivity; try (destruct sx; reflexivity);
    try (destruct sy; reflexivity);
    try (destruct sx, sy; reflexivity).
  destruct sx, sy; simpl; try reflexivity;
    rewrite (Z.compare_antisym ey ex);
    destruct (ey ?= ex)%Z; simpl; try reflexivity;
    change (Pos.compare_cont Eq my mx) with (Pos.compare my mx);
    change (Pos.compare_cont Eq mx my) with (Pos.compare mx my);
    rewrite (Pos.compare_antisym my mx);
    destruct (my ?= mx)%positive; reflexivity.
Qed.

Lemma SFcompare_Eq (x y : float) :
  SFcompare x y = Some Eq <->
  isnan x = false /\ same_value_class x = same_value_class y.
Proof.
  destruct x as [sx|sx| |sx mx ex], y as [sy|sy| |sy my ey]; simpl;
    try (destruct sx); try (destruct sy); simpl;
    try (split;
         [ intros E; try discriminate E; split; reflexivity
         | intros [E1 E2]; try discriminate E1; try discriminate E2;
           reflexivity ]).
  all: change (Pos.compare_cont Eq mx my) with (Pos.compare mx my).
  all: destruct (ex ?= ey)%Z eqn:Ee; destruct (mx ?= my)%positive eqn:Em;
    simpl; (split; [intros E; try discriminate E | intros [_ E]]).
  all: try (apply Z.compare_eq_iff in Ee; apply Pos.compare_eq_iff in Em;
            subst; split; reflexivity).
  all: try (injection E as -> ->; rewrite ?Z.compare_refl in Ee;
            rewrite ?Pos.compare_refl in Em; discriminate).
Qed.

Lemma flt_asym (x y : float) : flt x y = true -> flt y x = false.
Proof.
  unfold flt, SFltb. rewrite (SFcompare_antisym x y).
  destruct (SFcompare x y) as [[]|]; simpl; congruence.
Qed.

Lemma SFcompare_not_nan (x y : float) :
  isnan x = false -> isnan y = false -> exists c, SFcompare x y = Some c.
Proof.
  destruct x, y; simpl; intros; try discriminate; eauto.
Qed.

(** Between two doubles that are not NaN, "not below" is "above or equal". *)
Lemma not_flt_fle (x y : float) :
  isnan x = false -> isnan y = false -> flt x y = false -> fle y x = true.
Proof.
  intros Hx Hy. unfold flt, fle, SFltb, SFleb.
  rewrite (SFcompare_antisym x y).
  destruct (SFcompare_not_nan x y Hx Hy) as [c ->]. destruct c; simpl; congruence.
Qed.

(** Two doubles equal to a third are not strictly ordered. *)
Lemma feq_not_flt (x y c : float) :
  feq x c = true -> feq y c = true -> flt x y = false.
Proof.
  unfold feq, SFeqb, flt, SFltb. intros Hx Hy.
  destruct (SFcompare x c) as [[]|] eqn:Ex; try discriminate.
  destruct (SFcompare y c) as [[]|] eqn:Ey; try discriminate.
  apply SFcompare_Eq in Ex as [Hnx Hcx], Ey as [Hny Hcy].
  assert (E : SFcompare x y = Some Eq)
    by (apply SFcompare_Eq; split; [exact Hnx|congruence]).
  rewrite E. reflexivity.
Qed.

(** ** Embedding *)

Lemma l2_normalize_length (row : list float) :
  length (l2_normalize row) = length row.
Proof.
  unfold l2_normalize. destruct (feq _ _); [reflexivity|apply length_map].
Qed.

(** On the success path the vector has one entry per vocabulary term. *)
Lemma transform_length `{Library} (vocab : vocabulary) (text : string) :
  length (transform vocab text) = length vocab.
Proof. unfold transform. rewrite l2_normalize_length. apply length_map. Qed.

(** The length of an embedding: the size of the vocabulary when the
    vectorizer is fitted afterwards, 1000 when it is not. *)
Lemma create_vector_embedding_length `{Library} (vz : option vocabulary)
  (text : string) :
  match (create_vector_embedding vz text).1.2 with
  | Some vocab =>
      length (create_vector_embedding vz text).1.1 = length vocab
  | None => length (create_vector_embedding vz text).1.1 = 1000%nat
  end.
Proof.
  unfold create_vector_embedding.
  destruct vz as [vocab|]; [apply transform_length|].
  destruct (fit text) as [vocab|e]; [apply transform_length|].
  apply length_replicate.
Qed.

(** A fitted vectorizer is never refitted. *)
Lemma create_vector_embedding_fitted `{Library} (vocab : vocabulary)
  (text : string) :
  create_vector_embedding (Some vocab) text
  = (transform vocab text, Some vocab, []).
Proof. reflexivity. Qed.

Lemma embed_each_fitted `{Library} (vocab : vocabulary) (texts : list string) :
  embed_each (Some vocab) texts = (map (transform vocab) texts, Some vocab).
Proof.
  induction texts as [|text rest IH]; [reflexivity|].
  cbn [embed_each]. rewrite create_vector_embedding_fitted, IH. reflexivity.
Qed.

Lemma count_term_in_vocabulary (vocab : vocabulary) (tokens : list string)
  (term : string) :
  term ∈ vocab ->
  count_term (filter (fun t => t ∈ vocab) tokens) term = count_term tokens term.
Proof.
  intros Hin. unfold count_term. f_equal.
  induction tokens as [|t tokens IH]; [reflexivity|].
  rewrite (filter_cons (fun t => t ∈ vocab)), (filter_cons (fun t => t = term) t tokens).
  destruct (decide (t ∈ vocab)) as [Ht|Ht].
  - rewrite (filter_cons (fun t => t = term)), IH. reflexivity.
  - rewrite IH. destruct (decide (t = term)) as [->|]; [contradiction|reflexivity].
Qed.

(** The vector of a text is that of its in-vocabulary tokens. *)
Lemma transform_in_vocabulary `{Library} (vocab : vocabulary)
  (text text' : string) :
  filter (fun t => t ∈ vocab) (analyze text)
  = filter (fun t => t ∈ vocab) (analyze text') ->
  transform vocab text = transform vocab text'.
Proof.
  intros Hsame. unfold transform. f_equal.
  apply map_ext_in. intros term Hin. apply list_elem_of_In in Hin.
  rewrite <- (count_term_in_vocabulary vocab (analyze text) term Hin).
  rewrite <- (count_term_in_vocabulary vocab (analyze text') term Hin).
  rewrite Hsame. reflexivity.
Qed.

Lemma l2_normalize_zeros (n : nat) :
  l2_normalize (replicate n (S754_zero false)) = replicate n (S754_zero false).
Proof.
  unfold l2_normalize.
  assert (E : fold_left (fun acc x => fadd acc (fmul x x))
                (replicate n (S754_zero false)) (S754_zero false)
              = S754_zero false).
  { induction n as [|n IH]; [reflexivity|]. simpl. exact IH. }
  rewrite E. reflexivity.
Qed.

(** A text without any vocabulary term gets the zero row. *)
Lemma transform_out_of_vocabulary `{Library} (vocab : vocabulary)
  (text : string) :
  Forall (fun t => t ∉ vocab) (analyze text) ->
  transform vocab text = replicate (length vocab) (S754_zero false).
Proof.
  intros Hout. unfold transform.
  rewrite <- l2_normalize_zeros. f_equal.
  assert (Hzero : forall term, term ∈ vocab -> count_term (analyze text) term = 0%nat).
  { intros term Hin. unfold count_term.
    induction Hout as [|t tokens Ht Hout IH]; [reflexivity|].
    rewrite filter_cons. destruct (decide (t = term)) as [->|]; [contradiction|].
    exact IH. }
  clear Hout. induction vocab as [|term vocab IH]; [reflexivity|].
  simpl. rewrite Hzero by (left).
  f_equal. apply IH. intros t Ht. apply Hzero. right. exact Ht.
Qed.

(** C8, as amended. The vectorizer is fitted on the first embedded text on
    which fitting succeeds: the texts before it, which the analyzer reduces
    to no term, each get the zero vector of length 1000 and leave the
    vectorizer unfitted; that text and every later one are transformed with
    its vocabulary, which no later call changes.  A vector depends on the
    in-vocabulary words of its text only, and a text without any gets the
    zero row. *)
Theorem vocabulary_frozen_after_first_fit `{Library}
  (skipped later : list string) (first : string) (vocab : vocabulary) :
  Forall (fun text => exists e, fit text = Raise e) skipped ->
  fit first = Return vocab ->
  embed_each None (skipped ++ first :: later)%list
  = ((map (fun _ => np_zeros 1000) skipped
      ++ transform vocab first :: map (transform vocab) later)%list,
     Some vocab)
  /\ (forall texts, embed_each (Some vocab) texts
                    = (map (transform vocab) texts, Some vocab))
  /\ (forall text text',
        filter (fun t => t ∈ vocab) (analyze text)
        = filter (fun t => t ∈ vocab) (analyze text') ->
        transform vocab text = transform vocab text')
  /\ (forall text,
        Forall (fun t => t ∉ vocab) (analyze text) ->
        transform vocab text = replicate (length vocab) (S754_zero false)).
Proof.
  intros Hskipped Hfit. split; [|split; [|split]].
  - induction Hskipped as [|text skipped [e He] _ IH].
    + cbn [app map embed_each]. unfold create_vector_embedding at 1.
      rewrite Hfit, embed_each_fitted. reflexivity.
    + cbn [app map embed_each]. unfold create_vector_embedding at 1.
      rewrite He, IH. reflexivity.
  - apply embed_each_fitted.
  - apply transform_in_vocabulary.
  - apply transform_out_of_vocabulary.
Qed.

(** ** Similarity search *)

Lemma cosine_similarity_comparable `{Library} (x y : list float) :
  x <> [] -> forallb isfinite x = true ->
  length y = length x -> forallb isfinite y = true ->
  cosine_similarity x y = Return (cosine_kernel x y).
Proof.
  intros Hne Hfx Hlen Hfy. unfold cosine_similarity.
  rewrite Hfx, Hfy. cbn [andb negb].
  destruct (decide (length x = 0%nat \/ length y = 0%nat)) as [[H0|H0]|_].
  - destruct x; [congruence|discriminate].
  - rewrite Hlen in H0. destruct x; [congruence|discriminate].
  - destruct (decide (length x = length y)); [reflexivity|congruence].
Qed.

(** Rows of different lengths cannot be compared. *)
Lemma cosine_similarity_mismatch `{Library} (x y : list float) :
  length x <> length y -> exists e, cosine_similarity x y = Raise e.
Proof.
  intros Hne. unfold cosine_similarity.
  destruct (negb _); [eauto|].
  destruct (decide _); [eauto|].
  destruct (decide (length x = length y)); [contradiction|eauto].
Qed.

Lemma score_all_returns `{Library} (query_vector : list float)
  (items : dict Entry.t) :
  comparable query_vector items ->
  forall similarities : list hit,
  exists hits,
    score_all query_vector items similarities = Return (similarities ++ hits)%list
    /\ Forall2 (hit_for query_vector) items hits
    /\ Forall (fun h => isnan (similarity h) = false) hits.
Proof.
  intros (Hne & Hfin & Hall).
  induction Hall as [|[id data] rest (Hlen & Hf & Hnan) _ IH]; intros similarities.
  - exists []. rewrite app_nil_r. repeat split; constructor.
  - cbn [score_all]. simpl in Hlen, Hf, Hnan.
    rewrite (cosine_similarity_comparable _ _ Hne Hfin Hlen Hf). cbn [bind].
    match goal with
    | |- context [score_all _ _ (similarities ++ [?h])%list] =>
        destruct (IH (similarities ++ [h])%list) as (hits & Hrun & Hfor & Hnn);
          exists (h :: hits)
    end.
    rewrite Hrun, <- app_assoc. split; [reflexivity|]. split.
    + constructor; [|exact Hfor]. unfold hit_for. simpl.
      rewrite (cosine_similarity_comparable _ _ Hne Hfin Hlen Hf). auto.
    + constructor; [exact Hnan|exact Hnn].
Qed.

Lemma insert_desc_Permutation (x : hit) (l : list hit) :
  Permutation (insert_desc x l) (x :: l).
Proof.
  induction l as [|y l IH]; [reflexivity|]. simpl.
  destruct (flt (similarity x) (similarity y)); [|reflexivity].
  rewrite IH. apply perm_swap.
Qed.

Lemma sort_desc_Permutation (l : list hit) : Permutation (sort_desc l) l.
Proof.
  induction l as [|x l IH]; [reflexivity|].
  unfold sort_desc in *. simpl. rewrite insert_desc_Permutation.
  constructor. exact IH.
Qed.

(** [a] is not strictly below [b]. *)
Lemma insert_desc_HdRel (y x : hit) (l : list hit) :
  HdRel (fun a b => flt (similarity a) (similarity b) = false) y l ->
  flt (similarity y) (similarity x) = false ->
  HdRel (fun a b => flt (similarity a) (similarity b) = false) y
    (insert_desc x l).
Proof.
  intros Hhd Hyx. destruct l as [|z l]; simpl; [constructor; exact Hyx|].
  destruct (flt (similarity x) (similarity z)); constructor; [|exact Hyx].
  inversion Hhd; assumption.
Qed.

Lemma insert_desc_Sorted (x : hit) (l : list hit) :
  Sorted (fun a b => flt (similarity a) (similarity b) = false) l ->
  Sorted (fun a b => flt (similarity a) (similarity b) = false)
    (insert_desc x l).
Proof.
  induction l as [|y l IH]; intros Hs; simpl.
  - repeat constructor.
  - destruct (flt (similarity x) (similarity y)) eqn:Hxy.
    + inversion Hs as [|? ? Hs' Hhd]; subst. constructor; [apply IH; exact Hs'|].
      apply insert_desc_HdRel; [exact Hhd|]. apply flt_asym. exact Hxy.
    + constructor; [exact Hs|]. constructor. exact Hxy.
Qed.

Lemma sort_desc_Sorted (l : list hit) :
  Sorted (fun a b => flt (similarity a) (similarity b) = false) (sort_desc l).
Proof.
  induction l as [|x l IH]; [constructor|].
  unfold sort_desc in *. simpl. apply insert_desc_Sorted. exact IH.
Qed.

(** Without NaN, "never strictly increasing" is "non-increasing". *)
Lemma Sorted_non_increasing (l : list hit) :
  Forall (fun h => isnan (similarity h) = false) l ->
  Sorted (fun a b => flt (similarity a) (similarity b) = false) l ->
  Sorted non_increasing l.
Proof.
  intros Hnn Hs. induction Hs as [|a l Hs IH Hhd]; [constructor|].
  inversion Hnn as [|? ? Ha Hl]; subst.
  constructor; [apply IH; exact Hl|].
  destruct Hhd as [|b l' Hab]; constructor.
  inversion Hl; subst. apply not_flt_fle; assumption.
Qed.

(** Insertion keeps the hits of one similarity in their order. *)
Lemma ties_insert_desc (c : float) (x : hit) (l : list hit) :
  ties c (insert_desc x l) = ties c (x :: l).
Proof.
  unfold ties. induction l as [|y l IH]; [reflexivity|].
  cbn [insert_desc].
  destruct (flt (similarity x) (similarity y)) eqn:Hxy; [|reflexivity].
  cbn [List.filter] in *. rewrite IH.
  destruct (feq (similarity x) c) eqn:Ex, (feq (similarity y) c) eqn:Ey;
    try reflexivity.
  rewrite (feq_not_flt _ _ _ Ex Ey) in Hxy. discriminate.
Qed.

Lemma ties_sort_desc (c : float) (l : list hit) :
  ties c (sort_desc l) = ties c l.
Proof.
  induction l as [|x l IH]; [reflexivity|].
  unfold sort_desc in *. cbn [foldr]. rewrite ties_insert_desc.
  unfold ties in *. cbn [List.filter]. rewrite IH. reflexivity.
Qed.

(** C6, as amended. For a count [top_k >= 0] and an index whose M stored
    vectors can all be compared with the query's vector, the search yields
    one hit per stored entry, ranks the hits by non-increasing similarity
    keeping hits of equal similarity in the insertion order of the store,
    and returns the first [top_k] of them: exactly min(M, top_k) results, so
    none for an empty store. *)
Theorem search_returns_top_k_ranked `{Library} (self : processor)
  (query_text : string) (top_k : Z) :
  (0 <= top_k)%Z ->
  comparable (create_vector_embedding (vectorizer self) query_text).1.1
    (vector_store self) ->
  exists hits ranked : list hit,
    Forall2 (hit_for (create_vector_embedding (vectorizer self) query_text).1.1)
      (vector_store self) hits
    /\ Permutation ranked hits
    /\ Sorted non_increasing ranked
    /\ (forall c, ties c ranked = ties c hits)
    /\ (search_similar_profiles self query_text top_k).1.1
       = take (Z.to_nat top_k) ranked
    /\ length (search_similar_profiles self query_text top_k).1.1
       = Nat.min (length (vector_store self)) (Z.to_nat top_k).
Proof.
  intros Hk Hcmp.
  destruct (score_all_returns _ _ Hcmp []) as (hits & Hrun & Hfor & Hnn).
  cbn [app] in Hrun.
  exists hits, (sort_desc hits).
  assert (Hres : (search_similar_profiles self query_text top_k).1.1
                 = take (Z.to_nat top_k) (sort_desc hits)).
  { unfold search_similar_profiles.
    destruct (vector_store self) as [|item rest] eqn:Hstore.
    - apply Forall2_nil_inv_l in Hfor as ->. simpl. rewrite take_nil. reflexivity.
    - destruct (create_vector_embedding (vectorizer self) query_text)
        as [[query_vector vz] log_embed].
      cbn [fst] in Hrun. rewrite Hrun. cbn [fst]. unfold slice_to.
      destruct (0 <=? top_k)%Z eqn:E; [reflexivity|].
      apply Z.leb_gt in E. lia. }
  split; [exact Hfor|]. split; [apply sort_desc_Permutation|].
  split.
  { apply Sorted_non_increasing; [|apply sort_desc_Sorted].
    rewrite sort_desc_Permutation. exact Hnn. }
  split; [intros c; apply ties_sort_desc|].
  split; [exact Hres|].
  rewrite Hres, length_take, (Permutation_length (sort_desc_Permutation hits)).
  rewrite <- (Forall2_length _ _ _ Hfor). lia.
Qed.

(** When a stored vector has not the query vector's length, the search
    catches the error and returns nothing. *)
Lemma search_mismatch_empty `{Library} (self : processor) (query_text : string)
  (top_k : Z) (id : string) (data : Entry.t) (rest : dict Entry.t) :
  vector_store self = (id, data) :: rest ->
  length (create_vector_embedding (vectorizer self) query_text).1.1
  <> length (Entry.vector data) ->
  (search_similar_profiles self query_text top_k).1.1 = [].
Proof.
  intros Hstore Hlen. unfold search_similar_profiles. rewrite Hstore.
  destruct (create_vector_embedding (vectorizer self) query_text)
    as [[query_vector vz] log_embed].
  cbn [fst] in Hlen. cbn [score_all].
  destruct (cosine_similarity_mismatch query_vector (Entry.vector data) Hlen)
    as [e ->].
  reflexivity.
Qed.

(** ** Persistence *)

(** The hits of a search depend on the vector table and the vectorizer
    only. *)
Lemma search_depends_on_index `{Library} (a b : processor)
  (query_text : string) (top_k : Z) :
  vector_store a = vector_store b -> vectorizer a = vectorizer b ->
  (search_similar_profiles a query_text top_k).1.1
  = (search_similar_profiles b query_text top_k).1.1.
Proof.
  intros Hs Hv. unfold search_similar_profiles. rewrite Hs, Hv.
  destruct (vector_store b); [reflexivity|].
  destruct (create_vector_embedding (vectorizer b) query_text) as [[qv vz] l].
  destruct (score_all qv _ []); reflexivity.
Qed.

(** C9. When the pickle codec reads back what it wrote and the file is
    written, saving an index and loading the file into a fresh processor
    succeeds and restores the vector table and the vectorizer state, so
    that every query returns the same hits as on the original index. *)
Theorem save_then_load_same_results `{Library} (self : processor)
  (file_path : string) (files : gmap string blob) (query_text : string)
  (top_k : Z) :
  (forall x : pickled, pickle_loads (pickle_dumps x) = Return x) ->
  (load_vector_store new_processor file_path
     (save_vector_store WriteOk self file_path files).1).1.1 = true
  /\ vector_store
       (load_vector_store new_processor file_path
          (save_vector_store WriteOk self file_path files).1).1.2
     = vector_store self
  /\ vectorizer
       (load_vector_store new_processor file_path
          (save_vector_store WriteOk self file_path files).1).1.2
     = vectorizer self
  /\ (search_similar_profiles
        (load_vector_store new_processor file_path
           (save_vector_store WriteOk self file_path files).1).1.2
        query_text top_k).1.1
     = (search_similar_profiles self query_text top_k).1.1.
Proof.
  intros Hpickle.
  assert (Hload : load_vector_store new_processor file_path
                    (save_vector_store WriteOk self file_path files).1
                  = (true,
                     {| engine := false; Session := false;
                        vectorizer := vectorizer self;
                        vector_store := vector_store self |},
                     [INFO (VectorStoreLoaded file_path)])).
  { unfold load_vector_store, save_vector_store. cbn [fst].
    rewrite lookup_insert_eq, Hpickle. reflexivity. }
  rewrite Hload. cbn [fst snd vector_store vectorizer].
  repeat split. apply search_depends_on_index; reflexivity.
Qed.

(** ** Directory orchestration *)

(** With a body that always returns, the loop visits every item. *)
Lemma for_each_total (body : state -> string -> outcome unit * state)
  (items : list string) :
  (forall st item, (body st item).1 = Return ()) ->
  forall st,
    for_each body items st
    = (Return (), fold_left (fun s item => (body s item).2) items st).
Proof.
  intros Hbody. induction items as [|item rest IH]; intros st; [reflexivity|].
  cbn [for_each fold_left]. specialize (Hbody st item).
  destruct (body st item) as [r st']. cbn [fst] in Hbody. subst r.
  apply IH.
Qed.

Lemma process_file_returns `{Library} (env : environment) (st : state)
  (nc_file : string) :
  (process_file env st nc_file).1 = Return ().
Proof.
  unfold process_file. destruct (process_file_body env st nc_file) as [[[]|e] st'];
    reflexivity.
Qed.

(** What one file changes, case by case. *)
Lemma process_file_cases `{Library} (env : environment) (st : state)
  (nc_file : string) :
  let r := (process_netcdf_file (open_dataset env) (wall_clock env nc_file)
              nc_file).1 in
  let stored := store_to_postgresql (db_init env nc_file)
                  (session_fault env nc_file) (self st) (db st) r.1 r.2 in
  let st' := (process_file env st nc_file).2 in
  (r.1 = [] ->
     db st' = db st /\ vector_store (self st') = vector_store (self st)
     /\ vectorizer (self st') = vectorizer (self st))
  /\ (forall e, stored.1.1.1 = Raise e ->
        db st' = db st /\ vector_store (self st') = vector_store (self st)
        /\ vectorizer (self st') = vectorizer (self st))
  /\ (r.1 <> [] -> stored.1.1.1 = Return () ->
        db st'
        = {| argo_floats := merge_floats r.1 (argo_floats (db st));
             argo_profiles := merge_profile r.2 (argo_profiles (db st)) |}
        /\ forall e, entry_fault env nc_file = Some e ->
             vector_store (self st') = vector_store (self st)).
Proof.
  cbv zeta. unfold process_file, process_file_body.
  destruct (process_netcdf_file (open_dataset env) (wall_clock env nc_file)
              nc_file) as [[float_data profile_data] log_decode].
  cbn [fst snd].
  destruct float_data as [|m float_data].
  { split; [intros _; auto|]. split; [|intros Hne; congruence].
    intros e _. auto. }
  assert (Hstore :
    forall r self1 db1 l,
      store_to_postgresql (db_init env nc_file) (session_fault env nc_file)
        (self st) (db st) (m :: float_data) profile_data = (r, self1, db1, l) ->
      vector_store self1 = vector_store (self st)
      /\ vectorizer self1 = vectorizer (self st)
      /\ match r with
         | Raise _ => db1 = db st
         | Return _ =>
             db1 = {| argo_floats :=
                        merge_floats (m :: float_data) (argo_floats (db st));
                      argo_profiles :=
                        merge_profile profile_data (argo_profiles (db st)) |}
         end).
  { intros r self1 db1 l. unfold store_to_postgresql.
    destruct (engine (self st)); [|destruct (db_init env nc_file)];
      cbn [initialize_database Session negb];
      repeat match goal with
             | |- context [negb (Session ?s)] => destruct (Session s); cbn [negb]
             end;
      try destruct (session_fault env nc_file);
      intros Heq; inversion Heq; auto. }
  cbn [log self db logs].
  destruct (store_to_postgresql (db_init env nc_file)
              (session_fault env nc_file) (self st) (db st) (m :: float_data)
              profile_data) as [[[r self1] db1] log_store] eqn:Estore.
  destruct (Hstore _ _ _ _ eq_refl) as (Hvs & Hvz & Hdb).
  cbn [fst snd]. split; [discriminate|].
  destruct r as [[]|e0].
  - split; [discriminate|]. intros _ _.
    destruct profile_data as [p|]; cbn [fst snd log self db].
    + unfold store_to_vector_database.
      destruct (create_vector_embedding (vectorizer self1)
                  (ARGOProfile.summary_text p)) as [[vector vz] log_embed].
      destruct (entry_fault env nc_file) as [e|]; cbn [fst snd log self db];
        (split; [exact Hdb|]); intros e' [= ]. exact Hvs.
    + split; [exact Hdb|]. intros _ _. exact Hvs.
  - split; [|intros _ [= ]]. intros e [= <-]. cbn [snd log self db]. auto.
Qed.

(** C5, as amended. On a directory that does not exist the run logs the
    condition and touches nothing.  Otherwise it visits every file and never
    raises: a file whose decoding fails or yields no measurement, and a file
    whose storing fails, leave the tables and the index as they were; a file
    whose indexing fails after its rows were committed keeps those rows in
    the tables and adds no entry to the index. *)
Theorem process_directory_isolates_files `{Library} (env : environment)
  (directory_path : string) (st : state) :
  (path_exists env directory_path = false ->
     process_directory env directory_path st
     = (Return (), log [ERROR (DirectoryMissing directory_path)] st))
  /\ (path_exists env directory_path = true ->
        process_directory env directory_path st
        = (Return (),
           fold_left (fun s nc_file => (process_file env s nc_file).2)
             (glob_nc env directory_path)
             (log [INFO (FoundFiles (length (glob_nc env directory_path)))] st)))
  /\ (forall (s : state) (nc_file : string),
        (process_file env s nc_file).1 = Return ()
        /\ ((process_netcdf_file (open_dataset env) (wall_clock env nc_file)
               nc_file).1.1 = [] ->
            db (process_file env s nc_file).2 = db s
            /\ vector_store (self (process_file env s nc_file).2)
               = vector_store (self s)
            /\ vectorizer (self (process_file env s nc_file).2)
               = vectorizer (self s))
        /\ (forall e,
              (store_to_postgresql (db_init env nc_file)
                 (session_fault env nc_file) (self s) (db s)
                 (process_netcdf_file (open_dataset env)
                    (wall_clock env nc_file) nc_file).1.1
                 (process_netcdf_file (open_dataset env)
                    (wall_clock env nc_file) nc_file).1.2).1.1.1 = Raise e ->
              db (process_file env s nc_file).2 = db s
              /\ vector_store (self (process_file env s nc_file).2)
                 = vector_store (self s)
              /\ vectorizer (self (process_file env s nc_file).2)
                 = vectorizer (self s))
        /\ ((process_netcdf_file (open_dataset env) (wall_clock env nc_file)
               nc_file).1.1 <> [] ->
            (store_to_postgresql (db_init env nc_file)
               (session_fault env nc_file) (self s) (db s)
               (process_netcdf_file (open_dataset env)
                  (wall_clock env nc_file) nc_file).1.1
               (process_netcdf_file (open_dataset env)
                  (wall_clock env nc_file) nc_file).1.2).1.1.1 = Return () ->
            db (process_file env s nc_file).2
            = {| argo_floats :=
                   merge_floats
                     (process_netcdf_file (open_dataset env)
                        (wall_clock env nc_file) nc_file).1.1
                     (argo_floats (db s));
                 argo_profiles :=
                   merge_profile
                     (process_netcdf_file (open_dataset env)
                        (wall_clock env nc_file) nc_file).1.2
                     (argo_profiles (db s)) |}
            /\ forall e, entry_fault env nc_file = Some e ->
                 vector_store (self (process_file env s nc_file).2)
                 = vector_store (self s))).
Proof.
  split; [|split].
  - intros Hmissing. unfold process_directory. rewrite Hmissing. reflexivity.
  - intros Hexists. unfold process_directory. rewrite Hexists. cbn [negb].
    apply for_each_total. intros s item. apply process_file_returns.
  - intros s nc_file. split; [apply process_file_returns|].
    exact (process_file_cases env s nc_file).
Qed.

(** ** Filtered query *)

Lemma compile_all_Forall2 `{Library} (q : list criterion) :
  forall fs, compile_all q = Return fs ->
             Forall2 (fun c f => compile c = Return f) q fs.
Proof.
  induction q as [|c q IH]; intros fs; cbn [compile_all].
  - intros [= <-]. constructor.
  - destruct (compile c) as [f|] eqn:Ec; [|discriminate]. cbn [bind].
    destruct (compile_all q) as [fs'|]; [|discriminate]. cbn [bind].
    intros [= <-]. constructor; [exact Ec|apply IH; reflexivity].
Qed.

(** Every row the statement returns passes every condition of the query,
    and there are at most 1000 of them. *)
Lemma limit_all_spec `{Library} (fault : option exn) (table : list ARGOFloat.t)
  (q : list criterion) (results : list ARGOFloat.t) :
  limit_all fault table q = Return results ->
  (length results <= 1000)%nat
  /\ Forall (fun r => forall c, c ∈ q ->
                        exists f, compile c = Return f /\ f r = true) results.
Proof.
  unfold limit_all. destruct fault; [discriminate|].
  destruct (compile_all q) as [fs|] eqn:Efs; [|discriminate]. cbn [bind].
  intros [= <-]. split; [rewrite length_take; lia|].
  apply compile_all_Forall2 in Efs.
  apply Forall_take. apply Forall_forall. intros r Hr.
  apply list_elem_of_In, filter_In in Hr as [_ Hall].
  intros c Hc.
  apply list_elem_of_lookup in Hc as [i Hi].
  destruct (Forall2_lookup_l _ _ _ _ _ Efs Hi) as (f & Hf & Hcf).
  exists f. split; [exact Hcf|].
  rewrite forallb_forall in Hall. apply Hall.
  apply list_elem_of_In. eapply list_elem_of_lookup_2. exact Hf.
Qed.

(** The conditions the five [if] statements put into the query. *)
Lemma build_query_members `{Library} (region start_date end_date : option string)
  (temperature_range salinity_range : option (list float)) (q : list criterion) :
  build_query region start_date end_date temperature_range salinity_range
  = Return q ->
  (forall r, nonempty_string region = Some r -> r <> "Unknown" -> RegionIs r ∈ q)
  /\ (forall d, nonempty_string start_date = Some d -> TimeGe d ∈ q)
  /\ (forall d, nonempty_string end_date = Some d -> TimeLe d ∈ q)
  /\ (forall l, nonempty_list temperature_range = Some l ->
        exists lo hi, l !! 0%nat = Some lo /\ l !! 1%nat = Some hi
                      /\ TemperatureGe lo ∈ q /\ TemperatureLe hi ∈ q)
  /\ (forall l, nonempty_list salinity_range = Some l ->
        exists lo hi, l !! 0%nat = Some lo /\ l !! 1%nat = Some hi
                      /\ SalinityGe lo ∈ q /\ SalinityLe hi ∈ q).
Proof.
  unfold build_query.
  set (q0 := match nonempty_string region with
             | Some r => if decide (r = "Unknown") then [] else [RegionIs r]
             | None => []
             end).
  set (q1 := match nonempty_string start_date with
             | Some d => (q0 ++ [TimeGe d])%list
             | None => q0
             end).
  set (q2 := match nonempty_string end_date with
             | Some d => (q1 ++ [TimeLe d])%list
             | None => q1
             end).
  assert (H0 : forall r, nonempty_string region = Some r -> r <> "Unknown" ->
                         RegionIs r ∈ q0).
  { intros r Hr Hne. subst q0. rewrite Hr.
    destruct (decide (r = "Unknown")); [contradiction|set_solver]. }
  assert (H01 : forall c, c ∈ q0 -> c ∈ q1).
  { intros c Hc. subst q1. destruct (nonempty_string start_date); set_solver. }
  assert (H1 : forall d, nonempty_string start_date = Some d -> TimeGe d ∈ q1).
  { intros d Hd. subst q1. rewrite Hd. set_solver. }
  assert (H12 : forall c, c ∈ q1 -> c ∈ q2).
  { intros c Hc. subst q2. destruct (nonempty_string end_date); set_solver. }
  assert (H2 : forall d, nonempty_string end_date = Some d -> TimeLe d ∈ q2).
  { intros d Hd. subst q2. rewrite Hd. set_solver. }
  clearbody q0 q1 q2.
  destruct (nonempty_list temperature_range) as [lt|] eqn:Et;
    [unfold getitem at 1 2;
     destruct (lt !! 0%nat) as [tlo|] eqn:Et0; [|discriminate];
     destruct (lt !! 1%nat) as [thi|] eqn:Et1; [|discriminate]|];
    cbn [bind];
    (destruct (nonempty_list salinity_range) as [ls|] eqn:Es;
     [unfold getitem;
      destruct (ls !! 0%nat) as [slo|] eqn:Es0; [|discriminate];
      destruct (ls !! 1%nat) as [shi|] eqn:Es1; [|discriminate]|]);
    cbn [bind]; intros [= <-];
    (split; [intros r Hr Hne; specialize (H0 r Hr Hne); set_solver|]);
    (split; [intros d Hd; specialize (H1 d Hd); set_solver|]);
    (split; [intros d Hd; specialize (H2 d Hd); set_solver|]);
    (split; [intros l [= <-] || (intros l Hl; discriminate)
            |intros l [= <-] || (intros l Hl; discriminate)]);
    try (eexists _, _; repeat split; [eassumption|eassumption|set_solver..]).
Qed.

(** C4, as amended. A successful query returns at most 1000 rows, and every
    returned row meets every filter the function applies: the region when
    one is given that is neither empty nor ["Unknown"], the start and the
    end time when given and not empty, the temperature range and the
    salinity range when given and not empty. *)
Theorem query_rows_meet_applied_filters `{Library} (io : init_outcome)
  (fault : option exn) (table : list ARGOFloat.t)
  (region start_date end_date : option string)
  (temperature_range salinity_range : option (list float))
  (count : nat) (data : list Row.t) (logs : list log_record) :
  query_argo_data io fault table region start_date end_date temperature_range
    salinity_range = (Return (Success count data), logs) ->
  count = length data
  /\ (length data <= 1000)%nat
  /\ Forall (fun row =>
       (forall r, nonempty_string region = Some r -> r <> "Unknown" ->
                  Row.ocean_region row = r)
       /\ (forall d, nonempty_string start_date = Some d ->
             exists t, parse_timestamp d = Some t /\ (t <= Row.time row)%Z)
       /\ (forall d, nonempty_string end_date = Some d ->
             exists t, parse_timestamp d = Some t /\ (Row.time row <= t)%Z)
       /\ (forall l, nonempty_list temperature_range = Some l ->
             exists lo hi, l !! 0%nat = Some lo /\ l !! 1%nat = Some hi
                           /\ in_range lo hi (Row.temperature row))
       /\ (forall l, nonempty_list salinity_range = Some l ->
             exists lo hi, l !! 0%nat = Some lo /\ l !! 1%nat = Some hi
                           /\ in_range lo hi (Row.salinity row)))
       data.
Proof.
  unfold query_argo_data.
  destruct (initialize_database io new_processor) as [[ok processor] log_init].
  destruct (negb (Session processor)); [discriminate|].
  destruct (build_query region start_date end_date temperature_range
              salinity_range) as [q|] eqn:Eq; [|discriminate].
  cbn [bind].
  destruct (limit_all fault table q) as [results|] eqn:Er; [|discriminate].
  intros [= <- <- _].
  apply limit_all_spec in Er as [Hlen Hall].
  apply build_query_members in Eq as (Hreg & Hstart & Hend & Htemp & Hsal).
  rewrite length_map. split; [reflexivity|]. split; [exact Hlen|].
  apply Forall_map. eapply Forall_impl; [exact Hall|].
  intros r Hr. cbn [to_row Row.ocean_region Row.time Row.temperature Row.salinity].
  split; [|split; [|split; [|split]]].
  - intros reg Hreg1 Hne. destruct (Hr _ (Hreg reg Hreg1 Hne)) as (f & Hf & Hfr).
    cbn [compile] in Hf. injection Hf as <-. apply bool_decide_eq_true in Hfr.
    exact Hfr.
  - intros d Hd. destruct (Hr _ (Hstart d Hd)) as (f & Hf & Hfr).
    cbn [compile] in Hf. destruct (parse_timestamp d) as [t|]; [|discriminate].
    injection Hf as <-. exists t. split; [reflexivity|]. apply Z.leb_le. exact Hfr.
  - intros d Hd. destruct (Hr _ (Hend d Hd)) as (f & Hf & Hfr).
    cbn [compile] in Hf. destruct (parse_timestamp d) as [t|]; [|discriminate].
    injection Hf as <-. exists t. split; [reflexivity|]. apply Z.leb_le. exact Hfr.
  - intros l Hl. destruct (Htemp l Hl) as (lo & hi & H0 & H1 & Hge & Hle).
    exists lo, hi. split; [exact H0|]. split; [exact H1|].
    destruct (Hr _ Hge) as (f & Hf & Hfr), (Hr _ Hle) as (g & Hg & Hgr).
    cbn [compile] in Hf, Hg. injection Hf as <-. injection Hg as <-.
    split; assumption.
  - intros l Hl. destruct (Hsal l Hl) as (lo & hi & H0 & H1 & Hge & Hle).
    exists lo, hi. split; [exact H0|]. split; [exact H1|].
    destruct (Hr _ Hge) as (f & Hf & Hfr), (Hr _ Hle) as (g & Hg & Hgr).
    cbn [compile] in Hf, Hg. injection Hf as <-. injection Hg as <-.
    split; assumption.
Qed.

(** * Examples *)

(** The end-to-end example of the specification: a profile at 45 N, 100 W
    with three levels, one of them without temperature, decodes to two
    measurements and one summary of score 2/3 in the North Atlantic. *)
Example decode_example :
  let r := (@process_netcdf_file example_library example_open example_clock
              "data/a.nc").1 in
  map ARGOFloat.id r.1 = ["test_1000_7_0"; "test_1000_7_2"]
  /\ (ARGOProfile.id <$> r.2) = Some "test_1000_7"
  /\ (ARGOProfile.data_quality_score <$> r.2) = Some (quality 2 3)
  /\ (ARGOProfile.ocean_region <$> r.2) = Some "North Atlantic"
  /\ (ARGOProfile.summary_text <$> r.2)
     = Some ("ARGO float test_1000 profile 7 at 45.00°N -100.00°E in "
             +:+ "North Atlantic with 2 measurements. Temperature range: "
             +:+ "10.00-12.00°C, Salinity range: 35.00-36.00 PSU, "
             +:+ "Depth range: 0-20m").
Proof. vm_compute. repeat split. Qed.

(** A run over the example directory: the unreadable file is skipped, and
    the file of three cycles adds its four measurements but one summary,
    that of its last cycle with a valid level. *)
Example directory_example :
  let st := (@process_directory example_library example_env "data"
               initial_state).2 in
  row_count (db st) = (6%nat, 2%nat)
  /\ map fst (vector_store (self st)) = ["test_1000_7"; "test_1001_8"]
  /\ argo_profiles (db st) !! "test_1001_7" = None
  /\ (ARGOProfile.num_measurements <$> argo_profiles (db st) !! "test_1001_8")
     = Some 2%nat.
Proof. vm_compute. repeat split. Qed.

(** The order of the rules decides where boxes overlap, and the two
    half-planes are open. *)
Example region_examples :
  determine_ocean_region (float_of_int 0) (float_of_int 60) = "South Pacific"
  /\ rule_matches (Box 20 120 (-40) 30) (float_of_int 0) (float_of_int 60) = true
  /\ determine_ocean_region (float_of_int 20) (float_of_int 100) = "North Pacific"
  /\ determine_ocean_region (float_of_int 70) (float_of_int 0) = "Unknown"
  /\ determine_ocean_region (float_of_int 71) (float_of_int 0) = "Arctic Ocean"
  /\ determine_ocean_region S754_nan (float_of_int 0) = "Unknown".
Proof. vm_compute. repeat split. Qed.


Lemma only_last_profile_summary_returned_witness :
  exists (cs : list decoded) (ms_last : list ARGOFloat.t) (p : ARGOProfile.t),
    @contributions example_library example_clock "data/b.nc" "test_1001"
      [example_slot; example_slot_late; example_slot_blank] 0
    = map Return cs
    /\ Forall2 (fun s c => length c.1 = valid_levels_of s)
         [example_slot; example_slot_late; example_slot_blank] cs
    /\ cs !! 1%nat = Some (ms_last, Some p)
    /\ ARGOProfile.cycle_number p = 8
    /\ ARGOProfile.num_measurements p = 2%nat
    /\ (@process_netcdf_file example_library example_open example_clock
          "data/b.nc").1
       = (concat (map fst cs), Some p).
Proof.
  apply (@only_last_profile_summary_returned example_library example_open
           example_clock "data/b.nc" example_dataset_cycles [example_slot]
           [example_slot_blank] example_slot_late).
  - reflexivity.
  - reflexivity.
  - repeat constructor.
  - vm_compute. discriminate.
  - repeat constructor.
Defined.

(** C3. On a fresh processor the text ["ocean temperature"] embeds into a
    vector of length 2, the size of the vocabulary just fitted, while the
    text ["the"], on which fitting fails, gets the fallback vector of length
    1000: the two paths do not return vectors of one fixed length. *)
Theorem embedding_lengths_differ :
  length (@create_vector_embedding example_library None "ocean temperature").1.1
  = 2%nat
  /\ (@create_vector_embedding example_library None "ocean temperature").1.2
     = Some ["ocean"; "temperature"]
  /\ (@create_vector_embedding example_library None "the").1.1 = np_zeros 1000
  /\ length (@create_vector_embedding example_library None "the").1.1
     = 1000%nat.
Proof. vm_compute. repeat split. Qed.

(** The claim C8 fails as stated: after ["the"] and ["ocean"] the vocabulary
    is the one of the second text, not what the first call left. *)
Lemma fit_not_on_first_text :
  ~ (forall (first : string) (rest : list string),
       (@embed_each example_library None (first :: rest)).2
       = (@create_vector_embedding example_library None first).1.2).
Proof.
  intros Hclaim. specialize (Hclaim "the" ["ocean"]).
  vm_compute in Hclaim. discriminate.
Qed.

Lemma vocabulary_frozen_after_first_fit_witness :
  Forall (fun text => exists e, @fit example_library text = Raise e) ["the"]
  /\ @fit example_library "ocean temperature" = Return ["ocean"; "temperature"]
  /\ @embed_each example_library None ["the"; "ocean temperature"; "warm ocean"]
     = ([np_zeros 1000;
         @transform example_library ["ocean"; "temperature"] "ocean temperature";
         @transform example_library ["ocean"; "temperature"] "warm ocean"],
        Some ["ocean"; "temperature"]).
Proof.
  assert (Hskipped : Forall (fun text => exists e,
                               @fit example_library text = Raise e) ["the"]).
  { constructor; [exists ValueError; reflexivity|constructor]. }
  assert (Hfit : @fit example_library "ocean temperature"
                 = Return ["ocean"; "temperature"]) by reflexivity.
  split; [exact Hskipped|]. split; [exact Hfit|].
  exact (proj1 (@vocabulary_frozen_after_first_fit example_library ["the"]
                  ["warm ocean"] "ocean temperature" ["ocean"; "temperature"]
                  Hskipped Hfit)).
Defined.

(** The claim C6 fails as stated, twice: on an index whose one entry holds
    the fallback vector the query finds nothing although M = 1 and
    [top_k] = 5, and with [top_k] = -1 an index of three entries yields two
    hits. *)
Lemma search_count_counterexample :
  (length (vector_store stop_word_index) = 1%nat
   /\ (@search_similar_profiles example_library stop_word_index "ocean" 5).1.1
      = [])
  /\ (length (vector_store example_index) = 3%nat
      /\ map profile_id
           (@search_similar_profiles example_library example_index "ocean"
              (-1)).1.1
         = ["p1"; "p3"]).
Proof. vm_compute. repeat split. Qed.

Lemma search_returns_top_k_ranked_witness :
  (0 <= 2)%Z
  /\ @comparable example_library
       (@create_vector_embedding example_library (vectorizer example_index)
          "ocean").1.1
       (vector_store example_index)
  /\ map profile_id
       (@search_similar_profiles example_library example_index "ocean" 2).1.1
     = ["p1"; "p3"]
  /\ length
       (@search_similar_profiles example_library example_index "ocean" 2).1.1
     = Nat.min (length (vector_store example_index)) (Z.to_nat 2).
Proof.
  assert (Hk : (0 <= 2)%Z) by lia.
  assert (Hc : @comparable example_library
                 (@create_vector_embedding example_library
                    (vectorizer example_index) "ocean").1.1
                 (vector_store example_index)).
  { split; [vm_compute; discriminate|]. split; [vm_compute; reflexivity|].
    repeat (constructor; [vm_compute; repeat split|]). constructor. }
  split; [exact Hk|]. split; [exact Hc|]. split; [vm_compute; reflexivity|].
  destruct (@search_returns_top_k_ranked example_library example_index "ocean"
              2 Hk Hc) as (hits & ranked & _ & _ & _ & _ & _ & Hlen).
  exact Hlen.
Defined.

Lemma save_then_load_same_results_witness :
  (forall x : pickled,
      @pickle_loads example_library (@pickle_dumps example_library x) = Return x)
  /\ (@search_similar_profiles example_library
        (@load_vector_store example_library new_processor "index.pkl"
           (@save_vector_store example_library (@WriteOk example_library)
              example_index "index.pkl" ∅).1).1.2
        "ocean" 2).1.1
     = (@search_similar_profiles example_library example_index "ocean" 2).1.1.
Proof.
  assert (Hpickle : forall x : pickled,
             @pickle_loads example_library (@pickle_dumps example_library x)
             = Return x) by (intros x; reflexivity).
  split; [exact Hpickle|].
  exact (proj2 (proj2 (proj2
           (@save_then_load_same_results example_library example_index
              "index.pkl" ∅ "ocean" 2 Hpickle)))).
Defined.

(** The claim C5 fails as stated: the index entry of ["data/a.nc"] cannot be
    built, the run goes on and returns, and the two measurements and the
    summary of that file are in the tables. *)
Lemma indexing_failure_keeps_rows :
  entry_fault entry_fault_env "data/a.nc" = Some ValueError
  /\ (@process_directory example_library entry_fault_env "data"
        initial_state).1 = Return ()
  /\ row_count (db initial_state) = (0%nat, 0%nat)
  /\ row_count
       (db (@process_directory example_library entry_fault_env "data"
              initial_state).2)
     = (2%nat, 1%nat)
  /\ vector_store
       (self (@process_directory example_library entry_fault_env "data"
                initial_state).2)
     = [].
Proof. vm_compute. repeat split. Qed.

Lemma process_directory_isolates_files_witness :
  path_exists example_env "data" = true
  /\ path_exists example_env "nowhere" = false
  /\ (@process_directory example_library example_env "nowhere" initial_state)
     = (Return (), log [ERROR (DirectoryMissing "nowhere")] initial_state)
  /\ (@process_directory example_library example_env "data" initial_state)
     = (Return (),
        fold_left
          (fun s nc_file => (@process_file example_library example_env s
                               nc_file).2)
          ["data/a.nc"; "data/c.nc"; "data/b.nc"]
          (log [INFO (FoundFiles 3)] initial_state))
  /\ db (@process_file example_library example_env initial_state "data/c.nc").2
     = db initial_state.
Proof.
  assert (Hyes : path_exists example_env "data" = true) by reflexivity.
  assert (Hno : path_exists example_env "nowhere" = false) by reflexivity.
  split; [exact Hyes|]. split; [exact Hno|].
  destruct (@process_directory_isolates_files example_library example_env
              "data" initial_state) as (_ & Hrun & Hfile).
  destruct (@process_directory_isolates_files example_library example_env
              "nowhere" initial_state) as (Hmissing & _ & _).
  split; [exact (Hmissing Hno)|]. split; [exact (Hrun Hyes)|].
  destruct (Hfile initial_state "data/c.nc") as (_ & Hempty & _).
  exact (proj1 (Hempty eq_refl)).
Defined.

(** The claim C4 fails as stated: the region filter ["Unknown"] is given and
    the query returns rows of the North Atlantic. *)
Lemma unknown_region_not_filtered :
  (@query_argo_data example_library InitOk None example_table (Some "Unknown")
     None None None None).1
  = Return (Success 3 (map to_row example_table))
  /\ Exists (fun row => Row.ocean_region row <> "Unknown")
       (map to_row example_table).
Proof.
  split; [vm_compute; reflexivity|].
  apply Exists_cons_hd. vm_compute. discriminate.
Qed.

Lemma query_rows_meet_applied_filters_witness :
  @query_argo_data example_library InitOk None example_table
    (Some "North Atlantic") (Some "20240101") None
    (Some [float_of_int 5; float_of_int 15]) None
  = (Return (Success 1 [to_row (example_row "test_1000_1_0" "North Atlantic" 10)]),
     [INFO DatabaseInitialized])
  /\ Forall (fun row =>
               Row.ocean_region row = "North Atlantic"
               /\ (exists lo hi,
                     [float_of_int 5; float_of_int 15] !! 0%nat = Some lo
                     /\ [float_of_int 5; float_of_int 15] !! 1%nat = Some hi
                     /\ in_range lo hi (Row.temperature row)))
       [to_row (example_row "test_1000_1_0" "North Atlantic" 10)].
Proof.
  assert (Hq : @query_argo_data example_library InitOk None example_table
                 (Some "North Atlantic") (Some "20240101") None
                 (Some [float_of_int 5; float_of_int 15]) None
               = (Return (Success 1
                            [to_row (example_row "test_1000_1_0"
                                       "North Atlantic" 10)]),
                  [INFO DatabaseInitialized])) by (vm_compute; reflexivity).
  split; [exact Hq|].
  destruct (@query_rows_meet_applied_filters example_library _ _ _ _ _ _ _ _
              _ _ _ Hq) as (_ & _ & Hall).
  eapply Forall_impl; [exact Hall|].
  intros row (Hregion & _ & _ & Htemp & _). split.
  - apply Hregion; [reflexivity|discriminate].
  - apply Htemp. reflexivity.
Defined.

(* ===================================================================== *)
(** * Further properties of the code *)
(* ===================================================================== *)

(** ** Order of doubles, continued *)

Lemma fle_rank (x y : float) :
  fle x y = true <->
  isnan x = false /\ isnan y = false /\ lex_le (rank x) (rank y).
Proof.
  unfold fle, SFleb, lex_le.
  destruct x as [sx|sx| |sx mx ex], y as [sy|sy| |sy my ey]; simpl;
    try destruct sx; try destruct sy; simpl;
    try (split; [intros E; try discriminate E; repeat split; lia
                |intros (E1 & E2 & E3); try discriminate E1;
                 try discriminate E2; try reflexivity; lia]).
  all: change (Pos.compare_cont Eq mx my) with (Pos.compare mx my).
  all: destruct (Z.compare_spec ex ey); destruct (Pos.compare_spec mx my);
    simpl; subst;
    (split; [intros E; try discriminate E; repeat split; lia
            |intros (_ & _ & E); try reflexivity; lia]).
Qed.

Lemma flt_rank (x y : float) :
  flt x y = true <->
  isnan x = false /\ isnan y = false /\ lex_lt (rank x) (rank y).
Proof.
  unfold flt, SFltb, lex_lt.
  destruct x as [sx|sx| |sx mx ex], y as [sy|sy| |sy my ey]; simpl;
    try destruct sx; try destruct sy; simpl;
    try (split; [intros E; try discriminate E; repeat split; lia
                |intros (E1 & E2 & E3); try discriminate E1;
                 try discriminate E2; try reflexivity; lia]).
  all: change (Pos.compare_cont Eq mx my) with (Pos.compare mx my).
  all: destruct (Z.compare_spec ex ey); destruct (Pos.compare_spec mx my);
    simpl; subst;
    (split; [intros E; try discriminate E; repeat split; lia
            |intros (_ & _ & E); try reflexivity; lia]).
Qed.

Lemma fle_trans (x y z : float) :
  fle x y = true -> fle y z = true -> fle x z = true.
Proof.
  rewrite !fle_rank. unfold lex_le.
  destruct (rank x) as [[a1 a2] a3], (rank y) as [[b1 b2] b3],
           (rank z) as [[c1 c2] c3]; simpl.
  intros (? & ? & ?) (? & ? & ?). repeat split; try assumption. lia.
Qed.

Lemma fle_refl (x : float) : isnan x = false -> fle x x = true.
Proof.
  intros Hx. apply fle_rank. unfold lex_le. repeat split; try assumption.
  destruct (rank x) as [[a1 a2] a3]; simpl. lia.
Qed.

Lemma flt_fle (x y : float) : flt x y = true -> fle x y = true.
Proof.
  rewrite flt_rank, fle_rank. unfold lex_lt, lex_le.
  destruct (rank x) as [[a1 a2] a3], (rank y) as [[b1 b2] b3]; simpl.
  intros (? & ? & ?). repeat split; try assumption. lia.
Qed.

(** A strict comparison excludes the converse large one. *)
Lemma flt_not_fle (x y : float) : flt x y = true -> fle y x = false.
Proof.
  intros Hlt. destruct (fle y x) eqn:E; [|reflexivity].
  apply flt_rank in Hlt as (_ & _ & Hlt). apply fle_rank in E as (_ & _ & E).
  unfold lex_lt, lex_le in *.
  destruct (rank x) as [[a1 a2] a3], (rank y) as [[b1 b2] b3]; simpl in *. lia.
Qed.

(** ** Unit conversion *)

Lemma shr_1_nonneg (mrs : shr_record) :
  (0 <= shr_m mrs)%Z -> (0 <= shr_m (shr_1 mrs))%Z.
Proof.
  destruct mrs as [m r s]. simpl.
  destruct m as [|p|p]; [simpl; lia| |lia].
  intros _. destruct p; simpl; lia.
Qed.

Lemma iter_pos_shr_1_nonneg (p : positive) :
  forall mrs, (0 <= shr_m mrs)%Z -> (0 <= shr_m (SpecFloat.iter_pos shr_1 p mrs))%Z.
Proof.
  induction p as [p IH|p IH|]; intros mrs Hm; simpl.
  - apply IH, IH, shr_1_nonneg, Hm.
  - apply IH, IH, Hm.
  - apply shr_1_nonneg, Hm.
Qed.

Lemma shr_fexp_nonneg (m e : Z) (l : location) :
  (0 <= m)%Z -> (0 <= shr_m (shr_fexp prec emax m e l).1)%Z.
Proof.
  intros Hm. unfold shr_fexp, shr.
  assert (H0 : (0 <= shr_m (shr_record_of_loc m l))%Z)
    by (destruct l as [|[]]; exact Hm).
  destruct (_ - e)%Z; simpl; try exact H0.
  apply iter_pos_shr_1_nonneg, H0.
Qed.

(** Rounding a non-negative mantissa never yields NaN. *)
Lemma binary_round_aux_not_nan (sx : bool) (mx ex : Z) (lx : location) :
  (0 <= mx)%Z -> isnan (binary_round_aux prec emax sx mx ex lx) = false.
Proof.
  intros Hm. unfold binary_round_aux.
  pose proof (shr_fexp_nonneg mx ex lx Hm) as H1.
  destruct (shr_fexp prec emax mx ex lx) as [mrs' e']. simpl in H1.
  assert (H2 : (0 <= round_nearest_even (shr_m mrs') (loc_of_shr_record mrs'))%Z).
  { unfold round_nearest_even.
    destruct (loc_of_shr_record mrs') as [|[]]; try lia.
    destruct (Z.even (shr_m mrs')); lia. }
  pose proof (shr_fexp_nonneg _ e' loc_Exact H2) as H3.
  destruct (shr_fexp prec emax _ e' loc_Exact) as [mrs'' e'']. simpl in H3.
  destruct (shr_m mrs'') as [|p|p]; [reflexivity| |lia].
  destruct (e'' <=? emax - prec)%Z; reflexivity.
Qed.

Lemma pressure_to_depth_isnan (pressure : float) :
  isnan (pressure_to_depth pressure) = isnan pressure.
Proof.
  unfold pressure_to_depth, fmul, depth_factor.
  destruct pressure as [s|s| |s m e]; try reflexivity.
  cbn [SFmul isnan]. apply binary_round_aux_not_nan. lia.
Qed.

(** X1. The depth of a pressure is NaN exactly when the pressure is; a zero
    and an infinite pressure keep their value and sign. *)
Theorem pressure_to_depth_nan_zero_inf (pressure : float) :
  isnan (pressure_to_depth pressure) = isnan pressure
  /\ (forall s, pressure_to_depth (S754_zero s) = S754_zero s)
  /\ (forall s, pressure_to_depth (S754_infinity s) = S754_infinity s).
Proof.
  split; [apply pressure_to_depth_isnan|split; intros []; reflexivity].
Qed.

(** ** Region classifier, continued *)

Lemma fle_false_rank (x y : float) :
  isnan x = false -> isnan y = false -> fle x y = false ->
  lex_lt (rank y) (rank x).
Proof.
  intros Hx Hy Hle. destruct (flt y x) eqn:Hlt.
  - apply flt_rank in Hlt. tauto.
  - rewrite (not_flt_fle y x Hy Hx Hlt) in Hle. discriminate.
Qed.

Lemma flt_false_rank (x y : float) :
  isnan x = false -> isnan y = false -> flt x y = false ->
  lex_le (rank y) (rank x).
Proof.
  intros Hx Hy Hlt. apply (not_flt_fle x y Hx Hy), fle_rank in Hlt. tauto.
Qed.

Lemma isnan_float_of_int (z : Z) : isnan (float_of_int z) = false.
Proof.
  unfold float_of_int, binary_normalize, binary_round.
  destruct z as [|p|p]; [reflexivity| |];
    (destruct (shl_align _ _ _) as [mz ez]; apply binary_round_aux_not_nan; lia).
Qed.

(** Comparisons of a double with the literals of the classifier, as facts
    about ranks. *)
Ltac rank_facts :=
  repeat match goal with
    | H : fle ?a ?b = true |- _ =>
        apply fle_rank in H; destruct H as (_ & _ & H)
    | H : flt ?a ?b = true |- _ =>
        apply flt_rank in H; destruct H as (_ & _ & H)
    | H : fle ?a ?b = false |- _ =>
        apply fle_false_rank in H; [|assumption || reflexivity..]
    | H : flt ?a ?b = false |- _ =>
        apply flt_false_rank in H; [|assumption || reflexivity..]
    end;
  repeat match goal with
    | H : context [rank (float_of_int ?z)] |- _ =>
        let r := eval vm_compute in (rank (float_of_int z)) in
        change (rank (float_of_int z)) with r in H
    | |- context [rank (float_of_int ?z)] =>
        let r := eval vm_compute in (rank (float_of_int z)) in
        change (rank (float_of_int z)) with r
    end;
  unfold lex_le, lex_lt in *; cbn [fst snd] in *.

(** X2. Beyond the boxes the latitude alone decides: any position north of
    70 degrees is in the Arctic Ocean and any position south of -60 degrees
    in the Southern Ocean, whatever the longitude, NaN included; a NaN
    latitude gives Unknown. *)
Theorem region_by_latitude_alone (lat lon : float) :
  ((float_of_int 70 <? lat)%flt = true ->
     determine_ocean_region lat lon = "Arctic Ocean")
  /\ ((lat <? float_of_int (-60))%flt = true ->
        determine_ocean_region lat lon = "Southern Ocean")
  /\ (isnan lat = true -> determine_ocean_region lat lon = "Unknown").
Proof.
  split; [|split].
  - intros Hlat.
    assert (Hnan : isnan lat = false) by (apply flt_rank in Hlat; tauto).
    assert (H70 : (lat <=? float_of_int 70)%flt = false)
      by (apply flt_not_fle; exact Hlat).
    assert (H10 : (lat <=? float_of_int 10)%flt = false).
    { destruct (lat <=? float_of_int 10)%flt eqn:E; [|reflexivity].
      rank_facts. destruct (rank lat) as [[a b] c]; cbn [fst snd] in *. lia. }
    assert (H30 : (lat <=? float_of_int 30)%flt = false).
    { destruct (lat <=? float_of_int 30)%flt eqn:E; [|reflexivity].
      rank_facts. destruct (rank lat) as [[a b] c]; cbn [fst snd] in *. lia. }
    unfold determine_ocean_region.
    rewrite H70, H10, H30, Hlat, ?andb_false_r. reflexivity.
  - intros Hlat.
    assert (Hnan : isnan lat = false) by (apply flt_rank in Hlat; tauto).
    assert (H60 : (float_of_int (-60) <=? lat)%flt = false)
      by (apply flt_not_fle; exact Hlat).
    assert (H10 : (float_of_int 10 <=? lat)%flt = false).
    { destruct (float_of_int 10 <=? lat)%flt eqn:E; [|reflexivity].
      rank_facts. destruct (rank lat) as [[a b] c]; cbn [fst snd] in *. lia. }
    assert (H40 : (float_of_int (-40) <=? lat)%flt = false).
    { destruct (float_of_int (-40) <=? lat)%flt eqn:E; [|reflexivity].
      rank_facts. destruct (rank lat) as [[a b] c]; cbn [fst snd] in *. lia. }
    assert (H70 : (float_of_int 70 <? lat)%flt = false).
    { destruct (float_of_int 70 <? lat)%flt eqn:E; [|reflexivity].
      rank_facts. destruct (rank lat) as [[a b] c]; cbn [fst snd] in *. lia. }
    unfold determine_ocean_region.
    rewrite H60, H10, H40, H70, Hlat, ?andb_false_r. simpl.
    rewrite ?andb_false_r. reflexivity.
  - intros Hnan. destruct lat; try discriminate.
    unfold determine_ocean_region.
    replace (S754_nan <=? float_of_int 70)%flt with false by reflexivity.
    replace (S754_nan <=? float_of_int 10)%flt with false by reflexivity.
    replace (S754_nan <=? float_of_int 30)%flt with false by reflexivity.
    rewrite ?andb_false_r. reflexivity.
Qed.

(** X3. The label "Indian Ocean" is given exactly on the part of rule 5 that
    the earlier rules leave: longitudes from 20 up to but excluding 60 and
    latitudes above 10 up to 30.  The rest of its box is labelled South
    Atlantic, South Pacific or North Pacific by rules 3, 4 and 2. *)
Theorem indian_ocean_exactly (lat lon : float) :
  determine_ocean_region lat lon = "Indian Ocean" <->
  (float_of_int 20 <=? lon)%flt = true /\ (lon <? float_of_int 60)%flt = true
  /\ (float_of_int 10 <? lat)%flt = true /\ (lat <=? float_of_int 30)%flt = true.
Proof.
  split.
  - unfold determine_ocean_region.
    match goal with
    | |- (if ?c then _ else _) = _ -> _ => destruct c eqn:C1; [discriminate|]
    end.
    match goal with
    | |- (if ?c then _ else _) = _ -> _ => destruct c eqn:C2; [discriminate|]
    end.
    match goal with
    | |- (if ?c then _ else _) = _ -> _ => destruct c eqn:C3; [discriminate|]
    end.
    match goal with
    | |- (if ?c then _ else _) = _ -> _ => destruct c eqn:C4; [discriminate|]
    end.
    match goal with
    | |- (if ?c then _ else _) = _ -> _ =>
        destruct c eqn:C5;
          [|destruct (_ <? _)%flt; [discriminate|];
            destruct (_ <? _)%flt; discriminate]
    end.
    intros _. clear C1 C3.
    repeat rewrite andb_true_iff in C5. destruct C5 as (((A & B) & C) & D).
    assert (Hlon : isnan lon = false) by (apply fle_rank in A; tauto).
    assert (Hlat : isnan lat = false) by (apply fle_rank in D; tauto).
    repeat rewrite andb_false_iff in C2. repeat rewrite andb_false_iff in C4.
    split; [exact A|].
    assert (Hlat10 : (float_of_int 10 <? lat)%flt = true).
    { destruct (float_of_int 10 <? lat)%flt eqn:E; [reflexivity|]. exfalso.
      destruct C4 as [[[C4|C4]|C4]|C4]; rank_facts; lia. }
    split; [|split; [exact Hlat10|exact D]].
    destruct (lon <? float_of_int 60)%flt eqn:E; [reflexivity|]. exfalso.
    destruct C2 as [[[C2|C2]|C2]|C2]; rank_facts; lia.
  - intros (A & B & C & D).
    assert (Hlon : isnan lon = false) by (apply fle_rank in A; tauto).
    assert (Hlat : isnan lat = false) by (apply fle_rank in D; tauto).
    rank_facts. unfold determine_ocean_region.
    repeat match goal with
           | |- context [fle ?a ?b] =>
               destruct (fle a b) eqn:?;
                 [try (exfalso; rank_facts; lia)|try (exfalso; rank_facts; lia)]
           | |- context [flt ?a ?b] =>
               destruct (flt a b) eqn:?;
                 [try (exfalso; rank_facts; lia)|try (exfalso; rank_facts; lia)]
           end.
    all: reflexivity.
Qed.

(** ** Decoder, continued *)

Lemma fold_min_spec (rest : list float) :
  forall (seen : list float) (cur : float),
    Forall (fun x => isnan x = false) seen ->
    Forall (fun x => isnan x = false) rest ->
    In cur seen -> Forall (fun x => fle cur x = true) seen ->
    let m := fold_left (fun cur item => if (item <? cur)%flt then item else cur)
               rest cur in
    In m (seen ++ rest) /\ Forall (fun x => fle m x = true) (seen ++ rest).
Proof.
  induction rest as [|item rest IH]; intros seen cur Hseen Hrest Hin Hle; simpl.
  - rewrite app_nil_r. auto.
  - apply Forall_cons in Hrest as [Hitem Hrest].
    assert (Hcur : isnan cur = false)
      by (rewrite Forall_forall in Hseen; apply Hseen, list_elem_of_In, Hin).
    replace (seen ++ item :: rest)%list with ((seen ++ [item]) ++ rest)%list
      by (rewrite <- app_assoc; reflexivity).
    apply IH.
    + apply Forall_app. split; [exact Hseen|]. constructor; [exact Hitem|constructor].
    + exact Hrest.
    + destruct (item <? cur)%flt; apply in_or_app; [right; left; reflexivity|left; exact Hin].
    + destruct (item <? cur)%flt eqn:E.
      * apply Forall_app. split.
        -- eapply Forall_impl; [exact Hle|]. intros x Hx. simpl in Hx.
           eapply fle_trans; [apply flt_fle, E|exact Hx].
        -- constructor; [apply fle_refl, Hitem|constructor].
      * apply Forall_app. split; [exact Hle|].
        constructor; [|constructor]. apply not_flt_fle; assumption.
Qed.

Lemma fold_max_spec (rest : list float) :
  forall (seen : list float) (cur : float),
    Forall (fun x => isnan x = false) seen ->
    Forall (fun x => isnan x = false) rest ->
    In cur seen -> Forall (fun x => fle x cur = true) seen ->
    let m := fold_left (fun cur item => if (cur <? item)%flt then item else cur)
               rest cur in
    In m (seen ++ rest) /\ Forall (fun x => fle x m = true) (seen ++ rest).
Proof.
  induction rest as [|item rest IH]; intros seen cur Hseen Hrest Hin Hle; simpl.
  - rewrite app_nil_r. auto.
  - apply Forall_cons in Hrest as [Hitem Hrest].
    assert (Hcur : isnan cur = false)
      by (rewrite Forall_forall in Hseen; apply Hseen, list_elem_of_In, Hin).
    replace (seen ++ item :: rest)%list with ((seen ++ [item]) ++ rest)%list
      by (rewrite <- app_assoc; reflexivity).
    apply IH.
    + apply Forall_app. split; [exact Hseen|]. constructor; [exact Hitem|constructor].
    + exact Hrest.
    + destruct (cur <? item)%flt; apply in_or_app; [right; left; reflexivity|left; exact Hin].
    + destruct (cur <? item)%flt eqn:E.
      * apply Forall_app. split.
        -- eapply Forall_impl; [exact Hle|]. intros x Hx. simpl in Hx.
           eapply fle_trans; [exact Hx|apply flt_fle, E].
        -- constructor; [apply fle_refl, Hitem|constructor].
      * apply Forall_app. split; [exact Hle|].
        constructor; [|constructor]. apply not_flt_fle; assumption.
Qed.

(** [min] of a non-empty list without NaN is its least element. *)
Lemma py_min_spec (l : list float) :
  l <> [] -> Forall (fun x => isnan x = false) l ->
  exists m, py_min l = Return m /\ In m l
            /\ Forall (fun x => fle m x = true) l.
Proof.
  intros Hne Hnan. destruct l as [|x rest]; [congruence|].
  apply Forall_cons in Hnan as [Hx Hrest].
  eexists. split; [reflexivity|].
  apply (fold_min_spec rest [x] x); auto.
  - left. reflexivity.
  - constructor; [apply fle_refl, Hx|constructor].
Qed.

Lemma py_max_spec (l : list float) :
  l <> [] -> Forall (fun x => isnan x = false) l ->
  exists m, py_max l = Return m /\ In m l
            /\ Forall (fun x => fle x m = true) l.
Proof.
  intros Hne Hnan. destruct l as [|x rest]; [congruence|].
  apply Forall_cons in Hnan as [Hx Hrest].
  eexists. split; [reflexivity|].
  apply (fold_max_spec rest [x] x); auto.
  - left. reflexivity.
  - constructor; [apply fle_refl, Hx|constructor].
Qed.

Lemma make_range_spec `{Library} (l : list float) :
  l <> [] -> Forall (fun x => isnan x = false) l ->
  exists rg, make_range l = Return rg /\ bounds_of rg l.
Proof.
  intros Hne Hnan. unfold make_range.
  destruct (py_min_spec l Hne Hnan) as (lo & -> & Hlo & Hlo').
  destruct (py_max_spec l Hne Hnan) as (hi & -> & Hhi & Hhi').
  eexists. split; [reflexivity|]. unfold bounds_of. simpl.
  split; [exact Hlo|]. split; [exact Hhi|].
  rewrite Forall_forall in *. auto.
Qed.

Section DecoderInvariants.
Context `{Library}.
Variables (file_path platform_number : string) (cycle_number : Z)
          (profile_lat profile_lon : float) (profile_time : timestamp)
          (ocean_region : string).

(** What the level loop appends satisfies any property that holds of a
    measurement made from three readings that are not NaN, and the reading
    lists stay the columns of the measurements. *)
Lemma level_loop_Forall (P : ARGOFloat.t -> Prop) (sals pres : list float) :
  (forall level_idx temp sal pressure,
      isnan temp = false -> isnan sal = false -> isnan pressure = false ->
      P (make_measurement file_path platform_number cycle_number profile_lat
           profile_lon profile_time ocean_region level_idx temp sal pressure)) ->
  forall (temps_rest : list float) (level_idx : nat) (acc acc' : level_acc),
    level_loop file_path platform_number cycle_number profile_lat profile_lon
      profile_time ocean_region sals pres temps_rest level_idx acc
    = Return acc' ->
    Forall P (valid_measurements acc) -> aligned acc ->
    Forall P (valid_measurements acc') /\ aligned acc'.
Proof.
  intros HP. induction temps_rest as [|temp rest IH];
    intros level_idx acc acc' Hrun Hall Hal.
  - injection Hrun as <-. auto.
  - cbn [level_loop] in Hrun.
    destruct (getitem sals level_idx) as [sal|e]; [|discriminate].
    destruct (getitem pres level_idx) as [pressure|e]; [|discriminate].
    cbn [bind] in Hrun.
    destruct (isnan temp) eqn:Ht, (isnan sal) eqn:Hs, (isnan pressure) eqn:Hp;
      cbn [orb negb] in Hrun;
      try (apply (IH _ _ _ Hrun Hall Hal)).
    apply (IH _ _ _ Hrun); cbn [valid_measurements].
    + apply Forall_app. split; [exact Hall|].
      constructor; [apply HP; assumption|constructor].
    + destruct Hal as (A & B & C). unfold aligned. simpl.
      rewrite !map_app, A, B, C. auto.
Qed.
End DecoderInvariants.

Lemma make_measurement_sound (file_path platform_number : string)
  (cycle_number : Z) (lat lon : float) (profile_time : timestamp)
  (level_idx : nat) (temp sal pressure : float) :
  isnan temp = false -> isnan sal = false -> isnan pressure = false ->
  sound_measurement file_path
    (make_measurement file_path platform_number cycle_number lat lon
       profile_time (determine_ocean_region lat lon) level_idx temp sal
       pressure).
Proof.
  intros Ht Hs Hp. unfold sound_measurement. simpl.
  rewrite pressure_to_depth_isnan. auto 10.
Qed.

Lemma aligned_empty : aligned empty_levels.
Proof. repeat split. Qed.

Lemma process_profile_sound `{Library} (now : clock)
  (file_path platform_number : string) (st st' : decoded) (cycle_idx : nat)
  (slot : profile_slot) :
  process_profile now file_path platform_number st cycle_idx slot = Return st' ->
  (Forall (sound_measurement file_path) st.1 ->
   Forall (sound_measurement file_path) st'.1)
  /\ ((st.1 = [] <-> st.2 = None) -> (st'.1 = [] <-> st'.2 = None)).
Proof.
  unfold process_profile. intros Hrun.
  destruct (level_loop _ _ _ _ _ _ _ _ _ _ _ _) as [acc|e] eqn:Hloop;
    [|discriminate].
  cbn [bind] in Hrun.
  destruct (level_loop_Forall _ _ _ _ _ _ _ (sound_measurement file_path) _ _
              (make_measurement_sound _ _ _ _ _ _) _ _ _ _ Hloop
              (Forall_nil_2 _) aligned_empty) as [Hall _].
  destruct (valid_measurements acc) as [|m ms] eqn:Hvalid.
  - injection Hrun as <-. simpl. rewrite app_nil_r. auto.
  - destruct (make_profile _ _ _ _ _ _ _ _ _ _) as [p|e]; [|discriminate].
    injection Hrun as <-. simpl. split.
    + intros Hst. apply Forall_app. auto.
    + intros _. split; [|discriminate].
      intros E. apply app_eq_nil in E as [_ E]. discriminate.
Qed.

Lemma profile_loop_sound `{Library} (now : clock)
  (file_path platform_number : string) (slots : list profile_slot) :
  forall (cycle_idx : nat) (st st' : decoded),
    profile_loop now file_path platform_number slots cycle_idx st = Return st' ->
    (Forall (sound_measurement file_path) st.1 ->
     Forall (sound_measurement file_path) st'.1)
    /\ ((st.1 = [] <-> st.2 = None) -> (st'.1 = [] <-> st'.2 = None)).
Proof.
  induction slots as [|slot rest IH]; intros cycle_idx st st' Hrun.
  - injection Hrun as <-. auto.
  - cbn [profile_loop] in Hrun.
    destruct (process_profile _ _ _ _ _ _) as [st1|e] eqn:Hone; [|discriminate].
    cbn [bind] in Hrun.
    destruct (process_profile_sound _ _ _ _ _ _ _ Hone) as [A1 B1].
    destruct (IH _ _ _ Hrun) as [A2 B2]. auto.
Qed.

Lemma process_netcdf_file_cases `{Library}
  (open_dataset : string -> outcome dataset) (now : clock) (file_path : string) :
  (exists ds st,
      open_dataset file_path = Return ds
      /\ profile_loop now file_path (attr_platform_number ds) (N_PROF ds) 0%nat
           ([], None) = Return st
      /\ process_netcdf_file open_dataset now file_path
         = (st, [INFO (ProcessingFile file_path);
                 INFO (Extracted (length st.1) (count_profiles st.2))]))
  \/ (exists e,
        process_netcdf_file open_dataset now file_path
        = (([], None), [INFO (ProcessingFile file_path);
                        ERROR (ErrorProcessingFile file_path e)])).
Proof.
  unfold process_netcdf_file.
  destruct (open_dataset file_path) as [ds|e]; [|right; eauto].
  cbn [bind].
  destruct (profile_loop _ _ _ _ _ _) as [st|e] eqn:Hloop; [|right; eauto].
  left. exists ds, st. auto.
Qed.

(** X4. Whatever the file holds and whether or not decoding succeeds, every
    measurement [process_netcdf_file] returns has a temperature, a salinity,
    a pressure and a depth that are not NaN; it is flagged "good", carries
    the region of its own position and names the decoded file as its
    source. *)
Theorem decoded_measurements_sound `{Library}
  (open_dataset : string -> outcome dataset) (now : clock) (file_path : string) :
  Forall (sound_measurement file_path)
    (process_netcdf_file open_dataset now file_path).1.1.
Proof.
  destruct (process_netcdf_file_cases open_dataset now file_path)
    as [(ds & st & _ & Hloop & ->)|(e & ->)]; [|constructor].
  apply (profile_loop_sound _ _ _ _ _ _ _ Hloop). constructor.
Qed.

(** X5. A decoded file has a profile summary exactly when it has at least
    one measurement, so the test [if profile_data] of the directory loop
    never fails once [if float_data] has passed. *)
Theorem decoded_summary_iff_measurements `{Library}
  (open_dataset : string -> outcome dataset) (now : clock) (file_path : string) :
  (process_netcdf_file open_dataset now file_path).1.1 = []
  <-> (process_netcdf_file open_dataset now file_path).1.2 = None.
Proof.
  destruct (process_netcdf_file_cases open_dataset now file_path)
    as [(ds & st & _ & Hloop & ->)|(e & ->)]; [|simpl; tauto].
  apply (profile_loop_sound _ _ _ _ _ _ _ Hloop). simpl. tauto.
Qed.

(** X6. The summary of a profile bounds its measurements: each of the three
    ranges holds the least and the greatest reading of the measurements
    decoded from that profile, and [max_depth] is the greatest of their
    depths. *)
Theorem profile_ranges_bound_measurements `{Library} (now : clock)
  (file_path platform_number : string) (cycle_idx : nat) (slot : profile_slot)
  (float_data : list ARGOFloat.t) (p : ARGOProfile.t) :
  slot_contribution now file_path platform_number cycle_idx slot
  = Return (float_data, Some p) ->
  bounds_of (ARGOProfile.temperature_range p)
    (map ARGOFloat.temperature float_data)
  /\ bounds_of (ARGOProfile.salinity_range p)
       (map ARGOFloat.salinity float_data)
  /\ bounds_of (ARGOProfile.pressure_range p)
       (map ARGOFloat.pressure float_data)
  /\ In (ARGOProfile.max_depth p) (map ARGOFloat.depth float_data)
  /\ Forall (fun d => fle d (ARGOProfile.max_depth p) = true)
       (map ARGOFloat.depth float_data)
  /\ ARGOProfile.num_measurements p = length float_data.
Proof.
  unfold slot_contribution, process_profile. intros Hrun.
  destruct (level_loop _ _ _ _ _ _ _ _ _ _ _ _) as [acc|e] eqn:Hloop;
    [|discriminate].
  cbn [bind fst snd app] in Hrun.
  destruct (level_loop_Forall _ _ _ _ _ _ _ (sound_measurement file_path) _ _
              (make_measurement_sound _ _ _ _ _ _) _ _ _ _ Hloop
              (Forall_nil_2 _) aligned_empty) as [Hall (Ht & Hs & Hp)].
  destruct (valid_measurements acc) as [|m ms] eqn:Hvalid;
    [discriminate|].
  rewrite <- Hvalid in *.
  assert (Hne : forall f : ARGOFloat.t -> float,
             map f (valid_measurements acc) <> [])
    by (intros f; rewrite Hvalid; discriminate).
  assert (Hnan : forall f : ARGOFloat.t -> float,
             (forall x, sound_measurement file_path x -> isnan (f x) = false) ->
             Forall (fun x => isnan x = false) (map f (valid_measurements acc))).
  { intros f Hf. apply Forall_map. eapply Forall_impl; [exact Hall|]. exact Hf. }
  assert (Nt := Hnan ARGOFloat.temperature ltac:(unfold sound_measurement; tauto)).
  assert (Ns := Hnan ARGOFloat.salinity ltac:(unfold sound_measurement; tauto)).
  assert (Np := Hnan ARGOFloat.pressure ltac:(unfold sound_measurement; tauto)).
  assert (Nd := Hnan ARGOFloat.depth ltac:(unfold sound_measurement; tauto)).
  unfold make_profile in Hrun. rewrite Ht, Hs, Hp in Hrun.
  destruct (py_min_spec _ (Hne _) Nt) as (tmin & Etmin & _).
  destruct (py_max_spec _ (Hne _) Nt) as (tmax & Etmax & _).
  destruct (py_min_spec _ (Hne _) Ns) as (smin & Esmin & _).
  destruct (py_max_spec _ (Hne _) Ns) as (smax & Esmax & _).
  destruct (py_max_spec _ (Hne _) Nd) as (deepest & Ed & Hd1 & Hd2).
  destruct (make_range_spec _ (Hne _) Nt) as (rt & Ert & Hrt).
  destruct (make_range_spec _ (Hne _) Ns) as (rs & Ers & Hrs).
  destruct (make_range_spec _ (Hne _) Np) as (rp & Erp & Hrp).
  rewrite Etmin, Etmax, Esmin, Esmax, Ed in Hrun. cbn [bind] in Hrun.
  rewrite Ert, Ers, Erp in Hrun. cbn [bind] in Hrun.
  destruct (py_truediv _ _) as [score|e]; [|discriminate].
  cbn [bind] in Hrun. injection Hrun as <- <-. simpl. auto 10.
Qed.

(** ** Keys of the measurements *)

Lemma pretty_N_char_no_underscore (x : N) :
  Ascii.eqb (pretty_N_char x) "_" = false.
Proof. unfold pretty_N_char. repeat case_match; reflexivity. Qed.

Lemma pretty_N_go_no_underscore (x : N) :
  forall s, no_underscore s = true -> no_underscore (pretty_N_go x s) = true.
Proof.
  induction (N.lt_wf_0 x) as [x _ IH]. intros s Hs.
  destruct (decide (x = 0%N)) as [->|Hx].
  - rewrite pretty_N_go_0. exact Hs.
  - rewrite pretty_N_go_step by lia. apply IH.
    + apply N.div_lt; lia.
    + cbn [no_underscore]. rewrite pretty_N_char_no_underscore. exact Hs.
Qed.

Lemma pretty_N_no_underscore (x : N) : no_underscore (pretty x) = true.
Proof.
  unfold pretty, pretty_N. destruct (decide (x = 0%N)); [reflexivity|].
  apply pretty_N_go_no_underscore. reflexivity.
Qed.

Lemma pretty_nat_no_underscore (x : nat) : no_underscore (pretty x) = true.
Proof. apply pretty_N_no_underscore. Qed.

Lemma pretty_Z_no_underscore (x : Z) : no_underscore (pretty x) = true.
Proof.
  destruct x as [|p|p]; [reflexivity|apply pretty_N_no_underscore|].
  change (pretty (Z.neg p)) with ("-" +:+ pretty (N.pos p)).
  cbn [String.append no_underscore]. apply pretty_N_no_underscore.
Qed.

(** Two strings cut at their first separator. *)
Lemma split_at_underscore (s1 : string) :
  forall s2 t1 t2 : string,
    no_underscore s1 = true -> no_underscore s2 = true ->
    s1 +:+ String "_" t1 = s2 +:+ String "_" t2 -> s1 = s2 /\ t1 = t2.
Proof.
  induction s1 as [|c s1 IH]; intros [|d s2] t1 t2 H1 H2 E.
  - change (String "_" t1 = String "_" t2) in E. injection E as ->. auto.
  - change (String "_" t1 = String d (s2 +:+ String "_" t2)) in E.
    injection E as <- _. cbn in H2. discriminate.
  - change (String c (s1 +:+ String "_" t1) = String "_" t2) in E.
    injection E as -> _. cbn in H1. discriminate.
  - change (String c (s1 +:+ String "_" t1)
            = String d (s2 +:+ String "_" t2)) in E.
    injection E as -> E. cbn in H1, H2.
    apply andb_prop in H1 as [_ H1]. apply andb_prop in H2 as [_ H2].
    destruct (IH _ _ _ H1 H2 E) as [-> ->]. auto.
Qed.

(** For one platform, the key determines the cycle and the level. *)
Lemma measurement_id_inj (platform_number : string) (c1 c2 : Z) (l1 l2 : nat) :
  measurement_id platform_number c1 l1 = measurement_id platform_number c2 l2 ->
  c1 = c2 /\ l1 = l2.
Proof.
  unfold measurement_id. intros E.
  apply (inj (String.append platform_number)) in E.
  change (String "_" (pretty c1 +:+ String "_" (pretty l1))
          = String "_" (pretty c2 +:+ String "_" (pretty l2))) in E.
  injection E as E.
  apply split_at_underscore in E as [E1 E2];
    [|apply pretty_Z_no_underscore..].
  split; [apply (inj pretty), E1|apply (inj pretty), E2].
Qed.

Section Keys.
Context `{Library}.
Variables (file_path platform_number : string) (cycle_number : Z)
          (profile_lat profile_lon : float) (profile_time : timestamp)
          (ocean_region : string).

(** The keys the level loop appends: one per valid level, the level
    indices increasing. *)
Lemma level_loop_keys (sals pres temps_rest : list float) :
  forall (level_idx : nat) (acc acc' : level_acc),
    level_loop file_path platform_number cycle_number profile_lat profile_lon
      profile_time ocean_region sals pres temps_rest level_idx acc
    = Return acc' ->
    exists levels : list nat,
      map ARGOFloat.id (valid_measurements acc')
      = (map ARGOFloat.id (valid_measurements acc)
           ++ map (measurement_id platform_number cycle_number) levels)%list
      /\ Forall (fun l => (level_idx <= l)%nat) levels
      /\ NoDup levels.
Proof.
  induction temps_rest as [|temp rest IH]; intros level_idx acc acc' Hrun.
  - injection Hrun as <-. exists []. rewrite app_nil_r.
    repeat split; constructor.
  - cbn [level_loop] in Hrun.
    destruct (getitem sals level_idx) as [sal|e]; [|discriminate].
    destruct (getitem pres level_idx) as [pressure|e]; [|discriminate].
    cbn [bind] in Hrun.
    destruct (negb _).
    + destruct (IH _ _ _ Hrun) as (levels & Hids & Hge & Hnd).
      exists (level_idx :: levels). cbn [valid_measurements] in Hids.
      rewrite Hids, map_app, <- app_assoc. split; [reflexivity|].
      split.
      * constructor; [lia|]. eapply Forall_impl; [exact Hge|].
        intros l Hl. simpl in Hl. lia.
      * constructor; [|exact Hnd]. intros Hin.
        rewrite Forall_forall in Hge. specialize (Hge _ Hin). lia.
    + destruct (IH _ _ _ Hrun) as (levels & Hids & Hge & Hnd).
      exists levels. split; [exact Hids|]. split; [|exact Hnd].
      eapply Forall_impl; [exact Hge|]. intros l Hl. simpl in Hl. lia.
Qed.
End Keys.

Lemma process_profile_keys `{Library} (now : clock)
  (file_path platform_number : string) (st st' : decoded) (cycle_idx : nat)
  (slot : profile_slot) :
  process_profile now file_path platform_number st cycle_idx slot = Return st' ->
  exists levels : list nat,
    map ARGOFloat.id st'.1
    = (map ARGOFloat.id st.1
         ++ map (measurement_id platform_number (CYCLE_NUMBER slot)) levels)%list
    /\ NoDup levels.
Proof.
  unfold process_profile. intros Hrun.
  destruct (level_loop _ _ _ _ _ _ _ _ _ _ _ _) as [acc|e] eqn:Hloop;
    [|discriminate].
  cbn [bind] in Hrun.
  destruct (level_loop_keys _ _ _ _ _ _ _ _ _ _ _ _ _ Hloop)
    as (levels & Hids & _ & Hnd).
  cbn [empty_levels valid_measurements map app] in Hids.
  exists levels. split; [|exact Hnd].
  destruct (valid_measurements acc) as [|m ms] eqn:Hvalid.
  - injection Hrun as <-. cbn [fst]. rewrite map_app, Hids. reflexivity.
  - destruct (make_profile _ _ _ _ _ _ _ _ _ _) as [p|e]; [|discriminate].
    injection Hrun as <-. cbn [fst]. rewrite map_app, Hids. reflexivity.
Qed.

Lemma profile_loop_keys `{Library} (now : clock)
  (file_path platform_number : string) (slots : list profile_slot) :
  forall (cycle_idx : nat) (st st' : decoded) (seen : list Z),
    profile_loop now file_path platform_number slots cycle_idx st = Return st' ->
    NoDup (map CYCLE_NUMBER slots) ->
    (forall c, c ∈ seen -> c ∉ map CYCLE_NUMBER slots) ->
    Forall (fun k => exists c l, c ∈ seen
                                 /\ k = measurement_id platform_number c l)
      (map ARGOFloat.id st.1) ->
    NoDup (map ARGOFloat.id st.1) ->
    NoDup (map ARGOFloat.id st'.1).
Proof.
  induction slots as [|slot rest IH];
    intros cycle_idx st st' seen Hrun Hcycles Hseen Hform Hnd.
  - injection Hrun as <-. exact Hnd.
  - cbn [profile_loop] in Hrun.
    destruct (process_profile _ _ _ _ _ _) as [st1|e] eqn:Hone; [|discriminate].
    cbn [bind] in Hrun.
    destruct (process_profile_keys _ _ _ _ _ _ _ Hone) as (levels & Hids & Hlv).
    cbn [map] in Hcycles. apply NoDup_cons in Hcycles as [Hfresh Hcycles].
    apply (IH _ _ _ (CYCLE_NUMBER slot :: seen) Hrun Hcycles).
    + intros c Hc. apply elem_of_cons in Hc as [->|Hc]; [exact Hfresh|].
      specialize (Hseen c Hc). cbn [map] in Hseen. set_solver.
    + rewrite Hids. apply Forall_app. split.
      * eapply Forall_impl; [exact Hform|].
        intros k (c & l & Hc & ->). exists c, l. set_solver.
      * apply Forall_forall. intros k Hk.
        apply list_elem_of_fmap in Hk as (l & -> & _).
        exists (CYCLE_NUMBER slot), l. set_solver.
    + rewrite Hids. apply NoDup_app. split; [exact Hnd|]. split.
      * intros k Hk Hk'. rewrite Forall_forall in Hform.
        destruct (Hform k Hk) as (c & l & Hc & ->).
        apply list_elem_of_fmap in Hk' as (l' & E & _).
        apply measurement_id_inj in E as [-> _].
        apply (Hseen _ Hc). cbn [map]. set_solver.
      * apply NoDup_fmap_2; [|exact Hlv].
        intros l1 l2 E. apply measurement_id_inj in E as [_ E]. exact E.
Qed.

(** X7. When the cycle numbers of the profiles of a file differ from one
    another, so do the keys of all the measurements decoded from it,
    whatever the platform name (underscores included). *)
Theorem distinct_cycles_distinct_keys `{Library}
  (open_dataset : string -> outcome dataset) (now : clock) (file_path : string)
  (ds : dataset) :
  open_dataset file_path = Return ds ->
  NoDup (map CYCLE_NUMBER (N_PROF ds)) ->
  NoDup (map ARGOFloat.id (process_netcdf_file open_dataset now file_path).1.1).
Proof.
  intros Hopen Hcycles.
  destruct (process_netcdf_file_cases open_dataset now file_path)
    as [(ds' & st & Hopen' & Hloop & ->)|(e & ->)]; [|constructor].
  rewrite Hopen in Hopen'. injection Hopen' as <-.
  apply (profile_loop_keys _ _ _ _ _ _ _ [] Hloop Hcycles).
  - intros c Hc. set_solver.
  - constructor.
  - constructor.
Qed.

(** ** Relational store, continued *)

Lemma last_with_id_cons (k : string) (m : ARGOFloat.t) (ms : list ARGOFloat.t) :
  last_with_id k (m :: ms)
  = match last_with_id k ms with
    | Some x => Some x
    | None => if decide (ARGOFloat.id m = k) then Some m else None
    end.
Proof.
  unfold last_with_id. rewrite filter_cons.
  destruct (decide (ARGOFloat.id m = k)); [|destruct (last _); reflexivity].
  rewrite last_cons. reflexivity.
Qed.

(** After the merges a key holds the last measurement that carries it. *)
Lemma lookup_merge_floats (float_data : list ARGOFloat.t) (k : string) :
  forall table : gmap string ARGOFloat.t,
    merge_floats float_data table !! k
    = match last_with_id k float_data with
      | Some m => Some m
      | None => table !! k
      end.
Proof.
  unfold merge_floats.
  induction float_data as [|m ms IH]; intros table; [reflexivity|].
  cbn [fold_left]. rewrite IH, last_with_id_cons.
  destruct (last_with_id k ms); [reflexivity|].
  destruct (decide (ARGOFloat.id m = k)) as [<-|Hne].
  - apply lookup_insert_eq.
  - apply lookup_insert_ne. exact Hne.
Qed.

Lemma merge_floats_idempotent (float_data : list ARGOFloat.t)
  (table : gmap string ARGOFloat.t) :
  merge_floats float_data (merge_floats float_data table)
  = merge_floats float_data table.
Proof.
  apply map_eq. intros k. rewrite !lookup_merge_floats.
  destruct (last_with_id k float_data); reflexivity.
Qed.

Lemma merge_profile_idempotent (profile_data : option ARGOProfile.t)
  (table : gmap string ARGOProfile.t) :
  merge_profile profile_data (merge_profile profile_data table)
  = merge_profile profile_data table.
Proof.
  destruct profile_data as [p|]; [|reflexivity]. simpl.
  apply insert_insert_eq.
Qed.

(** The ways [store_to_postgresql] ends. *)
Lemma store_to_postgresql_cases (io : init_outcome) (session_fault : option exn)
  (self : processor) (db : database) (float_data : list ARGOFloat.t)
  (profile_data : option ARGOProfile.t) :
  let '(r, self', db', _) :=
    store_to_postgresql io session_fault self db float_data profile_data in
  vector_store self' = vector_store self
  /\ vectorizer self' = vectorizer self
  /\ ((r = Return () /\ session_fault = None /\ Session self' = true
       /\ db' = {| argo_floats := merge_floats float_data (argo_floats db);
                   argo_profiles :=
                     merge_profile profile_data (argo_profiles db) |})
      \/ ((exists e, r = Raise e) /\ db' = db)).
Proof.
  unfold store_to_postgresql.
  destruct (engine self); [|destruct io; cbn [initialize_database]];
    cbn [Session vector_store vectorizer];
    (destruct (Session self) eqn:Hs; cbn [negb];
     [|try (destruct session_fault);
       repeat split; eauto 10]);
    destruct session_fault; cbn [vector_store vectorizer Session];
    repeat split; eauto 10.
Qed.

(** X8. Read back after a successful store, a key of [argo_floats] holds
    the last measurement of the batch that carries it, and what it held
    before when the batch has none; the profile table holds the batch's
    summary under its key and is otherwise as before. *)
Theorem store_to_postgresql_lookup (io : init_outcome) (self self' : processor)
  (db db' : database) (float_data : list ARGOFloat.t)
  (profile_data : option ARGOProfile.t) (log : list log_record) (k : string) :
  store_to_postgresql io None self db float_data profile_data
  = (Return (), self', db', log) ->
  argo_floats db' !! k
  = match last_with_id k float_data with
    | Some m => Some m
    | None => argo_floats db !! k
    end
  /\ argo_profiles db' !! k
     = match profile_data with
       | Some p => if decide (ARGOProfile.id p = k) then Some p
                   else argo_profiles db !! k
       | None => argo_profiles db !! k
       end.
Proof.
  intros Hrun.
  pose proof (store_to_postgresql_cases io None self db float_data profile_data)
    as Hcases.
  rewrite Hrun in Hcases.
  destruct Hcases as (_ & _ & [(_ & _ & _ & ->)|([e He] & _)]); [|discriminate].
  cbn [argo_floats argo_profiles]. split; [apply lookup_merge_floats|].
  destruct profile_data as [p|]; [|reflexivity]. simpl.
  destruct (decide (ARGOProfile.id p = k)) as [<-|Hne].
  - apply lookup_insert_eq.
  - apply lookup_insert_ne. exact Hne.
Qed.

(** X9. Storing a batch that was stored already changes nothing: once a
    store has succeeded, a second store of the same measurements and
    summary leaves both tables exactly as they are, whether it succeeds or
    fails. *)
Theorem store_again_same_tables (io1 io2 : init_outcome)
  (fault2 : option exn) (self self1 : processor) (db db1 : database)
  (float_data : list ARGOFloat.t) (profile_data : option ARGOProfile.t)
  (log1 : list log_record) :
  store_to_postgresql io1 None self db float_data profile_data
  = (Return (), self1, db1, log1) ->
  (store_to_postgresql io2 fault2 self1 db1 float_data profile_data).1.2 = db1.
Proof.
  intros Hrun.
  pose proof (store_to_postgresql_cases io1 None self db float_data
                profile_data) as H1.
  rewrite Hrun in H1.
  destruct H1 as (_ & _ & [(_ & _ & _ & Hdb1)|([e He] & _)]); [|discriminate].
  pose proof (store_to_postgresql_cases io2 fault2 self1 db1 float_data
                profile_data) as H2.
  destruct (store_to_postgresql io2 fault2 self1 db1 float_data profile_data)
    as [[[r2 self2] db2] log2].
  cbn [fst snd].
  destruct H2 as (_ & _ & [(_ & _ & _ & ->)|(_ & ->)]); [|reflexivity].
  rewrite Hdb1. cbn [argo_floats argo_profiles].
  rewrite merge_floats_idempotent, merge_profile_idempotent. reflexivity.
Qed.

Lemma size_merge_floats_fresh (float_data : list ARGOFloat.t) :
  forall table : gmap string ARGOFloat.t,
    NoDup (map ARGOFloat.id float_data) ->
    Forall (fun m => table !! ARGOFloat.id m = None) float_data ->
    size (merge_floats float_data table)
    = (size table + length float_data)%nat.
Proof.
  unfold merge_floats.
  induction float_data as [|m ms IH]; intros table Hnd Hfresh; simpl.
  - lia.
  - cbn [map] in Hnd. apply NoDup_cons in Hnd as [Hm Hnd].
    apply Forall_cons in Hfresh as [Hm' Hfresh].
    rewrite IH.
    + rewrite map_size_insert_None by exact Hm'. lia.
    + exact Hnd.
    + apply Forall_forall. intros x Hx.
      rewrite lookup_insert_ne.
      * rewrite Forall_forall in Hfresh. apply Hfresh, Hx.
      * intros E. apply Hm. rewrite E. apply list_elem_of_fmap. eauto.
Qed.

(** X10. No store deletes or loses a row that was there: whatever happens,
    every key of either table is still a key afterwards.  When the store
    succeeds, the keys of the batch are distinct and none is in the table
    yet, [argo_floats] grows by exactly one row per measurement. *)
Theorem store_to_postgresql_row_counts (io : init_outcome)
  (session_fault : option exn) (self : processor) (db : database)
  (float_data : list ARGOFloat.t) (profile_data : option ARGOProfile.t) :
  let '(r, _, db', _) :=
    store_to_postgresql io session_fault self db float_data profile_data in
  dom (argo_floats db) ⊆ dom (argo_floats db')
  /\ dom (argo_profiles db) ⊆ dom (argo_profiles db')
  /\ (r = Return () ->
      NoDup (map ARGOFloat.id float_data) ->
      Forall (fun m => argo_floats db !! ARGOFloat.id m = None) float_data ->
      size (argo_floats db')
      = (size (argo_floats db) + length float_data)%nat).
Proof.
  pose proof (store_to_postgresql_cases io session_fault self db float_data
                profile_data) as Hcases.
  destruct (store_to_postgresql io session_fault self db float_data
              profile_data) as [[[r self'] db'] log].
  destruct Hcases as (_ & _ & [(_ & _ & _ & ->)|([e ->] & ->)]).
  - cbn [argo_floats argo_profiles].
    rewrite dom_merge_floats, dom_merge_profile.
    split; [set_solver|]. split.
    + destruct (ARGOProfile.id <$> profile_data); set_solver.
    + intros _. apply size_merge_floats_fresh.
  - split; [reflexivity|]. split; [reflexivity|]. discriminate.
Qed.

(** ** The index as a dictionary *)

Lemma dict_get_set_eq {V} (k : string) (v : V) (d : dict V) :
  dict_get k (dict_set k v d) = Some v.
Proof.
  induction d as [|[k' v'] d IH]; simpl.
  - destruct (decide (k = k)); [reflexivity|congruence].
  - destruct (decide (k = k')) as [->|Hne]; simpl.
    + destruct (decide (k' = k')); [reflexivity|congruence].
    + destruct (decide (k = k')); [congruence|exact IH].
Qed.

Lemma dict_get_set_ne {V} (k k' : string) (v : V) (d : dict V) :
  k' <> k -> dict_get k' (dict_set k v d) = dict_get k' d.
Proof.
  intros Hne. induction d as [|[k0 v0] d IH]; simpl.
  - destruct (decide (k' = k)); [congruence|reflexivity].
  - destruct (decide (k = k0)) as [->|Hk]; simpl.
    + destruct (decide (k' = k0)); [congruence|reflexivity].
    + destruct (decide (k' = k0)); [reflexivity|exact IH].
Qed.

Lemma keys_dict_set {V} (k : string) (v : V) (d : dict V) :
  keys (dict_set k v d)
  = if decide (k ∈ keys d) then keys d else (keys d ++ [k])%list.
Proof.
  unfold keys. induction d as [|[k' v'] d IH]; simpl.
  - destruct (decide (k ∈ [])) as [Hin|_]; [|reflexivity].
    apply elem_of_nil in Hin. contradiction.
  - destruct (decide (k = k')) as [->|Hne]; simpl.
    + destruct (decide (k' ∈ k' :: map fst d)) as [_|Hn]; [reflexivity|].
      exfalso. apply Hn. left.
    + rewrite IH.
      destruct (decide (k ∈ map fst d)) as [Hin|Hn];
        destruct (decide (k ∈ k' :: map fst d)) as [Hin'|Hn'];
        try reflexivity.
      * exfalso. apply Hn'. right. exact Hin.
      * exfalso. apply elem_of_cons in Hin' as [E|Hin']; contradiction.
Qed.

Lemma dict_get_Some_keys {V} (k : string) (v : V) (d : dict V) :
  dict_get k d = Some v -> k ∈ keys d.
Proof.
  unfold keys. induction d as [|[k' v'] d IH]; simpl; [discriminate|].
  destruct (decide (k = k')) as [->|Hne]; [left|right; auto].
Qed.

Lemma NoDup_keys_dict_set {V} (k : string) (v : V) (d : dict V) :
  NoDup (keys d) -> NoDup (keys (dict_set k v d)).
Proof.
  intros Hnd. rewrite keys_dict_set.
  destruct (decide (k ∈ keys d)) as [Hin|Hn]; [exact Hnd|].
  apply NoDup_app. split; [exact Hnd|]. split.
  - intros x Hx Hx'. apply list_elem_of_singleton in Hx'. subst x. contradiction.
  - apply NoDup_singleton.
Qed.

(** X11. Indexing a profile puts its entry under the profile's key: a key
    that is already in the store keeps its place and the store its size, a
    new key goes last; every other key keeps its entry; keys stay distinct.
    When building the entry fails, the store is as before, yet the
    vectorizer may have been fitted by the attempt. *)
Theorem store_to_vector_database_entry `{Library} (self : processor)
  (p : ARGOProfile.t) :
  let embedding :=
    create_vector_embedding (vectorizer self) (ARGOProfile.summary_text p) in
  let stored := store_to_vector_database None self (Some p) in
  stored.1.1 = Some (set_vector_embedding p embedding.1.1)
  /\ dict_get (ARGOProfile.id p) (vector_store stored.1.2)
     = Some (make_entry p embedding.1.1)
  /\ (forall k, k <> ARGOProfile.id p ->
        dict_get k (vector_store stored.1.2) = dict_get k (vector_store self))
  /\ keys (vector_store stored.1.2)
     = (if decide (ARGOProfile.id p ∈ keys (vector_store self))
        then keys (vector_store self)
        else (keys (vector_store self) ++ [ARGOProfile.id p])%list)
  /\ (NoDup (keys (vector_store self)) ->
      NoDup (keys (vector_store stored.1.2)))
  /\ (forall e,
        let failed := store_to_vector_database (Some e) self (Some p) in
        failed.1.1 = Some p
        /\ vector_store failed.1.2 = vector_store self
        /\ vectorizer failed.1.2 = embedding.1.2).
Proof.
  cbv zeta. unfold store_to_vector_database.
  destruct (create_vector_embedding _ _) as [[vector vz] log_embed].
  cbn [fst snd vector_store vectorizer].
  split; [reflexivity|].
  split; [apply dict_get_set_eq|].
  split; [intros k Hk; apply dict_get_set_ne, Hk|].
  split; [apply keys_dict_set|].
  split; [apply NoDup_keys_dict_set|].
  intros e. auto.
Qed.

Lemma create_vector_embedding_keeps_fitted `{Library} (vz : option vocabulary)
  (text : string) (vocab : vocabulary) :
  vz = Some vocab -> (create_vector_embedding vz text).1.2 = Some vocab.
Proof. intros ->. reflexivity. Qed.

Lemma dimensions_known_refit (self self' : processor) :
  vector_store self' = vector_store self ->
  (forall vocab, vectorizer self = Some vocab -> vectorizer self' = Some vocab) ->
  dimensions_known self -> dimensions_known self'.
Proof.
  unfold dimensions_known. intros -> Hvz Hdim.
  eapply Forall_impl; [exact Hdim|].
  intros item [H1000|(vocab & Hv & Hlen)]; [left; exact H1000|].
  right. exists vocab. auto.
Qed.

Lemma Forall_dict_set {V} (P : string * V -> Prop) (k : string) (v : V)
  (d : dict V) :
  P (k, v) -> Forall P d -> Forall P (dict_set k v d).
Proof.
  intros Hkv. induction 1 as [|[k' v'] d Hx Hd IH]; simpl.
  - constructor; [exact Hkv|constructor].
  - destruct (decide (k = k')); constructor; auto.
Qed.

(** X12. The lengths of the stored vectors stay known: if every stored
    vector has 1000 entries or one entry per term of the fitted vocabulary,
    the same holds after indexing another profile, whether or not building
    its entry fails, and after a search, which may fit the vectorizer on
    the query. *)
Theorem indexing_keeps_dimensions_known `{Library} (self : processor)
  (entry_fault : option exn) (profile_data : option ARGOProfile.t)
  (query_text : string) (top_k : Z) :
  dimensions_known self ->
  dimensions_known
    (store_to_vector_database entry_fault self profile_data).1.2
  /\ dimensions_known (search_similar_profiles self query_text top_k).1.2.
Proof.
  intros Hdim. split.
  - unfold store_to_vector_database.
    destruct profile_data as [p|]; [|exact Hdim].
    pose proof (create_vector_embedding_length (vectorizer self)
                  (ARGOProfile.summary_text p)) as Hlen.
    pose proof (create_vector_embedding_keeps_fitted (vectorizer self)
                  (ARGOProfile.summary_text p)) as Hkeep.
    destruct (create_vector_embedding _ _) as [[vector vz] log_embed].
    cbn [fst snd] in Hlen, Hkeep.
    destruct entry_fault as [e|]; cbn [fst snd].
    + apply (dimensions_known_refit self); [reflexivity|exact Hkeep|exact Hdim].
    + unfold dimensions_known. cbn [vector_store vectorizer].
      apply Forall_dict_set.
      * cbn [snd make_entry Entry.vector].
        destruct vz as [vocab|]; [right; eauto|left; exact Hlen].
      * eapply Forall_impl; [exact Hdim|].
        intros item [H1000|(vocab & Hv & Hl)]; [left; exact H1000|].
        right. exists vocab. auto.
  - unfold search_similar_profiles.
    destruct (vector_store self) as [|item rest] eqn:Hstore; [exact Hdim|].
    pose proof (create_vector_embedding_keeps_fitted (vectorizer self)
                  query_text) as Hkeep.
    destruct (create_vector_embedding _ _) as [[query_vector vz] log_embed].
    cbn [fst snd] in Hkeep.
    destruct (score_all _ _ _); cbn [fst snd];
      (apply (dimensions_known_refit self);
       [symmetry; exact Hstore|exact Hkeep|exact Hdim]).
Qed.

(** ** Similarity search, continued *)

(** When the scoring loop returns, it has appended one hit per stored
    entry, in the order of the store. *)
Lemma score_all_inv `{Library} (query_vector : list float)
  (items : dict Entry.t) :
  forall similarities out : list hit,
    score_all query_vector items similarities = Return out ->
    exists hits,
      out = (similarities ++ hits)%list
      /\ map profile_id hits = keys items
      /\ Forall2 (fun (item : string * Entry.t) h =>
                    profile_id h = item.1
                    /\ hit_metadata h = Entry.metadata item.2
                    /\ hit_text h = Entry.text item.2) items hits.
Proof.
  induction items as [|[id data] rest IH]; intros similarities out Hrun.
  - injection Hrun as <-. exists []. rewrite app_nil_r.
    repeat split; constructor.
  - cbn [score_all] in Hrun.
    destruct (cosine_similarity _ _) as [s|e]; [|discriminate].
    cbn [bind] in Hrun.
    destruct (IH _ _ Hrun) as (hits & -> & Hkeys & Hall).
    eexists (_ :: hits). rewrite <- app_assoc.
    split; [reflexivity|]. split.
    + cbn [map keys profile_id]. unfold keys in Hkeys. rewrite Hkeys. reflexivity.
    + constructor; [simpl; auto|exact Hall].
Qed.

Lemma slice_to_full {A} (l : list A) (k : Z) :
  slice_to l k
  = if (0 <=? k)%Z then take (Z.to_nat k) l
    else take (length l - Z.to_nat (- k)) l.
Proof. reflexivity. Qed.

(** What a search returns, whatever the index holds. *)
Lemma search_similar_profiles_cases `{Library} (self : processor)
  (query_text : string) (top_k : Z) :
  (exists hits,
      length hits = length (vector_store self)
      /\ map profile_id hits = keys (vector_store self)
      /\ Forall2 (fun (item : string * Entry.t) h =>
                    profile_id h = item.1
                    /\ hit_metadata h = Entry.metadata item.2
                    /\ hit_text h = Entry.text item.2)
           (vector_store self) hits
      /\ forall k, (search_similar_profiles self query_text k).1.1
                   = slice_to (sort_desc hits) k)
  \/ (forall k, (search_similar_profiles self query_text k).1.1 = []).
Proof.
  unfold search_similar_profiles.
  destruct (vector_store self) as [|item rest] eqn:Hstore; [right; auto|].
  destruct (create_vector_embedding _ _) as [[query_vector vz] log_embed].
  destruct (score_all _ _ _) as [out|e] eqn:Hrun; [|right; auto].
  left. destruct (score_all_inv _ _ _ _ Hrun) as (hits & -> & Hkeys & Hall).
  exists hits. cbn [app fst].
  split; [symmetry; apply (Forall2_length _ _ _ Hall)|]. auto.
Qed.

(** X13. The hits for any count are a prefix of the full ranking, the one
    obtained by asking for as many hits as the store has entries: its first
    [top_k] hits for a count that is not negative, all but its last
    [-top_k] hits for a negative one. *)
Theorem search_prefix_of_full_ranking `{Library} (self : processor)
  (query_text : string) (top_k : Z) :
  let full :=
    (search_similar_profiles self query_text
       (Z.of_nat (length (vector_store self)))).1.1 in
  (search_similar_profiles self query_text top_k).1.1
  = if (0 <=? top_k)%Z then take (Z.to_nat top_k) full
    else take (length (vector_store self) - Z.to_nat (- top_k)) full.
Proof.
  cbv zeta.
  destruct (search_similar_profiles_cases self query_text top_k)
    as [(hits & Hlen & _ & _ & Hres)|Hres].
  - rewrite !Hres, !slice_to_full.
    assert (Hsorted : length (sort_desc hits) = length (vector_store self))
      by (rewrite (Permutation_length (sort_desc_Permutation hits)); exact Hlen).
    replace (0 <=? Z.of_nat (length (vector_store self)))%Z with true
      by (symmetry; apply Z.leb_le; lia).
    rewrite Nat2Z.id, <- Hsorted, firstn_all, Hsorted. reflexivity.
  - rewrite !Hres. destruct (0 <=? top_k)%Z; rewrite take_nil; reflexivity.
Qed.

Lemma dict_get_NoDup {V} (k : string) (v : V) (d : dict V) :
  NoDup (keys d) -> (k, v) ∈ d -> dict_get k d = Some v.
Proof.
  unfold keys. induction d as [|[k' v'] d IH]; intros Hnd Hin.
  - apply elem_of_nil in Hin. contradiction.
  - cbn [map fst] in Hnd. apply NoDup_cons in Hnd as [Hk Hnd]. simpl.
    apply elem_of_cons in Hin as [E|Hin].
    + injection E as -> ->. destruct (decide (k' = k')); [reflexivity|congruence].
    + destruct (decide (k = k')) as [->|Hne]; [|auto].
      exfalso. apply Hk. apply list_elem_of_fmap. exists (k', v). auto.
Qed.

(** X14. A search invents nothing and changes nothing it searches: every
    hit repeats the key, the metadata and the text of an entry of the
    store, the hits are no more than the entries and, for a count that is
    not negative, no more than the count; when the keys of the store are
    distinct no entry is returned twice; and the store is left as it was. *)
Theorem search_hits_come_from_store `{Library} (self : processor)
  (query_text : string) (top_k : Z) :
  let found := search_similar_profiles self query_text top_k in
  vector_store found.1.2 = vector_store self
  /\ (length found.1.1 <= length (vector_store self))%nat
  /\ ((0 <= top_k)%Z -> (length found.1.1 <= Z.to_nat top_k)%nat)
  /\ (NoDup (keys (vector_store self)) ->
      NoDup (map profile_id found.1.1)
      /\ Forall (hit_of_store (vector_store self)) found.1.1).
Proof.
  cbv zeta. split.
  { unfold search_similar_profiles.
    destruct (vector_store self) eqn:Hstore; [exact Hstore|].
    destruct (create_vector_embedding _ _) as [[query_vector vz] log_embed].
    destruct (score_all _ _ _); reflexivity. }
  destruct (search_similar_profiles_cases self query_text top_k)
    as [(hits & Hlen & Hkeys & Hall & Hres)|Hres]; rewrite Hres.
  - pose proof (sort_desc_Permutation hits) as Hperm.
    assert (Hslice : exists n, slice_to (sort_desc hits) top_k
                               = take n (sort_desc hits))
      by (rewrite slice_to_full; destruct (0 <=? top_k)%Z; eauto).
    destruct Hslice as [n Hslice].
    split.
    { rewrite Hslice, length_take, (Permutation_length Hperm). lia. }
    split.
    { intros Hk. rewrite slice_to_full.
      replace (0 <=? top_k)%Z with true by (symmetry; apply Z.leb_le; lia).
      rewrite length_take. lia. }
    intros Hnd. rewrite Hslice. split.
    + rewrite <- firstn_map. eapply sublist_NoDup; [|apply sublist_take].
      rewrite Hperm, Hkeys. exact Hnd.
    + apply Forall_take. rewrite Hperm.
      apply (Forall2_Forall_r _ _ _ _ Hall).
      apply Forall_forall. intros [id data] Hin h (Hid & Hm & Ht).
      exists data. simpl in Hid, Hm, Ht. rewrite Hid.
      split; [apply dict_get_NoDup; assumption|auto].
  - simpl. split; [lia|]. split; [lia|]. intros _. split; constructor.
Qed.

(** ** Filtered query, continued *)

(** A row that meets the applied filters passes every condition of the
    query built from them. *)
Lemma meets_filters_passes `{Library} (region start_date end_date : option string)
  (temperature_range salinity_range : option (list float)) (q : list criterion)
  (r : ARGOFloat.t) :
  build_query region start_date end_date temperature_range salinity_range
  = Return q ->
  meets_filters region start_date end_date temperature_range salinity_range r ->
  forall c f, c ∈ q -> compile c = Return f -> f r = true.
Proof.
  intros Hq (Mr & Ms & Me & Mt & Msal) c f Hc Hf.
  unfold build_query in Hq.
  destruct (nonempty_string region) as [rg|];
    [destruct (decide (rg = "Unknown"))|];
    destruct (nonempty_string start_date) as [sd|];
    destruct (nonempty_string end_date) as [ed|];
    (destruct (nonempty_list temperature_range) as [lt|];
     [unfold getitem at 1 2 in Hq;
      destruct (lt !! 0%nat) as [tlo|] eqn:Et0; [|discriminate];
      destruct (lt !! 1%nat) as [thi|] eqn:Et1; [|discriminate]|]);
    cbn [bind] in Hq;
    (destruct (nonempty_list salinity_range) as [ls|];
     [unfold getitem in Hq;
      destruct (ls !! 0%nat) as [slo|] eqn:Es0; [|discriminate];
      destruct (ls !! 1%nat) as [shi|] eqn:Es1; [|discriminate]|]);
    cbn [bind] in Hq; injection Hq as <-;
    repeat (rewrite ?elem_of_app, ?elem_of_cons, ?elem_of_nil in Hc);
    repeat match goal with
           | Hc : _ \/ _ |- _ => destruct Hc as [Hc|Hc]
           | Hc : False |- _ => contradiction
           end;
    subst c; cbn [compile] in Hf.
  all: try (injection Hf as <-; apply bool_decide_eq_true;
            apply Mr; [reflexivity|assumption]).
  all: try (destruct (Ms _ eq_refl) as (t & Ht & Hle); rewrite Ht in Hf;
            injection Hf as <-; apply Z.leb_le; exact Hle).
  all: try (destruct (Me _ eq_refl) as (t & Ht & Hle); rewrite Ht in Hf;
            injection Hf as <-; apply Z.leb_le; exact Hle).
  all: try (destruct (Mt _ eq_refl) as (lo & hi & H0 & H1 & [A B]);
            injection Hf as <-; congruence).
  all: try (destruct (Msal _ eq_refl) as (lo & hi & H0 & H1 & [A B]);
            injection Hf as <-; congruence).
Qed.

Lemma forallb_compiled `{Library} (q : list criterion) (r : ARGOFloat.t) :
  forall fs,
    compile_all q = Return fs ->
    (forall c f, c ∈ q -> compile c = Return f -> f r = true) ->
    forallb (fun f => f r) fs = true.
Proof.
  induction q as [|c q IH]; intros fs; cbn [compile_all].
  - intros [= <-] _. reflexivity.
  - destruct (compile c) as [f|] eqn:Ec; [|discriminate]. cbn [bind].
    destruct (compile_all q) as [fs'|]; [|discriminate]. cbn [bind].
    intros [= <-] Hall. cbn [forallb].
    rewrite (Hall c f); [|left|exact Ec]. cbn [andb].
    apply IH; [reflexivity|]. intros c' f' Hc'. apply Hall. right. exact Hc'.
Qed.

(** X15. Below the limit nothing is left out: when a query succeeds with
    fewer than 1000 rows, every row of the table that meets the applied
    filters is among the rows returned. *)
Theorem query_complete_below_limit `{Library} (io : init_outcome)
  (fault : option exn) (table : list ARGOFloat.t)
  (region start_date end_date : option string)
  (temperature_range salinity_range : option (list float))
  (count : nat) (data : list Row.t) (logs : list log_record) (r : ARGOFloat.t) :
  query_argo_data io fault table region start_date end_date temperature_range
    salinity_range = (Return (Success count data), logs) ->
  (count < 1000)%nat ->
  In r table ->
  meets_filters region start_date end_date temperature_range salinity_range r ->
  In (to_row r) data.
Proof.
  unfold query_argo_data.
  destruct (initialize_database io new_processor) as [[ok processor] log_init].
  destruct (negb (Session processor)); [discriminate|].
  destruct (build_query region start_date end_date temperature_range
              salinity_range) as [q|] eqn:Eq; [|discriminate].
  cbn [bind]. unfold limit_all.
  destruct fault; [discriminate|].
  destruct (compile_all q) as [fs|] eqn:Efs; [|discriminate].
  cbn [bind]. intros [= <- <- _] Hcount Hin Hmeets.
  rewrite length_map, length_take in Hcount.
  apply in_map. rewrite take_ge by lia.
  apply filter_In. split; [exact Hin|].
  apply (forallb_compiled q r fs Efs).
  apply (meets_filters_passes _ _ _ _ _ _ _ Eq Hmeets).
Qed.

(** X16. The query raises in one case only: when no engine could be
    created, it raises [RuntimeError] and nothing else happens.  In every
    other case it returns a response; in particular, when the engine was
    created and initialisation failed afterwards, the query runs all the
    same and answers as after a successful initialisation. *)
Theorem query_raises_only_without_session `{Library} (io : init_outcome)
  (fault : option exn) (table : list ARGOFloat.t)
  (region start_date end_date : option string)
  (temperature_range salinity_range : option (list float)) :
  match io with
  | InitEngineFails e =>
      query_argo_data io fault table region start_date end_date
        temperature_range salinity_range
      = (Raise RuntimeError, [ERROR (DatabaseInitFailed e)])
  | _ =>
      (exists response,
          (query_argo_data io fault table region start_date end_date
             temperature_range salinity_range).1 = Return response)
      /\ (query_argo_data io fault table region start_date end_date
            temperature_range salinity_range).1
         = (query_argo_data InitOk fault table region start_date end_date
              temperature_range salinity_range).1
  end.
Proof.
  unfold query_argo_data.
  destruct io as [|e|e]; cbn [initialize_database Session new_processor negb];
    try reflexivity;
    (destruct (bind _ _); cbn [fst]; (split; [eauto|reflexivity])).
Qed.

(** X17. A range with a single bound fails the query: whenever a session
    exists and the temperature range or the salinity range has exactly one
    element, the response is the failure [IndexError], whatever the other
    filters and the table. *)
Theorem query_one_bound_range_fails `{Library} (io : init_outcome)
  (fault : option exn) (table : list ARGOFloat.t)
  (region start_date end_date : option string)
  (temperature_range salinity_range : option (list float)) :
  (forall e, io <> InitEngineFails e) ->
  (exists x, temperature_range = Some [x])
  \/ (exists x, salinity_range = Some [x]) ->
  (query_argo_data io fault table region start_date end_date temperature_range
     salinity_range).1
  = Return (Failure IndexError).
Proof.
  intros Hio Hshort.
  assert (Hq : build_query region start_date end_date temperature_range
                 salinity_range = Raise IndexError).
  { unfold build_query.
    destruct Hshort as [[x ->]|[x ->]]; cbn [nonempty_list getitem lookup].
    - reflexivity.
    - destruct (nonempty_list temperature_range) as [lt|]; [|reflexivity].
      unfold getitem.
      destruct (lt !! 0%nat); [|reflexivity].
      destruct (lt !! 1%nat); reflexivity. }
  unfold query_argo_data. rewrite Hq.
  destruct io as [|e|e];
    [reflexivity|exfalso; apply (Hio e); reflexivity|reflexivity].
Qed.

(** ** Directory orchestration, continued *)

Lemma make_profile_no_embedding `{Library} (file_path platform_number : string)
  (cycle_number : Z) (lat lon : float) (profile_time : timestamp)
  (ocean_region : string) (total_levels : nat) (processed_at : timestamp)
  (acc : level_acc) (p : ARGOProfile.t) :
  make_profile file_path platform_number cycle_number lat lon profile_time
    ocean_region total_levels processed_at acc = Return p ->
  ARGOProfile.vector_embedding p = None.
Proof.
  unfold make_profile, make_range.
  repeat match goal with
         | |- context [bind ?c _] =>
             destruct c; cbn [bind]; [|discriminate]
         end.
  intros [= <-]. reflexivity.
Qed.

Lemma profile_loop_no_embedding `{Library} (now : clock)
  (file_path platform_number : string) (slots : list profile_slot) :
  forall (cycle_idx : nat) (st st' : decoded),
    profile_loop now file_path platform_number slots cycle_idx st = Return st' ->
    (forall p, st.2 = Some p -> ARGOProfile.vector_embedding p = None) ->
    forall p, st'.2 = Some p -> ARGOProfile.vector_embedding p = None.
Proof.
  induction slots as [|slot rest IH]; intros cycle_idx st st' Hrun Hst.
  - injection Hrun as <-. exact Hst.
  - cbn [profile_loop] in Hrun.
    destruct (process_profile _ _ _ _ _ _) as [st1|e] eqn:Hone; [|discriminate].
    cbn [bind] in Hrun. apply (IH _ _ _ Hrun).
    unfold process_profile in Hone.
    destruct (level_loop _ _ _ _ _ _ _ _ _ _ _ _) as [acc|e]; [|discriminate].
    cbn [bind] in Hone.
    destruct (valid_measurements acc).
    + injection Hone as <-. exact Hst.
    + destruct (make_profile _ _ _ _ _ _ _ _ _ _) as [p0|e] eqn:Hp;
        [|discriminate].
      injection Hone as <-. intros p [= <-].
      apply (make_profile_no_embedding _ _ _ _ _ _ _ _ _ _ _ Hp).
Qed.

(** The decoder leaves the embedding of the summary unset. *)
Lemma decoded_summary_no_embedding `{Library}
  (open_dataset : string -> outcome dataset) (now : clock) (file_path : string)
  (p : ARGOProfile.t) :
  (process_netcdf_file open_dataset now file_path).1.2 = Some p ->
  ARGOProfile.vector_embedding p = None.
Proof.
  destruct (process_netcdf_file_cases open_dataset now file_path)
    as [(ds & st & _ & Hloop & ->)|(e & ->)]; [|discriminate].
  cbn [fst snd]. apply (profile_loop_no_embedding _ _ _ _ _ _ _ Hloop).
  discriminate.
Qed.

Lemma process_netcdf_file_log `{Library}
  (open_dataset : string -> outcome dataset) (now : clock) (file_path : string) :
  omap closing_line (process_netcdf_file open_dataset now file_path).2 = [].
Proof.
  destruct (process_netcdf_file_cases open_dataset now file_path)
    as [(ds & st & _ & _ & ->)|(e & ->)]; reflexivity.
Qed.

Lemma store_to_postgresql_log (io : init_outcome) (session_fault : option exn)
  (self : processor) (db : database) (float_data : list ARGOFloat.t)
  (profile_data : option ARGOProfile.t) :
  omap closing_line
    (store_to_postgresql io session_fault self db float_data profile_data).2
  = [].
Proof.
  unfold store_to_postgresql.
  destruct (engine self); [|destruct io; cbn [initialize_database]];
    cbn [Session];
    (destruct (Session self); cbn [negb]; [|try destruct session_fault; reflexivity]);
    destruct session_fault; reflexivity.
Qed.

Lemma create_vector_embedding_log `{Library} (vz : option vocabulary)
  (text : string) :
  omap closing_line (create_vector_embedding vz text).2 = [].
Proof.
  unfold create_vector_embedding.
  destruct vz; [reflexivity|]. destruct (fit text); reflexivity.
Qed.

(** One iteration of the file loop, in full: what it logs and what it
    changes. *)
Lemma process_file_run `{Library} (env : environment) (st : state)
  (nc_file : string) :
  let r := (process_netcdf_file (open_dataset env) (wall_clock env nc_file)
              nc_file).1 in
  let st' := (process_file env st nc_file).2 in
  (exists new, logs st' = (logs st ++ new)%list
               /\ omap closing_line new = [path_name nc_file])
  /\ ((db st' = db st /\ vector_store (self st') = vector_store (self st))
      \/ (db st'
          = {| argo_floats := merge_floats r.1 (argo_floats (db st));
               argo_profiles := merge_profile r.2 (argo_profiles (db st)) |}
          /\ (vector_store (self st') = vector_store (self st)
              \/ exists p v,
                   r.2 = Some p
                   /\ vector_store (self st')
                      = dict_set (ARGOProfile.id p) (make_entry p v)
                          (vector_store (self st))))).
Proof.
  cbv zeta. unfold process_file, process_file_body.
  pose proof (process_netcdf_file_log (open_dataset env) (wall_clock env nc_file)
                nc_file) as Hlog_decode.
  destruct (process_netcdf_file (open_dataset env) (wall_clock env nc_file)
              nc_file) as [[float_data profile_data] log_decode].
  cbn [fst snd] in *.
  destruct float_data as [|m float_data].
  { cbn [log self db logs snd]. split; [|left; auto].
    eexists. rewrite <- app_assoc. split; [reflexivity|].
    rewrite omap_app, Hlog_decode. reflexivity. }
  cbn [log self db logs].
  pose proof (store_to_postgresql_cases (db_init env nc_file)
                (session_fault env nc_file) (self st) (db st) (m :: float_data)
                profile_data) as Hstore.
  pose proof (store_to_postgresql_log (db_init env nc_file)
                (session_fault env nc_file) (self st) (db st) (m :: float_data)
                profile_data) as Hlog_store.
  destruct (store_to_postgresql (db_init env nc_file)
              (session_fault env nc_file) (self st) (db st) (m :: float_data)
              profile_data) as [[[r self1] db1] log_store].
  cbn [snd] in Hlog_store.
  destruct Hstore as (Hvs & _ & [(-> & _ & _ & ->)|([e ->] & ->)]).
  - destruct profile_data as [p|].
    + pose proof (create_vector_embedding_log (vectorizer self1)
                    (ARGOProfile.summary_text p)) as Hlog_index.
      unfold store_to_vector_database.
      destruct (create_vector_embedding (vectorizer self1)
                  (ARGOProfile.summary_text p)) as [[vector vz] log_embed].
      destruct (entry_fault env nc_file) as [e|];
        cbn [fst snd log self db logs vector_store] in *.
      * split; [|right; split; [reflexivity|left; exact Hvs]].
        eexists. rewrite <- !app_assoc. split; [reflexivity|].
        rewrite !omap_app, Hlog_decode, Hlog_store, Hlog_index. reflexivity.
      * split; [|right; split; [reflexivity|right; exists p, vector;
                                             rewrite Hvs; auto]].
        eexists. rewrite <- !app_assoc. split; [reflexivity|].
        rewrite !omap_app, Hlog_decode, Hlog_store, Hlog_index. reflexivity.
    + cbn [fst snd log self db logs]. split; [|right; auto].
      eexists. rewrite <- !app_assoc. split; [reflexivity|].
      rewrite !omap_app, Hlog_decode, Hlog_store. reflexivity.
  - cbn [fst snd log self db logs]. split; [|left; auto].
    eexists. rewrite <- !app_assoc. split; [reflexivity|].
    rewrite !omap_app, Hlog_decode, Hlog_store. reflexivity.
Qed.

Lemma for_each_process_file `{Library} (env : environment) (I : state -> Prop)
  (files : list string) :
  (forall st nc_file, I st -> I (process_file env st nc_file).2) ->
  forall st, I st -> I (for_each (process_file env) files st).2.
Proof.
  intros Hstep. induction files as [|nc_file rest IH]; intros st Hst;
    [exact Hst|].
  cbn [for_each].
  pose proof (process_file_returns env st nc_file) as Hret.
  specialize (Hstep st nc_file Hst).
  destruct (process_file env st nc_file) as [r st']. cbn [fst snd] in *.
  subst r. apply IH, Hstep.
Qed.

Lemma for_each_process_file_log `{Library} (env : environment)
  (files : list string) :
  forall st,
    exists new,
      logs (for_each (process_file env) files st).2 = (logs st ++ new)%list
      /\ omap closing_line new = map path_name files.
Proof.
  induction files as [|nc_file rest IH]; intros st.
  - exists []. rewrite app_nil_r. auto.
  - cbn [for_each].
    pose proof (process_file_returns env st nc_file) as Hret.
    destruct (process_file_run env st nc_file) as [(new1 & Hlogs & Hclose) _].
    destruct (process_file env st nc_file) as [r st']. cbn [fst snd] in *.
    subst r. destruct (IH st') as (new2 & Hlogs2 & Hclose2).
    exists (new1 ++ new2)%list. rewrite Hlogs2, Hlogs, <- app_assoc.
    split; [reflexivity|]. rewrite omap_app, Hclose, Hclose2. reflexivity.
Qed.

Lemma extends_refl (st : state) : extends st st.
Proof.
  unfold extends. repeat split; try reflexivity.
  exists []. rewrite app_nil_r. reflexivity.
Qed.




(** X19. The log of a run over an existing directory closes every file
    exactly once, in the order the files were found: among the lines the
    run appends, those that say a file was processed or failed carry the
    base names of the files of the directory, one by one. *)
Theorem one_closing_line_per_file `{Library} (env : environment)
  (directory_path : string) (st : state) :
  path_exists env directory_path = true ->
  exists new,
    logs (process_directory env directory_path st).2 = (logs st ++ new)%list
    /\ omap closing_line new = map path_name (glob_nc env directory_path).
Proof.
  intros Hexists. unfold process_directory. rewrite Hexists. cbn [negb].
  destruct (for_each_process_file_log env (glob_nc env directory_path)
              (log [INFO (FoundFiles (length (glob_nc env directory_path)))] st))
    as (new & Hlogs & Hclose).
  eexists. rewrite Hlogs. cbn [log logs]. rewrite <- app_assoc.
  split; [reflexivity|]. exact Hclose.
Qed.

Lemma process_file_consistent `{Library} (env : environment) (st : state)
  (nc_file : string) :
  summaries_consistent st ->
  summaries_consistent (process_file env st nc_file).2.
Proof.
  intros [Hnone Hkeys].
  pose proof (decoded_summary_no_embedding (open_dataset env)
                (wall_clock env nc_file) nc_file) as Hdec.
  destruct (process_file_run env st nc_file) as [_ [[Hdb Hvs]|[Hdb Hvs]]];
    unfold summaries_consistent; rewrite Hdb; cbn [argo_profiles].
  - rewrite Hvs. auto.
  - destruct ((process_netcdf_file (open_dataset env) (wall_clock env nc_file)
                 nc_file).1.2) as [p|]; cbn [merge_profile].
    + split.
      * apply map_Forall_insert_2; [apply Hdec; reflexivity|exact Hnone].
      * intros k Hk. rewrite dom_insert_L.
        destruct Hvs as [Hvs|(p' & v & [= <-] & Hvs)]; rewrite Hvs in Hk.
        -- specialize (Hkeys k Hk). set_solver.
        -- rewrite keys_dict_set in Hk.
           destruct (decide _); [specialize (Hkeys k Hk); set_solver|].
           apply elem_of_app in Hk as [Hk|Hk];
             [specialize (Hkeys k Hk); set_solver|set_solver].
    + split; [exact Hnone|].
      destruct Hvs as [->|(p' & v & [= ] & _)]. exact Hkeys.
Qed.

(** X20. The two stores stay consistent over a run: if no row of
    [argo_profiles] carries an embedding and every key of the index is the
    key of such a row, the same holds after the directory has been
    processed.  The embedding computed for the index never reaches the
    relational table, and no profile is indexed without its row. *)
Theorem process_directory_keeps_stores_consistent `{Library}
  (env : environment) (directory_path : string) (st : state) :
  summaries_consistent st ->
  summaries_consistent (process_directory env directory_path st).2.
Proof.
  intros Hst. unfold process_directory.
  destruct (negb (path_exists env directory_path)); [exact Hst|].
  apply (for_each_process_file env summaries_consistent).
  - intros s nc_file. apply process_file_consistent.
  - exact Hst.
Qed.

(** ** Entry points *)

(** X21. Without an index file the semantic search is an empty success:
    when the default file is missing, or when reading it fails before its
    vector table is taken over, the response reports success with no hit,
    for every query and count.  When reading fails only after the table
    was taken over, the search runs on that table with the vectorizer of a
    fresh processor. *)
Theorem semantic_search_without_index `{Library} (files : gmap string blob)
  (query : string) (top_k : Z) :
  (files !! default_vector_store_path = None
   \/ (exists b e, files !! default_vector_store_path = Some b
                   /\ pickle_loads b = Raise e
                   /\ unpickled_vector_store b = None) ->
   (semantic_search_profiles files query top_k).1 = SearchSuccess query [])
  /\ (forall b e table,
        files !! default_vector_store_path = Some b ->
        pickle_loads b = Raise e ->
        unpickled_vector_store b = Some table ->
        (semantic_search_profiles files query top_k).1
        = SearchSuccess query
            (search_similar_profiles
               {| engine := false; Session := false; vectorizer := None;
                  vector_store := table |} query top_k).1.1).
Proof.
  unfold semantic_search_profiles, load_vector_store. split.
  - intros [->|(b & e & -> & -> & ->)]; reflexivity.
  - intros b e table -> -> ->. cbn [new_processor engine Session vectorizer].
    destruct (search_similar_profiles _ query top_k) as [[results s] l].
    reflexivity.
Qed.

(** X22. The script stops at a failed initialisation: it returns without
    raising, leaves the tables and the files as they were (no index file is
    written), and its log ends with the failure.  This holds also when the
    engine was created and a later step failed. *)
Theorem main_stops_when_initialisation_fails `{Library} (io : init_outcome)
  (env : environment) (wo : write_outcome) (argv : list string)
  (db0 : database) (files : gmap string blob) :
  io <> InitOk ->
  exists e,
    (io = InitEngineFails e \/ io = InitConnectFails e)
    /\ (main io env wo argv db0 files).1 = Return ()
    /\ final_db (main io env wo argv db0 files).2 = db0
    /\ final_files (main io env wo argv db0 files).2 = files
    /\ vector_store (final_processor (main io env wo argv db0 files).2) = []
    /\ final_log (main io env wo argv db0 files).2
       = [Logged (ERROR (DatabaseInitFailed e)); FailedToInitialize].
Proof.
  intros Hio. destruct io as [|e|e]; [congruence| |]; exists e;
    cbn; auto 10.
Qed.

Lemma process_directory_returns `{Library} (env : environment)
  (directory_path : string) (st : state) :
  (process_directory env directory_path st).1 = Return ().
Proof.
  unfold process_directory.
  destruct (negb (path_exists env directory_path)); [reflexivity|].
  rewrite for_each_total by (intros; apply process_file_returns). reflexivity.
Qed.

(** X23. What the script saves is what the search function finds: after a
    run that initialised the database and wrote the index file, with a
    pickle codec that reads back what it wrote, [semantic_search_profiles]
    on the files the run left answers every query with the hits of the
    run's own processor. *)
Theorem main_then_semantic_search `{Library} (env : environment)
  (argv : list string) (db0 : database) (files : gmap string blob)
  (query : string) (top_k : Z) :
  (forall x : pickled, pickle_loads (pickle_dumps x) = Return x) ->
  (main InitOk env WriteOk argv db0 files).1 = Return ()
  /\ (semantic_search_profiles
        (final_files (main InitOk env WriteOk argv db0 files).2) query top_k).1
     = SearchSuccess query
         (search_similar_profiles
            (final_processor (main InitOk env WriteOk argv db0 files).2)
            query top_k).1.1.
Proof.
  intros Hpickle. unfold main. cbn [initialize_database negb].
  set (st0 := {| self := _; db := db0; logs := _ |}).
  assert (Hrun : exists st,
             match argv !! 1%nat with
             | Some directory_path => process_directory env directory_path st0
             | None => (Return (), st0)
             end = (Return (), st)).
  { destruct (argv !! 1%nat) as [directory_path|]; [|eauto].
    pose proof (process_directory_returns env directory_path st0) as Hret.
    destruct (process_directory env directory_path st0) as [r st].
    cbn [fst] in Hret. subst r. eauto. }
  destruct Hrun as [st ->]. cbn [save_vector_store fst snd final_files
                                   final_processor].
  split; [reflexivity|].
  unfold semantic_search_profiles, load_vector_store.
  rewrite lookup_insert_eq, Hpickle.
  match goal with
  | |- context [search_similar_profiles ?a query top_k] =>
      pose proof (search_depends_on_index a (self st) query top_k
                    eq_refl eq_refl) as Hsame;
      destruct (search_similar_profiles a query top_k) as [[results s] l]
  end.
  cbn [fst snd] in *. rewrite Hsame. reflexivity.
Qed.

(** ** Persistence, continued *)

(** X24. Saving touches one file only: whatever the write meets, loading
    any other path afterwards gives what it gave before; and when the file
    could not even be opened, every path does. *)
Theorem save_leaves_other_files `{Library} (wo : write_outcome)
  (self other : processor) (file_path path : string)
  (files : gmap string blob) :
  path <> file_path \/ (exists e, wo = OpenFails e) ->
  load_vector_store other path (save_vector_store wo self file_path files).1
  = load_vector_store other path files.
Proof.
  intros Hcase. unfold load_vector_store, save_vector_store.
  destruct Hcase as [Hne|[e ->]]; [|reflexivity].
  destruct wo; cbn [fst]; rewrite ?lookup_insert_ne by congruence; reflexivity.
Qed.

(** ** Decoder: ragged profiles and the clock *)

Section Ragged.
Context `{Library}.
Variables (file_path platform_number : string) (cycle_number : Z)
          (profile_lat profile_lon : float) (profile_time : timestamp)
          (ocean_region : string).

(** The level loop raises when it runs past the end of the salinity or
    the pressure row. *)
Lemma level_loop_raises (sals pres temps_rest : list float) :
  forall (level_idx : nat) (acc : level_acc),
    (level_idx <= length sals)%nat -> (level_idx <= length pres)%nat ->
    (length sals < level_idx + length temps_rest)%nat
    \/ (length pres < level_idx + length temps_rest)%nat ->
    level_loop file_path platform_number cycle_number profile_lat profile_lon
      profile_time ocean_region sals pres temps_rest level_idx acc
    = Raise IndexError.
Proof.
  induction temps_rest as [|temp rest IH]; intros level_idx acc Hs Hp Hshort.
  - simpl in Hshort. lia.
  - cbn [level_loop]. unfold getitem.
    destruct (sals !! level_idx) as [sal|] eqn:Esal; [|reflexivity].
    destruct (pres !! level_idx) as [pressure|] eqn:Epres; [|reflexivity].
    cbn [bind]. apply lookup_lt_Some in Esal, Epres.
    apply IH; [lia|lia|]. simpl in Hshort. lia.
Qed.
End Ragged.

Lemma process_profile_raises `{Library} (now : clock)
  (file_path platform_number : string) (st : decoded) (cycle_idx : nat)
  (slot : profile_slot) :
  short_row slot ->
  process_profile now file_path platform_number st cycle_idx slot
  = Raise IndexError.
Proof.
  intros Hshort. unfold process_profile.
  rewrite level_loop_raises; [reflexivity|lia|lia|].
  unfold short_row in Hshort. lia.
Qed.

Lemma profile_loop_raises `{Library} (now : clock)
  (file_path platform_number : string) (slots : list profile_slot) :
  Exists short_row slots ->
  forall (cycle_idx : nat) (st : decoded),
    exists e,
      profile_loop now file_path platform_number slots cycle_idx st = Raise e.
Proof.
  induction slots as [|slot rest IH]; intros Hex cycle_idx st.
  - apply Exists_nil in Hex. contradiction.
  - cbn [profile_loop].
    destruct (process_profile now file_path platform_number st cycle_idx slot)
      as [st1|e] eqn:Hone; [|eauto].
    cbn [bind]. apply Exists_cons in Hex as [Hshort|Hex]; [|apply IH, Hex].
    rewrite (process_profile_raises _ _ _ _ _ _ Hshort) in Hone. discriminate.
Qed.

(** X25. One ragged profile discards the whole file: when any profile of a
    file has a salinity or a pressure row shorter than its temperature row,
    decoding returns no measurement and no summary at all, those of the
    well-formed profiles before it included, and logs the error. *)
Theorem ragged_profile_discards_file `{Library}
  (open_dataset : string -> outcome dataset) (now : clock) (file_path : string)
  (ds : dataset) :
  open_dataset file_path = Return ds ->
  Exists short_row (N_PROF ds) ->
  exists e,
    process_netcdf_file open_dataset now file_path
    = (([], None), [INFO (ProcessingFile file_path);
                    ERROR (ErrorProcessingFile file_path e)]).
Proof.
  intros Hopen Hex. unfold process_netcdf_file. rewrite Hopen. cbn [bind].
  destruct (profile_loop_raises now file_path (attr_platform_number ds)
              (N_PROF ds) Hex 0%nat ([], None)) as [e ->].
  exists e. reflexivity.
Qed.

Lemma make_profile_same_text `{Library} (file_path platform_number : string)
  (cycle_number : Z) (lat lon : float) (profile_time : timestamp)
  (region : string) (total : nat) (at1 at2 : timestamp) (acc : level_acc) :
  same_outcome
    (fun p q => ARGOProfile.summary_text p = ARGOProfile.summary_text q)
    (make_profile file_path platform_number cycle_number lat lon profile_time
       region total at1 acc)
    (make_profile file_path platform_number cycle_number lat lon profile_time
       region total at2 acc).
Proof.
  unfold make_profile, make_range.
  repeat match goal with
         | |- context [bind ?c _] => destruct c; cbn [bind]; [|exact I]
         end.
  reflexivity.
Qed.

Lemma process_profile_same_rows `{Library} (now1 now2 : clock)
  (file_path platform_number : string) (st1 st2 : decoded) (cycle_idx : nat)
  (slot : profile_slot) :
  JULD slot <> None -> same_rows st1 st2 ->
  same_outcome same_rows
    (process_profile now1 file_path platform_number st1 cycle_idx slot)
    (process_profile now2 file_path platform_number st2 cycle_idx slot).
Proof.
  intros Hjuld [Hms Htext]. unfold process_profile.
  destruct (JULD slot) as [t|]; [|congruence].
  destruct (level_loop _ _ _ _ _ _ _ _ _ _ _ _) as [acc|e]; [|exact I].
  cbn [bind]. destruct (valid_measurements acc) as [|m ms] eqn:Hvalid.
  - split; cbn [fst snd]; [rewrite Hms; reflexivity|exact Htext].
  - pose proof (make_profile_same_text file_path platform_number
                  (CYCLE_NUMBER slot) (LATITUDE slot) (LONGITUDE slot) t
                  (determine_ocean_region (LATITUDE slot) (LONGITUDE slot))
                  (length (TEMP slot)) (now1 cycle_idx AtProcessedAt)
                  (now2 cycle_idx AtProcessedAt) acc) as Hsame.
    destruct (make_profile _ _ _ _ _ _ _ _ (now1 _ _) _) as [p1|e1],
             (make_profile _ _ _ _ _ _ _ _ (now2 _ _) _) as [p2|e2];
      try contradiction; [|exact I].
    cbn [bind same_outcome]. split; cbn [fst snd]; [rewrite Hms; reflexivity|].
    simpl. rewrite Hsame. reflexivity.
Qed.

Lemma profile_loop_same_rows `{Library} (now1 now2 : clock)
  (file_path platform_number : string) (slots : list profile_slot) :
  Forall (fun slot => JULD slot <> None) slots ->
  forall (cycle_idx : nat) (st1 st2 : decoded),
    same_rows st1 st2 ->
    same_outcome same_rows
      (profile_loop now1 file_path platform_number slots cycle_idx st1)
      (profile_loop now2 file_path platform_number slots cycle_idx st2).
Proof.
  induction 1 as [|slot rest Hjuld _ IH]; intros cycle_idx st1 st2 Hst.
  - exact Hst.
  - cbn [profile_loop].
    pose proof (process_profile_same_rows now1 now2 file_path platform_number
                  st1 st2 cycle_idx slot Hjuld Hst) as Hone.
    destruct (process_profile now1 _ _ _ _ _) as [a|e1],
             (process_profile now2 _ _ _ _ _) as [b|e2];
      try contradiction; [|exact I].
    cbn [bind]. apply IH, Hone.
Qed.


(** ** Ingesting a file again *)

Lemma last_with_id_Some (k : string) (float_data : list ARGOFloat.t)
  (m : ARGOFloat.t) :
  last_with_id k float_data = Some m -> ARGOFloat.id m = k /\ In m float_data.
Proof.
  induction float_data as [|x rest IH]; [discriminate|].
  rewrite last_with_id_cons.
  destruct (last_with_id k rest) as [y|].
  - intros [= <-]. destruct (IH eq_refl) as [Hid Hin]. split; [exact Hid|].
    right. exact Hin.
  - destruct (decide (ARGOFloat.id x = k)); [|discriminate].
    intros [= <-]. split; [assumption|left; reflexivity].
Qed.

Lemma last_with_id_key (k : string) (float_data : list ARGOFloat.t) :
  In k (map ARGOFloat.id float_data) ->
  exists m, last_with_id k float_data = Some m.
Proof.
  induction float_data as [|x rest IH]; [contradiction|].
  rewrite last_with_id_cons. intros [Hx|Hin].
  - destruct (last_with_id k rest); [eauto|].
    destruct (decide (ARGOFloat.id x = k)); [eauto|contradiction].
  - destruct (IH Hin) as [m ->]. eauto.
Qed.

Lemma last_with_id_None (k : string) (float_data : list ARGOFloat.t) :
  ~ In k (map ARGOFloat.id float_data) -> last_with_id k float_data = None.
Proof.
  intros Hnot. destruct (last_with_id k float_data) as [m|] eqn:E;
    [|reflexivity].
  apply last_with_id_Some in E as [<- Hin]. exfalso. apply Hnot.
  apply in_map. exact Hin.
Qed.

(** Whatever the file, when each profile it may hold carries its date, two
    decodings return the same measurements. *)
Lemma process_netcdf_file_same_rows `{Library}
  (open_dataset : string -> outcome dataset) (now1 now2 : clock)
  (file_path : string) :
  (forall ds, open_dataset file_path = Return ds ->
              Forall (fun slot => JULD slot <> None) (N_PROF ds)) ->
  same_rows (process_netcdf_file open_dataset now1 file_path).1
    (process_netcdf_file open_dataset now2 file_path).1.
Proof.
  intros Hdated. unfold process_netcdf_file.
  destruct (open_dataset file_path) as [ds|e]; [|split; reflexivity].
  cbn [bind].
  pose proof (profile_loop_same_rows now1 now2 file_path
                (attr_platform_number ds) (N_PROF ds) (Hdated ds eq_refl)
                0%nat ([], None) ([], None) (conj eq_refl eq_refl)) as Hsame.
  destruct (profile_loop now1 _ _ _ _ _) as [a|e1],
           (profile_loop now2 _ _ _ _ _) as [b|e2];
    try contradiction; [exact Hsame|split; reflexivity].
Qed.

(** C7, as amended. Once a file has been decoded and its rows committed,
    decoding the same file again, at another moment, and storing the result
    leaves both tables with the same keys and the same number of rows.
    When the second store commits, every row the first ingestion stored is
    replaced by the row of the second decoding with that key, the summary
    included, and the rows under other keys are untouched; when it fails,
    the tables are as the first ingestion left them.  The rows themselves
    need not be the same as after one ingestion, since the second decoding
    reads the clock again; when every profile of the file carries its date,
    [argo_floats] is exactly as after one ingestion. *)
Theorem reingest_overwrites_rows `{Library}
  (open_dataset : string -> outcome dataset) (now1 now2 : clock)
  (file_path : string) (io1 io2 : init_outcome) (fault2 : option exn)
  (self self1 self2 : processor) (db db1 db2 : database)
  (log1 log2 : list log_record) (r2 : outcome unit) :
  let first := (process_netcdf_file open_dataset now1 file_path).1 in
  let second := (process_netcdf_file open_dataset now2 file_path).1 in
  store_to_postgresql io1 None self db first.1 first.2
  = (Return (), self1, db1, log1) ->
  store_to_postgresql io2 fault2 self1 db1 second.1 second.2
  = (r2, self2, db2, log2) ->
  row_count db2 = row_count db1
  /\ dom (argo_floats db2) = dom (argo_floats db1)
  /\ dom (argo_profiles db2) = dom (argo_profiles db1)
  /\ (r2 = Return () ->
      (forall k, In k (map ARGOFloat.id first.1) ->
         exists m, last_with_id k second.1 = Some m
                   /\ argo_floats db2 !! k = Some m)
      /\ (forall k, ~ In k (map ARGOFloat.id first.1) ->
            argo_floats db2 !! k = argo_floats db1 !! k)
      /\ (forall p1, first.2 = Some p1 ->
            exists p2, second.2 = Some p2
                       /\ ARGOProfile.id p2 = ARGOProfile.id p1
                       /\ argo_profiles db2 !! ARGOProfile.id p1 = Some p2)
      /\ (forall k, (ARGOProfile.id <$> first.2) <> Some k ->
            argo_profiles db2 !! k = argo_profiles db1 !! k))
  /\ ((exists e, r2 = Raise e) -> db2 = db1)
  /\ ((forall ds, open_dataset file_path = Return ds ->
                  Forall (fun slot => JULD slot <> None) (N_PROF ds)) ->
      argo_floats db2 = argo_floats db1).
Proof.
  cbv zeta.
  pose proof (process_netcdf_file_same_keys open_dataset now1 now2 file_path)
    as Hkeys.
  pose proof (process_netcdf_file_same_rows open_dataset now1 now2 file_path)
    as Hrows.
  destruct (process_netcdf_file open_dataset now1 file_path).1 as [ms1 p1].
  destruct (process_netcdf_file open_dataset now2 file_path).1 as [ms2 p2].
  unfold decoded_keys in Hkeys. unfold same_rows in Hrows.
  cbn [fst snd] in *. injection Hkeys as Hms Hp.
  intros Hfirst Hsecond.
  pose proof (store_to_postgresql_cases io1 None self db ms1 p1) as H1.
  rewrite Hfirst in H1.
  destruct H1 as (_ & _ & [(_ & _ & _ & Hdb1)|([e He] & _)]); [|discriminate].
  pose proof (store_to_postgresql_cases io2 fault2 self1 db1 ms2 p2) as H2.
  rewrite Hsecond in H2.
  destruct H2 as (_ & _ & [(-> & _ & _ & Hdb2)|([e ->] & ->)]).
  - assert (Hdomf : dom (argo_floats db2) = dom (argo_floats db1)).
    { rewrite Hdb2, Hdb1. cbn [argo_floats].
      rewrite !dom_merge_floats, <- Hms. set_solver. }
    assert (Hdomp : dom (argo_profiles db2) = dom (argo_profiles db1)).
    { rewrite Hdb2, Hdb1. cbn [argo_profiles].
      rewrite !dom_merge_profile, <- Hp.
      destruct (ARGOProfile.id <$> p1); set_solver. }
    split.
    { unfold row_count. rewrite <- !size_dom, Hdomf, Hdomp. reflexivity. }
    split; [exact Hdomf|]. split; [exact Hdomp|]. split; [|split].
    + intros _. rewrite Hdb2. cbn [argo_floats argo_profiles].
      split; [|split; [|split]].
      * intros k Hk. rewrite Hms in Hk.
        destruct (last_with_id_key k ms2 Hk) as [m Hm].
        exists m. split; [exact Hm|]. rewrite lookup_merge_floats, Hm.
        reflexivity.
      * intros k Hk. rewrite Hms in Hk.
        rewrite lookup_merge_floats, (last_with_id_None k ms2 Hk). reflexivity.
      * intros q1 ->. destruct p2 as [q2|]; [|discriminate].
        injection Hp as Hp. exists q2. split; [reflexivity|].
        split; [symmetry; exact Hp|]. cbn [merge_profile]. rewrite Hp.
        apply lookup_insert_eq.
      * intros k Hk. destruct p2 as [q2|]; [|reflexivity].
        cbn [merge_profile]. apply lookup_insert_ne.
        intros E. apply Hk. rewrite Hp, <- E. reflexivity.
    + intros [e He]. discriminate.
    + intros Hdated. destruct (Hrows Hdated) as [-> _].
      rewrite Hdb2, Hdb1. cbn [argo_floats]. apply merge_floats_idempotent.
  - split; [reflexivity|]. split; [reflexivity|]. split; [reflexivity|].
    split; [intros He; discriminate|]. split; intros _; reflexivity.
Qed.

(** ** Instances of the properties above *)

Lemma profile_ranges_bound_measurements_witness :
  exists float_data p,
    @slot_contribution example_library example_clock "data/a.nc" "test_1000"
      0%nat example_slot = Return (float_data, Some p)
    /\ map ARGOFloat.temperature float_data = [float_of_int 10; float_of_int 12]
    /\ bounds_of (ARGOProfile.temperature_range p)
         (map ARGOFloat.temperature float_data).
Proof.
  eexists _, _. split; [vm_compute; reflexivity|].
  split; [vm_compute; reflexivity|].
  refine (proj1 (@profile_ranges_bound_measurements example_library
                   example_clock "data/a.nc" "test_1000" 0%nat example_slot
                   _ _ _)).
  vm_compute. reflexivity.
Defined.

Lemma distinct_cycles_distinct_keys_witness :
  NoDup (map CYCLE_NUMBER (N_PROF example_dataset_cycles))
  /\ NoDup (map ARGOFloat.id
              (@process_netcdf_file example_library example_open example_clock
                 "data/b.nc").1.1).
Proof.
  assert (Hnd : NoDup (map CYCLE_NUMBER (N_PROF example_dataset_cycles)))
    by (apply (bool_decide_unpack _); vm_compute; reflexivity).
  split; [exact Hnd|].
  apply (@distinct_cycles_distinct_keys example_library example_open
           example_clock "data/b.nc" example_dataset_cycles);
    [vm_compute; reflexivity|exact Hnd].
Defined.

Lemma store_to_postgresql_lookup_witness :
  stored_once.1.1.1 = Return ()
  /\ argo_floats stored_once.1.2 !! "test_1000_7_2"
     = match last_with_id "test_1000_7_2"
               (@process_netcdf_file example_library example_open
                  example_clock "data/a.nc").1.1 with
       | Some m => Some m
       | None => argo_floats empty_database !! "test_1000_7_2"
       end.
Proof.
  split; [reflexivity|].
  refine (proj1 (store_to_postgresql_lookup InitOk new_processor
                   stored_once.1.1.2 empty_database stored_once.1.2
                   (@process_netcdf_file example_library example_open
                      example_clock "data/a.nc").1.1
                   (@process_netcdf_file example_library example_open
                      example_clock "data/a.nc").1.2
                   stored_once.2 "test_1000_7_2" _)).
  vm_compute. reflexivity.
Defined.

Lemma store_again_same_tables_witness :
  stored_once.1.1.1 = Return ()
  /\ (store_to_postgresql InitOk (Some OSError) stored_once.1.1.2 stored_once.1.2
        (@process_netcdf_file example_library example_open example_clock
           "data/a.nc").1.1
        (@process_netcdf_file example_library example_open example_clock
           "data/a.nc").1.2).1.2
     = stored_once.1.2.
Proof.
  split; [reflexivity|].
  apply (store_again_same_tables InitOk InitOk (Some OSError) new_processor
           stored_once.1.1.2 empty_database stored_once.1.2 _ _ stored_once.2).
  vm_compute. reflexivity.
Defined.

Lemma indexing_keeps_dimensions_known_witness :
  dimensions_known example_index
  /\ dimensions_known
       (@store_to_vector_database example_library None example_index
          (Some (profile_with "p4" "salinity"))).1.2
  /\ dimensions_known
       (@search_similar_profiles example_library example_index "ocean" 5).1.2.
Proof.
  assert (Hdim : dimensions_known example_index).
  { unfold dimensions_known.
    repeat (apply Forall_cons; split;
            [right; exists ["ocean"; "temperature"]; split;
             vm_compute; reflexivity|]).
    apply Forall_nil_2. }
  split; [exact Hdim|].
  apply (@indexing_keeps_dimensions_known example_library example_index None
           (Some (profile_with "p4" "salinity")) "ocean" 5 Hdim).
Defined.

Lemma query_complete_below_limit_witness :
  exists data,
    (@query_argo_data example_library InitOk None example_table
       (Some "North Atlantic") None None None None).1
    = Return (Success 2 data)
    /\ In (to_row (example_row "test_1000_1_2" "North Atlantic" 25)) data.
Proof.
  eexists. split; [vm_compute; reflexivity|].
  apply (@query_complete_below_limit example_library InitOk None example_table
           (Some "North Atlantic") None None None None 2 _
           [INFO DatabaseInitialized]
           (example_row "test_1000_1_2" "North Atlantic" 25)).
  - vm_compute. reflexivity.
  - lia.
  - right. right. left. reflexivity.
  - split; [intros v [= <-] _; reflexivity|].
    repeat split; intros x Hx; discriminate Hx.
Defined.

Lemma query_one_bound_range_fails_witness :
  (@query_argo_data example_library InitOk None example_table None None None
     (Some [float_of_int 5]) None).1
  = Return (Failure IndexError).
Proof.
  apply (@query_one_bound_range_fails example_library InitOk None example_table
           None None None (Some [float_of_int 5]) None).
  - intros e. discriminate.
  - left. exists (float_of_int 5). reflexivity.
Defined.

Lemma one_closing_line_per_file_witness :
  exists new,
    logs (@process_directory example_library example_env "data"
            initial_state).2
    = (logs initial_state ++ new)%list
    /\ omap closing_line new = ["a.nc"; "c.nc"; "b.nc"].
Proof.
  apply (@one_closing_line_per_file example_library example_env "data"
           initial_state).
  reflexivity.
Defined.

Lemma process_directory_keeps_stores_consistent_witness :
  summaries_consistent initial_state
  /\ summaries_consistent
       (@process_directory example_library example_env "data"
          initial_state).2.
Proof.
  assert (Hst : summaries_consistent initial_state).
  { split; [apply map_Forall_empty|].
    intros k Hk. apply elem_of_nil in Hk. contradiction. }
  split; [exact Hst|].
  apply (@process_directory_keeps_stores_consistent example_library
           example_env "data" initial_state Hst).
Defined.

Lemma semantic_search_without_index_witness :
  (@semantic_search_profiles example_library ∅ "ocean" 5).1
  = SearchSuccess "ocean" [].
Proof.
  apply (proj1 (@semantic_search_without_index example_library ∅ "ocean" 5)).
  left. reflexivity.
Defined.

Lemma main_stops_when_initialisation_fails_witness :
  exists e,
    (InitConnectFails OSError = InitEngineFails e
     \/ InitConnectFails OSError = InitConnectFails e)
    /\ (@main example_library (InitConnectFails OSError) example_env WriteOk
          ["argo_data_pipeline.py"; "data"] empty_database ∅).1 = Return ()
    /\ final_db (@main example_library (InitConnectFails OSError) example_env
                   WriteOk ["argo_data_pipeline.py"; "data"] empty_database
                   ∅).2 = empty_database
    /\ final_files (@main example_library (InitConnectFails OSError)
                      example_env WriteOk ["argo_data_pipeline.py"; "data"]
                      empty_database ∅).2 = ∅
    /\ vector_store
         (final_processor
            (@main example_library (InitConnectFails OSError) example_env
               WriteOk ["argo_data_pipeline.py"; "data"] empty_database ∅).2)
       = []
    /\ final_log (@main example_library (InitConnectFails OSError) example_env
                    WriteOk ["argo_data_pipeline.py"; "data"] empty_database
                    ∅).2
       = [Logged (ERROR (DatabaseInitFailed e)); FailedToInitialize].
Proof.
  apply (@main_stops_when_initialisation_fails example_library
           (InitConnectFails OSError) example_env WriteOk
           ["argo_data_pipeline.py"; "data"] empty_database ∅).
  discriminate.
Defined.

Lemma main_then_semantic_search_witness :
  (@main example_library InitOk example_env WriteOk
     ["argo_data_pipeline.py"; "data"] empty_database ∅).1 = Return ()
  /\ (@semantic_search_profiles example_library
        (final_files
           (@main example_library InitOk example_env WriteOk
              ["argo_data_pipeline.py"; "data"] empty_database ∅).2)
        "salinity range" 1).1
     = SearchSuccess "salinity range"
         (@search_similar_profiles example_library
            (final_processor
               (@main example_library InitOk example_env WriteOk
                  ["argo_data_pipeline.py"; "data"] empty_database ∅).2)
            "salinity range" 1).1.1.
Proof.
  apply (@main_then_semantic_search example_library example_env
           ["argo_data_pipeline.py"; "data"] empty_database ∅
           "salinity range" 1).
  intros x. reflexivity.
Defined.

Lemma save_leaves_other_files_witness :
  @load_vector_store example_library new_processor "other.pkl"
    (@save_vector_store example_library WriteOk example_index
       default_vector_store_path ∅).1
  = @load_vector_store example_library new_processor "other.pkl" ∅.
Proof.
  apply (@save_leaves_other_files example_library WriteOk example_index
           new_processor default_vector_store_path "other.pkl" ∅).
  left. discriminate.
Defined.

Lemma ragged_profile_discards_file_witness :
  exists e,
    @process_netcdf_file example_library
      (fun _ => Return example_dataset_ragged) example_clock "data/d.nc"
    = (([], None), [INFO (ProcessingFile "data/d.nc");
                    ERROR (ErrorProcessingFile "data/d.nc" e)]).
Proof.
  apply (@ragged_profile_discards_file example_library
           (fun _ => Return example_dataset_ragged) example_clock "data/d.nc"
           example_dataset_ragged).
  - reflexivity.
  - apply Exists_cons_tl, Exists_cons_hd. left. simpl. lia.
Defined.


(** The claim C7 fails as stated: the identical file ingested a second
    time leaves the tables with the same keys but not with the same
    contents, the rows then carrying the time stamps of the second
    decoding. *)
Lemma reingest_changes_rows :
  stored_once.1.1.1 = Return ()
  /\ stored_twice.1.1.1 = Return ()
  /\ row_count stored_twice.1.2 = row_count stored_once.1.2
  /\ (ARGOFloat.measurement_time <$>
        argo_floats stored_once.1.2 !! "test_1000_7_0") = Some 27375
  /\ (ARGOFloat.measurement_time <$>
        argo_floats stored_twice.1.2 !! "test_1000_7_0") = Some 27400
  /\ (ARGOProfile.processed_at <$>
        (ARGOProfile.processing_metadata <$>
           argo_profiles stored_once.1.2 !! "test_1000_7")) = Some 27375
  /\ (ARGOProfile.processed_at <$>
        (ARGOProfile.processing_metadata <$>
           argo_profiles stored_twice.1.2 !! "test_1000_7")) = Some 27400
  /\ stored_twice.1.2 <> stored_once.1.2.
Proof.
  assert (H1 : (ARGOFloat.measurement_time <$>
                  argo_floats stored_once.1.2 !! "test_1000_7_0") = Some 27375)
    by (vm_compute; reflexivity).
  assert (H2 : (ARGOFloat.measurement_time <$>
                  argo_floats stored_twice.1.2 !! "test_1000_7_0") = Some 27400)
    by (vm_compute; reflexivity).
  split; [reflexivity|]. split; [vm_compute; reflexivity|].
  split; [vm_compute; reflexivity|]. split; [exact H1|]. split; [exact H2|].
  split; [vm_compute; reflexivity|]. split; [vm_compute; reflexivity|].
  intros E. rewrite E, H1 in H2. discriminate.
Qed.

Lemma reingest_overwrites_rows_witness :
  dated_once.1.1.1 = Return ()
  /\ dated_twice.1.1.1 = Return ()
  /\ row_count dated_once.1.2 = (2%nat, 1%nat)
  /\ row_count dated_twice.1.2 = row_count dated_once.1.2
  /\ argo_floats dated_twice.1.2 = argo_floats dated_once.1.2
  /\ (exists p2,
        (@process_netcdf_file example_library dated_open later_clock
           "data/e.nc").1.2 = Some p2
        /\ argo_profiles dated_twice.1.2 !! "test_1003_8" = Some p2
        /\ ARGOProfile.processed_at (ARGOProfile.processing_metadata p2)
           = 27400).
Proof.
  assert (H1 : dated_once.1.1.1 = Return ()) by reflexivity.
  assert (H2 : dated_twice.1.1.1 = Return ()) by (vm_compute; reflexivity).
  destruct (@reingest_overwrites_rows example_library dated_open example_clock
              later_clock "data/e.nc" InitOk InitOk None new_processor
              dated_once.1.1.2 dated_twice.1.1.2 empty_database
              dated_once.1.2 dated_twice.1.2 dated_once.2 dated_twice.2
              dated_twice.1.1.1)
    as (Hcount & _ & _ & Hover & _ & Hdated);
    [vm_compute; reflexivity|vm_compute; reflexivity|].
  split; [exact H1|]. split; [exact H2|].
  split; [vm_compute; reflexivity|]. split; [exact Hcount|].
  split.
  - apply Hdated. intros ds [= <-]. repeat constructor; discriminate.
  - destruct (Hover H2) as (_ & _ & Hp & _).
    destruct (@process_netcdf_file example_library dated_open example_clock
                "data/e.nc").1.2 as [p1|] eqn:E1;
      [|vm_compute in E1; discriminate].
    destruct (Hp p1 eq_refl) as (p2 & Hp2 & Hid & Hlook).
    exists p2. split; [exact Hp2|]. split.
    + replace "test_1003_8" with (ARGOProfile.id p1); [exact Hlook|].
      vm_compute in E1. injection E1 as <-. reflexivity.
    + vm_compute in Hp2. injection Hp2 as <-. reflexivity.
Defined.
